(** * Explorer for Endevor: upload / edit orchestration and compared-element URIs

    A shallow embedding of
    - [packages/explorer-for-endevor/src/commands/uploadElement.ts]
    - the multi-element edit command ([editMultipleElements])
    - [packages/explorer-for-endevor/src/uri/comparedElementUri.ts]
    together with the properties the specification states about them.

    Asynchronous functions are written in a state monad over the ordered
    trace of the external calls they make (dialogs, file system, Endevor
    client, dispatch).  What the outside world answers is an explicit
    environment [Env]: a script giving the answer to the n-th call of each
    capability.  Logging at warn/trace level and telemetry are not part
    of the trace; [logger.error] is. *)

From Stdlib Require Import String Ascii List Bool Arith ZArith Lia.
From Stdlib Require Import DecimalString DecimalZ.
Import ListNotations.
Set Warnings "-register-all".
Local Open Scope list_scope.
Local Open Scope string_scope.

(* ================================================================== *)
(** ** Data model ([packages/endevor/_doc/Endevor.ts]) *)
(* ================================================================== *)

Definition Value := string.

Inductive StageNumber := Stage1 | Stage2.

Inductive ServiceProtocol := http | https.

Record ServiceLocation := {
  protocol : ServiceProtocol;
  port : Z;
  hostname : string;
  basePath : string
}.

(** Modelled from the spec: [_doc/Credential.ts] is not among the sources;
    the tests build a credential as a user and password of base type. *)
Record Credential := {
  user : string;
  password : string
}.

Record Service := {
  location : ServiceLocation;
  credential : Credential;
  rejectUnauthorized : bool
}.

Record ChangeControlValue := {
  ccid : Value;
  comment : Value
}.
Definition ActionChangeControlValue := ChangeControlValue.

(** [ElementSearchLocation = ElementSearchPath & Partial<ChangeControlValue>] *)
Record ElementSearchLocation := {
  sl_instance : Value;
  sl_environment : option Value;
  sl_stageNumber : option StageNumber;
  sl_system : option Value;
  sl_subsystem : option Value;
  sl_type : option Value;
  sl_element : option Value;
  sl_ccid : option Value;
  sl_comment : option Value
}.

Record ElementMapPath := {
  mp_instance : Value;
  mp_environment : Value;
  mp_stageNumber : StageNumber;
  mp_system : Value;
  mp_subSystem : Value;
  mp_type : Value;
  mp_name : Value
}.

(** [Element = ElementMapPath & { extension }] *)
Record Element := {
  instance : Value;
  environment : Value;
  stageNumber : StageNumber;
  system : Value;
  subSystem : Value;
  type : Value;
  name : Value;
  extension : Value
}.

(** The object spread [{ ...uploadLocation, extension: element.extension }]
    of [uploadElementCommand]. *)
Definition withExtension (l : ElementMapPath) (ext : Value) : Element :=
  {| instance := mp_instance l; environment := mp_environment l;
     stageNumber := mp_stageNumber l; system := mp_system l;
     subSystem := mp_subSystem l; type := mp_type l; name := mp_name l;
     extension := ext |}.

Definition EndevorServiceName := string.
Definition ElementLocationName := string.

(** *** Errors

    [SignoutError] and [FingerprintMismatchError] are subclasses of the
    JavaScript [Error]; [isError] holds of all three, [isSignoutError] and
    [isFingerprintMismatchError] of their own class only. *)
Inductive ErrorClass := PlainError | SignoutError | FingerprintMismatchError.

Record Error := {
  errorClass : ErrorClass;
  message : string
}.

Definition newError (msg : string) : Error :=
  {| errorClass := PlainError; message := msg |}.

(** A value of type [T | Error]. *)
Inductive OrError (T : Type) :=
| Val (v : T)
| Err (e : Error).
Arguments Val {T} v.
Arguments Err {T} e.

Definition isError {T} (r : OrError T) : bool :=
  match r with Err _ => true | Val _ => false end.

Definition isSignoutError {T} (r : OrError T) : bool :=
  match r with
  | Err {| errorClass := SignoutError |} => true
  | _ => false
  end.

Definition isFingerprintMismatchError {T} (r : OrError T) : bool :=
  match r with
  | Err {| errorClass := FingerprintMismatchError |} => true
  | _ => false
  end.

(** *** URIs ([vscode.Uri]) *)
Record Uri := {
  scheme : string;
  authority : string;
  path : string;
  query : string;
  fragment : string
}.

Definition isAsciiLetter (c : ascii) : bool :=
  let n := nat_of_ascii c in
  (((65 <=? n) && (n <=? 90)) || ((97 <=? n) && (n <=? 122)))%nat.

Definition toLowerCase (c : ascii) : ascii :=
  let n := nat_of_ascii c in
  if ((65 <=? n) && (n <=? 90))%nat then ascii_of_nat (n + 32) else c.

(** [uri.fsPath] on a POSIX host. *)
Definition fsPath (u : Uri) : string :=
  if negb (String.eqb (authority u) EmptyString)
     && (1 <? String.length (path u))%nat
     && String.eqb (scheme u) "file"
  then "//" ++ authority u ++ path u
  else
    match path u with
    | String s (String d (String c rest)) =>
        if Ascii.eqb s "/" && isAsciiLetter d && Ascii.eqb c ":"
        then String (toLowerCase d) (String c rest)
        else path u
    | _ => path u
    end.

(** *** Node's [path.dirname] on a POSIX host

    The function scans the path from its end down to its second
    character: it passes the trailing slashes, then the last name, and
    cuts the path before the slash it meets next.  With no such slash
    the result is the root or the current directory, so it is never the
    empty string. *)
Definition isSlash (c : ascii) : bool := Ascii.eqb c "/".

Fixpoint dropWhile (p : ascii -> bool) (l : list ascii) : list ascii :=
  match l with
  | [] => []
  | c :: l' => if p c then dropWhile p l' else l
  end.

Definition path_dirname (p : string) : string :=
  match list_ascii_of_string p with
  | [] => "."
  | first :: others =>
      match dropWhile (fun c => negb (isSlash c)) (dropWhile isSlash (rev others)) with
      | [] => if isSlash first then "/" else "."
      | _ :: before =>
          match before with
          | [] => if isSlash first then "//" else String first EmptyString
          | _ :: _ => string_of_list_ascii (first :: rev before)
          end
      end
  end.

(** [EditedElementUriQuery] of [_doc/Uri.ts]. *)
Record EditedElementUriQuery := {
  q_serviceName : EndevorServiceName;
  q_searchLocationName : ElementLocationName;
  q_service : Service;
  q_element : Element;
  q_searchLocation : ElementSearchLocation;
  q_fingerprint : string
}.

(** *** Domain events

    Modelled from the spec: [_doc/Actions.ts] is not among the sources.
    [ELEMENT_UPDATED] and [ELEMENT_SIGNEDOUT] are the two tags
    [uploadElement.ts] builds; [ELEMENT_ADDED] and
    [ELEMENT_UPDATED_FROM_UP_THE_MAP] are the further variants the
    specification and [uploadElement.test.ts] name. *)
Inductive Actions :=
| ELEMENT_UPDATED
| ELEMENT_SIGNEDOUT
| ELEMENT_ADDED
| ELEMENT_UPDATED_FROM_UP_THE_MAP.

Record Action := {
  a_type : Actions;
  a_serviceName : EndevorServiceName;
  a_service : Service;
  a_searchLocationName : ElementLocationName;
  a_searchLocation : ElementSearchLocation;
  a_elements : list Element
}.

(* ================================================================== *)
(** ** External calls and their trace *)
(* ================================================================== *)

(** The pre-filled value handed to the upload location dialog. *)
Record UploadLocationPrefill := {
  pf_environment : option Value;
  pf_stageNumber : option StageNumber;
  pf_system : option Value;
  pf_subsystem : option Value;
  pf_type : Value;
  pf_element : Value;
  pf_instance : Value
}.

(** The arguments of the curried conflict-resolution gateway
    [compareElementWithRemoteVersion(service, searchLocation)
       (uploadChangeControlValue)(element, serviceName, searchLocationName)
       (localVersionPath)] *)
Record CompareArgs := {
  cmp_service : Service;
  cmp_searchLocation : ElementSearchLocation;
  cmp_changeControl : ChangeControlValue;
  cmp_element : Element;
  cmp_serviceName : EndevorServiceName;
  cmp_searchLocationName : ElementLocationName;
  cmp_localVersionPath : string
}.

Inductive Effect :=
| LoggerError (msg : string) (details : option string)
| AskForUploadLocation (prefill : UploadLocationPrefill)
| AskForChangeControlValue (ccid comment : option Value)
| CloseActiveTextEditor
| GetFileContent (file : string) (* [getFileContent(Uri.file(file))] *)
| UpdateElement (s : Service) (e : Element) (ccv : ChangeControlValue)
                (fingerprint content : string)
| AskToSignOutElements (names : list string)
| TurnOnAutomaticSignOut
| SignOutElement (s : Service) (e : Element) (ccv : ChangeControlValue)
| AskToOverrideSignOutForElements (names : list string)
| OverrideSignOutElement (s : Service) (e : Element) (ccv : ChangeControlValue)
| SaveFileIntoWorkspaceFolder (folder : string) (* [Uri.file(folder)] *)
                              (fileName fileExtension content : string)
| CompareElementWithRemoteVersion (args : CompareArgs)
| ShowElementToEdit (file : Uri)
| DeleteFile (file : Uri)
| Dispatch (a : Action)
| RetrieveElementWithFingerprint (s : Service) (e : Element)
| SaveIntoEditFolder (workspace : Uri) (serviceName : EndevorServiceName)
                     (searchLocationName : ElementLocationName)
                     (e : Element) (content : string).

Definition Trace := list Effect.

(** The answer of the sign-out dialog. *)
Record SignOutDialogResult := {
  signOutElements : bool;
  automaticSignOut : bool
}.

(** The script of the outside world.  The functions over [nat] give the
    answer to the n-th call (counted from 0) of that capability within
    the run.  For a call made inside a [try] block ([getFileContent],
    [saveFileIntoWorkspaceFolder], [deleteFile]) an [Err] is also the
    exception it throws.  [fromEditedElementUri] ([uri/editedElementUri])
    is not among the sources and is taken as it comes. *)
Record Env := {
  fromEditedElementUri : Uri -> OrError EditedElementUriQuery;
  (* dialogs; [None] is a cancelled dialog *)
  askForUploadLocation : option ElementMapPath;
  askForChangeControlValue : option ChangeControlValue;
  askToSignOutElements : nat -> SignOutDialogResult;
  askToOverrideSignOutForElements : nat -> bool;
  (* file system *)
  getFileContent : nat -> OrError string;
  saveFileIntoWorkspaceFolder : nat -> OrError Uri;
  deleteFile : nat -> OrError unit;
  (* Endevor client *)
  updateElement : nat -> OrError unit;
  signOutElement : nat -> OrError unit;
  overrideSignOutElement : nat -> OrError unit;
  (* editor and gateway *)
  compareElementWithRemoteVersion : nat -> OrError unit;
  showElementToEdit : nat -> OrError unit
}.

(** *** Projections of a trace *)

Definition isUpdate (e : Effect) : bool :=
  match e with UpdateElement _ _ _ _ _ => true | _ => false end.
Definition isSignOut (e : Effect) : bool :=
  match e with SignOutElement _ _ _ => true | _ => false end.
Definition isOverrideSignOut (e : Effect) : bool :=
  match e with OverrideSignOutElement _ _ _ => true | _ => false end.
Definition isAskToSignOut (e : Effect) : bool :=
  match e with AskToSignOutElements _ => true | _ => false end.
Definition isAskToOverride (e : Effect) : bool :=
  match e with AskToOverrideSignOutForElements _ => true | _ => false end.
Definition isGetFileContent (e : Effect) : bool :=
  match e with GetFileContent _ => true | _ => false end.
Definition isSaveFile (e : Effect) : bool :=
  match e with SaveFileIntoWorkspaceFolder _ _ _ _ => true | _ => false end.
Definition isDeleteFile (e : Effect) : bool :=
  match e with DeleteFile _ => true | _ => false end.
Definition isCompare (e : Effect) : bool :=
  match e with CompareElementWithRemoteVersion _ => true | _ => false end.
Definition isShow (e : Effect) : bool :=
  match e with ShowElementToEdit _ => true | _ => false end.
Definition isDispatch (e : Effect) : bool :=
  match e with Dispatch _ => true | _ => false end.
Definition isLoggerError (e : Effect) : bool :=
  match e with LoggerError _ _ => true | _ => false end.
Definition isAskForUploadLocation (e : Effect) : bool :=
  match e with AskForUploadLocation _ => true | _ => false end.
Definition isAskForChangeControlValue (e : Effect) : bool :=
  match e with AskForChangeControlValue _ _ => true | _ => false end.
Definition isCloseEditor (e : Effect) : bool :=
  match e with CloseActiveTextEditor => true | _ => false end.
Definition isTurnOnAutomaticSignOut (e : Effect) : bool :=
  match e with TurnOnAutomaticSignOut => true | _ => false end.
Definition isRetrieve (e : Effect) : bool :=
  match e with RetrieveElementWithFingerprint _ _ => true | _ => false end.
Definition isSaveIntoEditFolder (e : Effect) : bool :=
  match e with SaveIntoEditFolder _ _ _ _ _ => true | _ => false end.
(** A call to the remote repository: update, sign-out or override sign-out. *)
Definition isRemoteCall (e : Effect) : bool :=
  isUpdate e || isSignOut e || isOverrideSignOut e.

Definition Actions_eqb (a b : Actions) : bool :=
  match a, b with
  | ELEMENT_UPDATED, ELEMENT_UPDATED
  | ELEMENT_SIGNEDOUT, ELEMENT_SIGNEDOUT
  | ELEMENT_ADDED, ELEMENT_ADDED
  | ELEMENT_UPDATED_FROM_UP_THE_MAP, ELEMENT_UPDATED_FROM_UP_THE_MAP => true
  | _, _ => false
  end.

(** The dispatch of an action of the given type. *)
Definition isDispatchOf (ty : Actions) (e : Effect) : bool :=
  match e with Dispatch a => Actions_eqb (a_type a) ty | _ => false end.

Definition count (p : Effect -> bool) (t : Trace) : nat :=
  length (filter p t).

(** The actions dispatched, in order. *)
Fixpoint dispatched (t : Trace) : list Action :=
  match t with
  | [] => []
  | Dispatch a :: t' => a :: dispatched t'
  | _ :: t' => dispatched t'
  end.

Fixpoint deletedFiles (t : Trace) : list Uri :=
  match t with
  | [] => []
  | DeleteFile u :: t' => u :: deletedFiles t'
  | _ :: t' => deletedFiles t'
  end.

Fixpoint compareCalls (t : Trace) : list CompareArgs :=
  match t with
  | [] => []
  | CompareElementWithRemoteVersion a :: t' => a :: compareCalls t'
  | _ :: t' => compareCalls t'
  end.

Fixpoint loggedErrors (t : Trace) : list string :=
  match t with
  | [] => []
  | LoggerError m _ :: t' => m :: loggedErrors t'
  | _ :: t' => loggedErrors t'
  end.

(* ================================================================== *)
(** ** The monad of the asynchronous code *)
(* ================================================================== *)

Definition M (A : Type) : Type := Trace -> A * Trace.

Definition ret {A} (a : A) : M A := fun t => (a, t).

Definition bind {A B} (m : M A) (k : A -> M B) : M B :=
  fun t => let (a, t') := m t in k a t'.

Notation "x <- m ;; k" := (bind m (fun x => k))
  (at level 61, m at next level, right associativity).
Notation "m ;;; k" := (bind m (fun _ => k))
  (at level 61, right associativity).

(** Performs the call [e]; its answer is the script's entry for the
    number of earlier calls of the same kind [p]. *)
Definition call {A} (p : Effect -> bool) (e : Effect) (answer : nat -> A) : M A :=
  fun t => (answer (count p t), (t ++ [e])%list).

Definition emit (e : Effect) : M unit := fun t => (tt, (t ++ [e])%list).

(** [logger.error(msg)] and [logger.error(msg, details)] *)
Definition logger_error (msg : string) (details : option string) : M unit :=
  emit (LoggerError msg details).

Definition dispatch (a : Action) : M unit := emit (Dispatch a).

(* ================================================================== *)
(** ** [commands/uploadElement.ts] *)
(* ================================================================== *)

Section UploadElement.

Variable env : Env.

(** [askForUploadValues], lines 144-173.  In
    [searchLocation.type ? searchLocation.type : element.type] an absent
    and an empty type are both falsy. *)
Definition uploadType (searchLocation : ElementSearchLocation) (element : Element) : Value :=
  match sl_type searchLocation with
  | Some t => if String.eqb t "" then type element else t
  | None => type element
  end.

Definition askForUploadValues (searchLocation : ElementSearchLocation) (element : Element)
  : M (OrError (ElementMapPath * ActionChangeControlValue)) :=
  uploadLocation <-
    call (fun _ => false)
      (AskForUploadLocation
         {| pf_environment := sl_environment searchLocation;
            pf_stageNumber := sl_stageNumber searchLocation;
            pf_system := sl_system searchLocation;
            pf_subsystem := sl_subsystem searchLocation;
            pf_type := uploadType searchLocation element;
            pf_element := name element;
            pf_instance := instance element |})
      (fun _ => askForUploadLocation env) ;;
  match uploadLocation with
  | None =>
      ret (Err (newError
        ("Upload location must be specified to upload the element " ++ name element)))
  | Some uploadLocation =>
      uploadChangeControlValue <-
        call (fun _ => false)
          (AskForChangeControlValue (sl_ccid searchLocation) (sl_comment searchLocation))
          (fun _ => askForChangeControlValue env) ;;
      match uploadChangeControlValue with
      | None =>
          ret (Err (newError
            ("CCID and Comment must be specified to upload the element "
               ++ mp_name uploadLocation)))
      | Some uploadChangeControlValue =>
          ret (Val (uploadLocation, uploadChangeControlValue))
      end
  end.

(** [readEditedElementContent], lines 292-304. *)
Definition readEditedElementContent (elementTempFilePath : string) : M (OrError string) :=
  content <- call isGetFileContent (GetFileContent elementTempFilePath)
               (getFileContent env) ;;
  match content with
  | Val c => ret (Val c)
  | Err error =>
      ret (Err (newError
        ("Unable to read the element content because of error " ++ message error)))
  end.

(** [updateTreeAfterSuccessfulSignout], lines 449-466. *)
Definition updateTreeAfterSuccessfulSignout
    (serviceName : EndevorServiceName) (service : Service)
    (searchLocationName : ElementLocationName) (searchLocation : ElementSearchLocation)
    (elements : list Element) : M unit :=
  dispatch {| a_type := ELEMENT_SIGNEDOUT; a_serviceName := serviceName;
              a_service := service; a_searchLocationName := searchLocationName;
              a_searchLocation := searchLocation; a_elements := elements |}.

(** [updateTreeAfterSuccessfulUpload], lines 468-485. *)
Definition updateTreeAfterSuccessfulUpload
    (serviceName : EndevorServiceName) (service : Service)
    (searchLocationName : ElementLocationName) (searchLocation : ElementSearchLocation)
    (elements : list Element) : M unit :=
  dispatch {| a_type := ELEMENT_UPDATED; a_serviceName := serviceName;
              a_service := service; a_searchLocationName := searchLocationName;
              a_searchLocation := searchLocation; a_elements := elements |}.

(** [complexSignoutElement], lines 306-403. *)
Definition complexSignoutElement
    (service : Service) (searchLocation : ElementSearchLocation)
    (serviceName : EndevorServiceName) (searchLocationName : ElementLocationName)
    (element : Element) (signoutChangeControlValue : ActionChangeControlValue)
  : M (OrError unit) :=
  signOut <- call isAskToSignOut (AskToSignOutElements [name element])
               (askToSignOutElements env) ;;
  if negb (signOutElements signOut) && negb (automaticSignOut signOut) then
    ret (Err (newError
      ("Unable to upload the element " ++ name element
         ++ " because it is signed out to somebody else")))
  else
    (if automaticSignOut signOut then emit TurnOnAutomaticSignOut else ret tt) ;;;
    signOutResult <-
      call isSignOut (SignOutElement service element signoutChangeControlValue)
        (signOutElement env) ;;
    if isSignoutError signOutResult then
      overrideSignout <-
        call isAskToOverride (AskToOverrideSignOutForElements [name element])
          (askToOverrideSignOutForElements env) ;;
      if negb overrideSignout then
        ret (Err (newError
          ("The element " ++ name element
             ++ " is signed out to somebody else, override signout action is not selected")))
      else
        overrideSignoutResult <-
          call isOverrideSignOut
            (OverrideSignOutElement service element signoutChangeControlValue)
            (overrideSignOutElement env) ;;
        match overrideSignoutResult with
        | Err _ =>
            (* [const error = signOutResult;] *)
            match signOutResult with
            | Err error =>
                ret (Err (newError
                  ("Unable to perform an override signout of the element "
                     ++ name element ++ " because of error " ++ message error)))
            | Val _ => ret (Val tt) (* unreachable: signOutResult is a SignoutError *)
            end
        | Val _ =>
            updateTreeAfterSuccessfulSignout serviceName service searchLocationName
              searchLocation [element] ;;;
            ret overrideSignoutResult
        end
    else
      match signOutResult with
      | Err error =>
          ret (Err (newError
            ("Unable to sign out the element " ++ name element
               ++ " because of error " ++ message error)))
      | Val _ =>
          updateTreeAfterSuccessfulSignout serviceName service searchLocationName
            searchLocation [element] ;;;
          ret (Val tt)
      end.

(** [saveLocalElementVersion], lines 405-428.  [!tempEditFolder] holds of
    the empty string. *)
Definition saveLocalElementVersion (elementFilePath : string) (element : Element)
    (content : string) : M (OrError Uri) :=
  let tempEditFolder := path_dirname elementFilePath in
  if String.eqb tempEditFolder "" then
    ret (Err (newError "Unable to get a valid edit folder name to compare the elements"))
  else
    call isSaveFile
      (SaveFileIntoWorkspaceFolder tempEditFolder
         (name element ++ "-local-version") (extension element) content)
      (saveFileIntoWorkspaceFolder env).

(** [uploadElement], lines 175-290.  The function calls itself after a
    successful sign-out; [fuel] bounds the depth of that recursion and
    [None] is a run that needs more. *)
Fixpoint uploadElement (fuel : nat)
    (service : Service) (searchLocation : ElementSearchLocation)
    (serviceName : EndevorServiceName) (searchLocationName : ElementLocationName)
    (element : Element) (uploadChangeControlValue : ChangeControlValue)
    (elementFilePath : string) (fingerprint : string)
  : M (option (OrError unit)) :=
  match fuel with
  | O => ret None
  | S fuel' =>
    content <- readEditedElementContent elementFilePath ;;
    match content with
    | Err error => ret (Some (Err error))
    | Val content =>
      uploadResult <-
        call isUpdate
          (UpdateElement service element uploadChangeControlValue fingerprint content)
          (updateElement env) ;;
      if isSignoutError uploadResult then
        signoutResult <-
          complexSignoutElement service searchLocation serviceName searchLocationName
            element uploadChangeControlValue ;;
        match signoutResult with
        | Err error => ret (Some (Err error))
        | Val _ =>
            uploadElement fuel' service searchLocation serviceName searchLocationName
              element uploadChangeControlValue elementFilePath fingerprint
        end
      else if isFingerprintMismatchError uploadResult then
        savedLocalElementVersionUri <-
          saveLocalElementVersion elementFilePath element content ;;
        match savedLocalElementVersionUri with
        | Err e =>
            ret (Some (Err (newError
              ("Unable to save a local version of the element " ++ name element
                 ++ " to compare because of error " ++ message e))))
        | Val savedUri =>
            showCompareDialogResult <-
              call isCompare
                (CompareElementWithRemoteVersion
                   {| cmp_service := service;
                      cmp_searchLocation := searchLocation;
                      cmp_changeControl := uploadChangeControlValue;
                      cmp_element := element;
                      cmp_serviceName := serviceName;
                      cmp_searchLocationName := searchLocationName;
                      cmp_localVersionPath := fsPath savedUri |})
                (compareElementWithRemoteVersion env) ;;
            match showCompareDialogResult with
            | Err error => ret (Some (Err error))
            | Val _ => ret (Some (Val tt))
            end
        end
      else
        ret (Some uploadResult)
    end
  end.

(** [closeEditSession], [reopenEditSession], [safeRemoveUploadedElement],
    lines 430-447. *)
Definition closeEditSession (_editedFileUri : Uri) : M unit :=
  emit CloseActiveTextEditor.

Definition reopenEditSession (editedElementUri : Uri) : M (OrError unit) :=
  call isShow (ShowElementToEdit editedElementUri) (showElementToEdit env).

Definition safeRemoveUploadedElement (editedElementUri : Uri) : M unit :=
  r <- call isDeleteFile (DeleteFile editedElementUri) (deleteFile env) ;;
  match r with
  | Val _ => ret tt
  | Err e =>
      logger_error
        ("Unable to remove the file " ++ fsPath editedElementUri ++ ".")
        (Some ("Unable to remove the file " ++ fsPath editedElementUri
                 ++ " because of error " ++ message e ++ "."))
  end.

(** [uploadElementCommand], lines 71-142.  (The [logger.trace] of lines
    87-92 parses the query of a URI that [fromEditedElementUri] has
    accepted; it is not part of the trace.) *)
Definition uploadElementCommand (fuel : nat) (elementUri : Uri) : M (option unit) :=
  match fromEditedElementUri env elementUri with
  | Err error =>
      logger_error "Unable to upload the selected element to Endevor."
        (Some ("Unable to upload the selected element to Endevor because parsing of the element's URI failed with error "
                 ++ message error ++ ".")) ;;;
      ret (Some tt)
  | Val editSessionParams =>
      let element := q_element editSessionParams in
      let searchLocation := q_searchLocation editSessionParams in
      let service := q_service editSessionParams in
      let fingerprint := q_fingerprint editSessionParams in
      let searchLocationName := q_searchLocationName editSessionParams in
      let serviceName := q_serviceName editSessionParams in
      uploadValues <- askForUploadValues searchLocation element ;;
      match uploadValues with
      | Err error =>
          logger_error (message error ++ ".") None ;;;
          ret (Some tt)
      | Val (uploadLocation, uploadChangeControlValue) =>
          closeEditSession elementUri ;;;
          uploadResult <-
            uploadElement fuel service searchLocation serviceName searchLocationName
              (withExtension uploadLocation (extension element))
              uploadChangeControlValue (fsPath elementUri) fingerprint ;;
          match uploadResult with
          | None => ret None
          | Some (Err error) =>
              logger_error
                ("Unable to upload the element " ++ name element ++ " to Endevor.")
                (Some (message error ++ ".")) ;;;
              _reopenResult <- reopenEditSession elementUri ;;
              ret (Some tt)
          | Some (Val _) =>
              safeRemoveUploadedElement elementUri ;;;
              updateTreeAfterSuccessfulUpload serviceName service searchLocationName
                searchLocation [element] ;;;
              ret (Some tt)
          end
      end
  end.

End UploadElement.

(* ================================================================== *)
(** ** The multi-element edit command ([editMultipleElements]) *)
(* ================================================================== *)

(** [TreeElementUriQuery] of [_doc/Uri.ts]. *)
Record TreeElementUriQuery := {
  tq_serviceName : EndevorServiceName;
  tq_searchLocationName : ElementLocationName;
  tq_service : Service;
  tq_element : Element;
  tq_searchLocation : ElementSearchLocation
}.

Record ElementWithFingerprint := {
  ewf_content : string;
  ewf_fingerprint : Value
}.

(** An entry of the command's argument: [{ name, uri }]. *)
Record TreeNode := {
  node_name : string;
  node_uri : Uri
}.

(** The outside world of the edit command.  The batch runs its tasks
    through a promise pool, so the answers are attached to the position
    of the element in the batch, not to the order of the calls. *)
Record EditEnv := {
  getWorkspaceUri : option Uri;
  fromTreeElementUri : Uri -> OrError TreeElementUriQuery;
  retrieveElementWithFingerprint : nat -> OrError ElementWithFingerprint;
  saveIntoEditFolder : nat -> OrError Uri;
  withUploadOptions : nat -> option Uri;
  showElementToEditAt : nat -> OrError unit
}.

(** The tasks of a batch, run one after the other.  This is
    [Promise.all] over an [Array.prototype.map] and, by the contract of
    the scheduler (section 4.1 of the specification), the promise pool of
    the [promise-pool-tool] library for tasks that never reject: every
    task runs, and its result stands at the index of the task. *)
Fixpoint mapM {A B} (f : A -> M B) (l : list A) : M (list B) :=
  match l with
  | [] => ret []
  | a :: l' =>
      b <- f a ;;
      bs <- mapM f l' ;;
      ret (b :: bs)
  end.

(** The entries of an array with their indices. *)
Definition indexed {A} (l : list A) : list (nat * A) :=
  combine (seq 0 (length l)) l.

Definition newline : string := String (ascii_of_nat 10) EmptyString.

Section EditMultipleElements.

Variable env : EditEnv.

(** lines 176-185 *)
Definition elementUris (elements : list TreeNode) : list (OrError TreeElementUriQuery) :=
  map (fun element =>
         match fromTreeElementUri env (node_uri element) with
         | Err error =>
             Err (newError
               ("Unable to edit the element " ++ node_name element
                  ++ " because of an error " ++ message error))
         | Val elementsUploadOptions => Val elementsUploadOptions
         end)
      elements.

(** lines 187-205: the pool's tasks; a task never rejects, so the pool
    yields every task's result at the task's index. *)
Definition retrieveTask (task : nat * OrError TreeElementUriQuery)
  : M (OrError ElementWithFingerprint) :=
  let (index, element) := task in
  match element with
  | Err error => ret (Err error)
  | Val element =>
      call (fun _ => false)
        (RetrieveElementWithFingerprint (tq_service element) (tq_element element))
        (fun _ => retrieveElementWithFingerprint env index)
  end.

(** lines 206-227 *)
Definition retrieveResult (elementUri : OrError TreeElementUriQuery)
    (retrievedContent : OrError ElementWithFingerprint)
  : OrError (TreeElementUriQuery * ElementWithFingerprint) :=
  match elementUri with
  | Err error => Err error
  | Val element =>
      match retrievedContent with
      | Err error => Err error
      | Val content => Val (element, content)
      end
  end.

(** lines 228-255; [None] is the [undefined] of [withUploadOptions]. *)
Definition saveTask (workspaceUri : Uri)
    (task : nat * OrError (TreeElementUriQuery * ElementWithFingerprint))
  : M (OrError (option Uri)) :=
  let (index, result) := task in
  match result with
  | Err error => ret (Err error)
  | Val (element, content) =>
      saveResult <-
        call (fun _ => false)
          (SaveIntoEditFolder workspaceUri (tq_serviceName element)
             (tq_searchLocationName element) (tq_element element) (ewf_content content))
          (fun _ => saveIntoEditFolder env index) ;;
      match saveResult with
      | Err error => ret (Err error)
      | Val _ => ret (Val (withUploadOptions env index))
      end
  end.

(** lines 258-283; the result of a task is [void], an [Error] or the
    [undefined] handed through from [withUploadOptions]. *)
Definition showTask (task : nat * OrError (option Uri)) : M (OrError unit) :=
  let (index, saveResult) := task in
  match saveResult with
  | Val (Some savedElementUri) =>
      call (fun _ => false) (ShowElementToEdit savedElementUri)
        (fun _ => showElementToEditAt env index)
  | Val None => ret (Val tt)
  | Err error => ret (Err error)
  end.

(** The three phases, lines 176-283. *)
Definition editPhases (workspaceUri : Uri) (elements : list TreeNode)
  : M (list (OrError unit)) :=
  let elementUris := elementUris elements in
  retrievedContents <- mapM retrieveTask (indexed elementUris) ;;
  let retrieveResults :=
    map (fun p => retrieveResult (fst p) (snd p)) (combine elementUris retrievedContents) in
  saveResults <- mapM (saveTask workspaceUri) (indexed retrieveResults) ;;
  mapM showTask (indexed saveResults).

(** lines 284-293 *)
Definition overallErrors (showResults : list (OrError unit)) : list Error :=
  flat_map (fun value => match value with Err e => [e] | Val _ => [] end) showResults.

(** lines 294-303 *)
Definition reportErrors (elements : list TreeNode) (overallErrors : list Error) : M unit :=
  match overallErrors with
  | [] => ret tt
  | _ :: _ =>
      let elementNames := String.concat ", " (map node_name elements) in
      logger_error
        ("There were some issues during editing of the elements " ++ elementNames ++ ".")
        (Some ("There were some issues during editing of the elements " ++ elementNames
                 ++ ": "
                 ++ String.concat newline ("" :: map message overallErrors)
                 ++ "."))
  end.

(** [editMultipleElements], lines 138-304. *)
Definition editMultipleElements (elements : list TreeNode) : M unit :=
  match getWorkspaceUri env with
  | None =>
      logger_error
        ("At least one workspace in this project should be opened to edit elements" ++ ".")
        None
  | Some workspaceUri =>
      showResults <- editPhases workspaceUri elements ;;
      reportErrors elements (overallErrors showResults)
  end.

(** [editSingleElement], lines 36-135.  The command handles one element;
    the answers are those the environment gives for position 0. *)
Definition editSingleElement (element : TreeNode) : M unit :=
  match getWorkspaceUri env with
  | None =>
      logger_error
        ("At least one workspace in this project should be opened to edit elements" ++ ".")
        None
  | Some workspaceUri =>
      match fromTreeElementUri env (node_uri element) with
      | Err error =>
          logger_error
            ("Unable to edit the element " ++ node_name element ++ ".")
            (Some ("Unable to edit the element " ++ node_name element
                     ++ " because of error " ++ message error ++ "."))
      | Val elementUri =>
          retrieveResult <-
            call (fun _ => false)
              (RetrieveElementWithFingerprint (tq_service elementUri) (tq_element elementUri))
              (fun _ => retrieveElementWithFingerprint env 0) ;;
          match retrieveResult with
          | Err error =>
              logger_error
                ("Unable to retrieve the element " ++ node_name element ++ ".")
                (Some (message error ++ "."))
          | Val retrieveResult =>
              saveResult <-
                call (fun _ => false)
                  (SaveIntoEditFolder workspaceUri (tq_serviceName elementUri)
                     (tq_searchLocationName elementUri) (tq_element elementUri)
                     (ewf_content retrieveResult))
                  (fun _ => saveIntoEditFolder env 0) ;;
              match saveResult with
              | Err error =>
                  logger_error
                    ("Unable to save the element " ++ node_name element
                       ++ " into the file system.")
                    (Some (message error ++ "."))
              | Val _ =>
                  match withUploadOptions env 0 with
                  | None => ret tt
                  | Some uploadableElementUri =>
                      showResult <-
                        call (fun _ => false) (ShowElementToEdit uploadableElementUri)
                          (fun _ => showElementToEditAt env 0) ;;
                      match showResult with
                      | Err error =>
                          logger_error
                            ("Unable to open the element " ++ node_name element
                               ++ " for editing.")
                            (Some (message error ++ "."))
                      | Val _ => ret tt
                      end
                  end
              end
          end
      end
  end.

(** What the specification asks of one element of the batch, written
    over the answers given for that element alone: its URI is parsed, it
    is retrieved, saved, given its upload options and shown, and the
    first of these steps that fails is the element's error. *)
Definition isolatedOutcome (task : nat * TreeNode) : OrError unit :=
  let (index, element) := task in
  match fromTreeElementUri env (node_uri element) with
  | Err error =>
      Err (newError
        ("Unable to edit the element " ++ node_name element
           ++ " because of an error " ++ message error))
  | Val _ =>
      match retrieveElementWithFingerprint env index with
      | Err error => Err error
      | Val _ =>
          match saveIntoEditFolder env index with
          | Err error => Err error
          | Val _ =>
              match withUploadOptions env index with
              | Some _ => showElementToEditAt env index
              | None => Val tt
              end
          end
      end
  end.

End EditMultipleElements.


(* ================================================================== *)
(** ** JavaScript built-ins used by the URI codec

    A string is the sequence of the octets of its UTF-8 form; a code
    unit that is half of no surrogate pair, which only an escape of a
    JSON text can bring in, is kept as the three octets the UTF-8 scheme
    gives for its value.  A synchronous JavaScript call either returns
    or throws; the engine is taken to have the stack and the memory a
    call needs. *)
(* ================================================================== *)

Inductive Thrown := URIError | SyntaxError | TypeError.

Inductive Completion (A : Type) :=
| Returns (a : A)
| Throws (e : Thrown).
Arguments Returns {A} a.
Arguments Throws {A} e.

Definition andThen {A B} (c : Completion A) (k : A -> Completion B) : Completion B :=
  match c with
  | Returns a => k a
  | Throws e => Throws e
  end.

(** *** UTF-8 *)

Definition within (n lo hi : nat) : bool := ((lo <=? n) && (n <=? hi))%nat.

(** The ranges in which the octets after a first octet must lie for the
    sequence to be the UTF-8 form of a code point (no overlong form, no
    surrogate, nothing above U+10FFFF); [None] for an octet that starts
    no sequence. *)
Definition continuationRanges (first : nat) : option (list (nat * nat)) :=
  if (first <? 128)%nat then Some []
  else if within first 194 223 then Some [(128, 191)]
  else if (first =? 224)%nat then Some [(160, 191); (128, 191)]
  else if (first =? 237)%nat then Some [(128, 159); (128, 191)]
  else if within first 225 239 then Some [(128, 191); (128, 191)]
  else if (first =? 240)%nat then Some [(144, 191); (128, 191); (128, 191)]
  else if within first 241 243 then Some [(128, 191); (128, 191); (128, 191)]
  else if (first =? 244)%nat then Some [(128, 143); (128, 191); (128, 191)]
  else None.

(** Reading one octet of a text from left to right, where [pending]
    holds the ranges of the octets the current sequence still lacks. *)
Definition utf8Step (pending : list (nat * nat)) (octet : nat) : option (list (nat * nat)) :=
  match pending with
  | [] => continuationRanges octet
  | (lo, hi) :: pending' => if within octet lo hi then Some pending' else None
  end.

Fixpoint validFrom (pending : list (nat * nat)) (s : string) : bool :=
  match s with
  | EmptyString => match pending with [] => true | _ :: _ => false end
  | String c s' =>
      match utf8Step pending (nat_of_ascii c) with
      | Some pending' => validFrom pending' s'
      | None => false
      end
  end.

(** The string is the UTF-8 form of a sequence of code points. *)
Definition validUtf8 (s : string) : bool := validFrom [] s.

(** *** [encodeURIComponent] / [decodeURIComponent] *)

(** The hexadecimal digit of a value below 16, in upper case. *)
Definition hexDigit (n : nat) : ascii :=
  if (n <? 10)%nat then ascii_of_nat (48 + n) else ascii_of_nat (55 + n).

(** The value of a hexadecimal digit of either case. *)
Definition hexValue (c : ascii) : option nat :=
  let n := nat_of_ascii c in
  if ((48 <=? n) && (n <=? 57))%nat then Some (n - 48)
  else if ((65 <=? n) && (n <=? 70))%nat then Some (n - 55)
  else if ((97 <=? n) && (n <=? 102))%nat then Some (n - 87)
  else None.

Definition isAlphaNum (c : ascii) : bool :=
  let n := nat_of_ascii c in
  (((48 <=? n) && (n <=? 57)) || ((65 <=? n) && (n <=? 90))
   || ((97 <=? n) && (n <=? 122)))%nat.

(** The characters [encodeURIComponent] leaves alone: A-Z a-z 0-9 - _ . ! ~ * ' ( ) *)
Definition isUriUnreserved (c : ascii) : bool :=
  isAlphaNum c
  || existsb (Ascii.eqb c) ["-"; "_"; "."; "!"; "~"; "*"; "'"; "("; ")"]%char.

Definition encodeChar (c : ascii) : string :=
  if isUriUnreserved c then String c EmptyString
  else
    let n := nat_of_ascii c in
    String "%" (String (hexDigit (n / 16)) (String (hexDigit (n mod 16)) EmptyString)).

Fixpoint encodeURIComponent (s : string) : string :=
  match s with
  | EmptyString => EmptyString
  | String c s' => encodeChar c ++ encodeURIComponent s'
  end.

(** [None] is the [URIError] thrown at a percent sign that is not
    followed by two hexadecimal digits, at an escaped octet that cannot
    stand where it is in a UTF-8 sequence, at an unescaped character
    inside such a sequence and at a sequence left unfinished.  A
    character that is not escaped is kept as it is. *)
Fixpoint percentDecode (pending : list (nat * nat)) (s : string) : option string :=
  match s with
  | EmptyString => match pending with [] => Some EmptyString | _ :: _ => None end
  | String c rest =>
      if Ascii.eqb c "%" then
        match rest with
        | String h (String l rest') =>
            match hexValue h, hexValue l with
            | Some a, Some b =>
                match utf8Step pending (16 * a + b) with
                | Some pending' =>
                    option_map (String (ascii_of_nat (16 * a + b)))
                      (percentDecode pending' rest')
                | None => None
                end
            | _, _ => None
            end
        | _ => None
        end
      else
        match pending with
        | [] => option_map (String c) (percentDecode [] rest)
        | _ :: _ => None
        end
  end.

Definition decodeURIComponent (s : string) : Completion string :=
  match percentDecode [] s with
  | Some d => Returns d
  | None => Throws URIError
  end.

(** *** JSON values, [JSON.stringify] and [JSON.parse]

    An object is the list of its own properties in the order JavaScript
    enumerates them.  A number is known as an integer or by its text:
    [JNumber n] is the integer [n], which a JavaScript number holds
    exactly up to [MAX_SAFE_INTEGER]; [JDouble shown] is the number for
    which [Number.prototype.toString] gives the text [shown].  The
    parser reads the plain decimal of a safe integer as a [JNumber] and
    every other literal as a [JDouble], also one that denotes an
    integer, as 1.0 does: what the codec does with a number, which is to
    print it, does not tell the two forms apart. *)
Inductive JsValue :=
| JNull
| JBool (b : bool)
| JNumber (n : Z)
| JDouble (shown : string)
| JString (s : string)
| JArray (l : list JsValue)
| JObject (l : list (string * JsValue)).

(** The largest integer a JavaScript number holds exactly,
    [Number.MAX_SAFE_INTEGER]. *)
Definition MAX_SAFE_INTEGER : Z := 9007199254740991.

Definition dquote : ascii := ascii_of_nat 34.
Definition backslash : ascii := ascii_of_nat 92.

Definition printInt (n : Z) : string :=
  DecimalString.NilZero.string_of_int (Z.to_int n).

(** The hexadecimal digit of a value below 16, in lower case. *)
Definition hexDigitLower (n : nat) : ascii :=
  if (n <? 10)%nat then ascii_of_nat (48 + n) else ascii_of_nat (87 + n).

(** [QuoteJSONString]: the escapes [JSON.stringify] writes. *)
Definition escapeChar (c : ascii) : string :=
  let n := nat_of_ascii c in
  if Ascii.eqb c dquote then String backslash (String dquote EmptyString)
  else if Ascii.eqb c backslash then String backslash (String backslash EmptyString)
  else if (n =? 8)%nat then String backslash "b"
  else if (n =? 12)%nat then String backslash "f"
  else if (n =? 10)%nat then String backslash "n"
  else if (n =? 13)%nat then String backslash "r"
  else if (n =? 9)%nat then String backslash "t"
  else if (n <? 32)%nat then
    String backslash
      (String "u" (String "0" (String "0"
         (String (hexDigitLower (n / 16)) (String (hexDigitLower (n mod 16)) EmptyString)))))
  else String c EmptyString.

Fixpoint escapeString (s : string) : string :=
  match s with
  | EmptyString => EmptyString
  | String c s' => escapeChar c ++ escapeString s'
  end.

Definition quoteJSONString (s : string) : string :=
  String dquote (escapeString s ++ String dquote EmptyString).

(** [JSON.stringify(value)] without indentation, for values whose
    strings are well-formed text.  A number that is not finite is
    written as [null]. *)
Fixpoint JSON_stringify (v : JsValue) : string :=
  match v with
  | JNull => "null"
  | JBool true => "true"
  | JBool false => "false"
  | JNumber n => printInt n
  | JDouble shown =>
      if String.eqb shown "Infinity" || String.eqb shown "-Infinity" || String.eqb shown "NaN"
      then "null" else shown
  | JString s => quoteJSONString s
  | JArray l => "[" ++ String.concat "," (map JSON_stringify l) ++ "]"
  | JObject l =>
      "{" ++ String.concat ","
               (map (fun kv => quoteJSONString (fst kv) ++ ":" ++ JSON_stringify (snd kv)) l)
          ++ "}"
  end.

Definition isJsonWhitespace (c : ascii) : bool :=
  let n := nat_of_ascii c in
  ((n =? 32) || (n =? 9) || (n =? 10) || (n =? 13))%nat.

Fixpoint skipWhitespace (s : string) : string :=
  match s with
  | String c s' => if isJsonWhitespace c then skipWhitespace s' else s
  | EmptyString => EmptyString
  end.

(** The octets of a code unit written as [\uXXXX]. *)
Definition utf8OfCodeUnit (n : nat) : string :=
  if (n <? 128)%nat then String (ascii_of_nat n) EmptyString
  else if (n <? 2048)%nat then
    String (ascii_of_nat (192 + n / 64)) (String (ascii_of_nat (128 + n mod 64)) EmptyString)
  else
    String (ascii_of_nat (224 + n / 4096))
      (String (ascii_of_nat (128 + (n / 64) mod 64))
         (String (ascii_of_nat (128 + n mod 64)) EmptyString)).

(** The octets of the code point of a surrogate pair, from the second
    and third octets of its two halves. *)
Definition utf8OfSurrogatePair (h2 h3 l2 l3 : ascii) : string :=
  let high := ((N_of_ascii h2 - 160) * 64 + (N_of_ascii h3 - 128))%N in
  let low := ((N_of_ascii l2 - 176) * 64 + (N_of_ascii l3 - 128))%N in
  let point := (65536 + high * 1024 + low)%N in
  String (ascii_of_N (240 + point / 262144))
    (String (ascii_of_N (128 + (point / 4096) mod 64))
       (String (ascii_of_N (128 + (point / 64) mod 64))
          (String (ascii_of_N (128 + point mod 64)) EmptyString))).

Definition isHighSurrogate (c1 c2 c3 : ascii) : bool :=
  (nat_of_ascii c1 =? 237)%nat && within (nat_of_ascii c2) 160 175
  && within (nat_of_ascii c3) 128 191.

Definition isLowSurrogate (c1 c2 c3 : ascii) : bool :=
  (nat_of_ascii c1 =? 237)%nat && within (nat_of_ascii c2) 176 191
  && within (nat_of_ascii c3) 128 191.

(** A high surrogate followed by a low one is one character: the two
    halves, which escapes write apart, are put together. *)
Fixpoint joinSurrogates (s : string) : string :=
  match s with
  | EmptyString => EmptyString
  | String c1 s1 =>
      match s1 with
      | String c2 (String c3 (String c4 (String c5 (String c6 rest)))) =>
          if isHighSurrogate c1 c2 c3 && isLowSurrogate c4 c5 c6
          then utf8OfSurrogatePair c2 c3 c5 c6 ++ joinSurrogates rest
          else String c1 (joinSurrogates s1)
      | _ => String c1 (joinSurrogates s1)
      end
  end.

Definition simpleEscape (c : ascii) : option ascii :=
  if Ascii.eqb c dquote then Some dquote
  else if Ascii.eqb c backslash then Some backslash
  else
    match c with
    | "/" => Some "/"
    | "b" => Some (ascii_of_nat 8)
    | "f" => Some (ascii_of_nat 12)
    | "n" => Some (ascii_of_nat 10)
    | "r" => Some (ascii_of_nat 13)
    | "t" => Some (ascii_of_nat 9)
    | _ => None
    end%char.

Definition prepend (p : string) (r : option (string * string)) : option (string * string) :=
  match r with
  | Some (s, rest) => Some (p ++ s, rest)
  | None => None
  end.

(** The characters of a string literal after its opening quote, and
    what follows its closing quote. *)
Fixpoint parseChars (s : string) : option (string * string) :=
  match s with
  | EmptyString => None
  | String c rest =>
      if Ascii.eqb c dquote then Some (EmptyString, rest)
      else if Ascii.eqb c backslash then
        match rest with
        | String e rest' =>
            match simpleEscape e with
            | Some b => prepend (String b EmptyString) (parseChars rest')
            | None =>
                if Ascii.eqb e "u" then
                  match rest' with
                  | String h1 (String h2 (String h3 (String h4 rest''))) =>
                      match hexValue h1, hexValue h2, hexValue h3, hexValue h4 with
                      | Some a, Some b, Some c', Some d =>
                          prepend (utf8OfCodeUnit (((a * 16 + b) * 16 + c') * 16 + d))
                            (parseChars rest'')
                      | _, _, _, _ => None
                      end
                  | _ => None
                  end
                else None
            end
        | EmptyString => None
        end
      else if (nat_of_ascii c <? 32)%nat then None
      else prepend (String c EmptyString) (parseChars rest)
  end.

(** A string literal after its opening quote: the string it denotes. *)
Definition parseString (s : string) : option (string * string) :=
  match parseChars s with
  | Some (chars, rest) => Some (joinSurrogates chars, rest)
  | None => None
  end.

Definition isDigit (c : ascii) : bool := within (nat_of_ascii c) 48 57.

(** The characters a number literal may start with. *)
Definition isIntChar (c : ascii) : bool :=
  let n := nat_of_ascii c in
  (((48 <=? n) && (n <=? 57)) || (n =? 45))%nat.

(** The longest prefix of digits, and the rest. *)
Fixpoint spanDigits (s : string) : string * string :=
  match s with
  | String c s' =>
      if isDigit c then let (l, r) := spanDigits s' in (String c l, r) else (EmptyString, s)
  | EmptyString => (EmptyString, EmptyString)
  end.

(** The parts of a number literal, each with what follows it: an
    optional minus sign; the integer, which is 0 or starts with another
    digit; an optional fraction, a point and at least one digit; an
    optional exponent, e or E, an optional sign and at least one digit. *)
Definition scanSign (s : string) : string * string :=
  match s with
  | String c rest => if Ascii.eqb c "-" then ("-", rest) else (EmptyString, s)
  | EmptyString => (EmptyString, s)
  end.

Definition scanInteger (s : string) : option (string * string) :=
  match s with
  | String c rest =>
      if Ascii.eqb c "0" then Some ("0", rest)
      else if isDigit c then let (digits, rest') := spanDigits rest in Some (String c digits, rest')
      else None
  | EmptyString => None
  end.

Definition scanFraction (s : string) : option (string * string) :=
  match s with
  | String c rest =>
      if Ascii.eqb c "." then
        match spanDigits rest with
        | (EmptyString, _) => None
        | (digits, rest') => Some (String c digits, rest')
        end
      else Some (EmptyString, s)
  | EmptyString => Some (EmptyString, s)
  end.

Definition scanExponent (s : string) : option (string * string) :=
  match s with
  | String c rest =>
      if Ascii.eqb c "e" || Ascii.eqb c "E" then
        let (sign, rest1) :=
          match rest with
          | String c' rest' =>
              if Ascii.eqb c' "+" || Ascii.eqb c' "-" then (String c' EmptyString, rest')
              else (EmptyString, rest)
          | EmptyString => (EmptyString, rest)
          end in
        match spanDigits rest1 with
        | (EmptyString, _) => None
        | (digits, rest2) => Some (String c (sign ++ digits), rest2)
        end
      else Some (EmptyString, s)
  | EmptyString => Some (EmptyString, s)
  end.

(** The number literal at the head of [s], and what follows it. *)
Definition scanNumber (s : string) : option (string * string) :=
  let (sign, s1) := scanSign s in
  match scanInteger s1 with
  | Some (integer, s2) =>
      match scanFraction s2 with
      | Some (fraction, s3) =>
          match scanExponent s3 with
          | Some (exponent, s4) => Some (sign ++ integer ++ fraction ++ exponent, s4)
          | None => None
          end
      | None => None
      end
  | None => None
  end.

(** The integer a literal without fraction and exponent denotes, when a
    JavaScript number holds it exactly; [-0] is not the integer 0. *)
Definition safeInteger (lexeme : string) : option Z :=
  match NilZero.int_of_string lexeme with
  | Some d =>
      if (Z.abs (Z.of_int d) <=? MAX_SAFE_INTEGER)%Z && negb (String.eqb lexeme "-0")
      then Some (Z.of_int d) else None
  | None => None
  end.

(** What follows the prefix [p] in [s], if [s] starts with it. *)
Fixpoint hasPrefix (p s : string) : option string :=
  match p, s with
  | EmptyString, _ => Some s
  | String a p', String b s' => if Ascii.eqb a b then hasPrefix p' s' else None
  | String _ _, EmptyString => None
  end.

Fixpoint allDigits (s : string) : bool :=
  match s with
  | EmptyString => true
  | String c s' =>
      ((48 <=? nat_of_ascii c) && (nat_of_ascii c <=? 57))%nat && allDigits s'
  end.

(** A property name written in digits only. *)
Definition isNumericKey (k : string) : bool :=
  negb (String.eqb k EmptyString) && allDigits k.

(** The array index a property name writes, if it writes one: the
    decimal form, without leading zeros, of an integer below 2^32 - 1. *)
Definition arrayIndex (k : string) : option N :=
  if isNumericKey k then
    match NilEmpty.uint_of_string k with
    | Some d =>
        let n := N.of_uint d in
        if String.eqb (NilZero.string_of_uint (N.to_uint n)) k && (n <? 4294967295)%N
        then Some n else None
    | None => None
    end
  else None.

(** A new property named by the array index [n] is enumerated after the
    indices below [n] and before every other property. *)
Fixpoint insertIndexed (n : N) (k : string) (v : JsValue) (l : list (string * JsValue))
  : list (string * JsValue) :=
  match l with
  | [] => [(k, v)]
  | (k', v') :: l' =>
      match arrayIndex k' with
      | Some n' => if (n' <? n)%N then (k', v') :: insertIndexed n k v l' else (k, v) :: l
      | None => (k, v) :: l
      end
  end.

Fixpoint replaceProperty (k : string) (v : JsValue) (l : list (string * JsValue))
  : list (string * JsValue) :=
  match l with
  | [] => []
  | (k', v') :: l' =>
      if String.eqb k k' then (k, v) :: l' else (k', v') :: replaceProperty k v l'
  end.

(** Defining a property: the value of a present name is replaced where
    it stands; an absent name is enumerated among the array indices, in
    ascending order, if it is one, and after all properties otherwise. *)
Definition setProperty (k : string) (v : JsValue) (l : list (string * JsValue))
  : list (string * JsValue) :=
  if existsb (String.eqb k) (map fst l) then replaceProperty k v l
  else
    match arrayIndex k with
    | Some n => insertIndexed n k v l
    | None => l ++ [(k, v)]
    end.

(** What follows the character [c] at the head of [s]. *)
Definition startsWith (c : ascii) (s : string) : option string :=
  match s with
  | String c' rest => if Ascii.eqb c' c then Some rest else None
  | EmptyString => None
  end.

Section Parser.

(** The text [Number.prototype.toString] gives for the number that a
    number literal denotes: the nearest double, written with the fewest
    digits that tell it from its neighbours.  It is a parameter of the
    parser, which uses it for the literals that are not the plain
    decimal of a safe integer. *)
Variable numberText : string -> string.

Definition readNumber (lexeme : string) : JsValue :=
  match safeInteger lexeme with
  | Some n => JNumber n
  | None => JDouble (numberText lexeme)
  end.

(** Recursive descent over the JSON grammar; [fuel] bounds the number of
    nested calls, and every call consumes a character. *)
Fixpoint parseValue (fuel : nat) (s : string) : option (JsValue * string) :=
  match fuel with
  | O => None
  | S fuel' =>
      match skipWhitespace s with
      | EmptyString => None
      | String c rest =>
          if Ascii.eqb c dquote then
            match parseString rest with
            | Some (str, rest') => Some (JString str, rest')
            | None => None
            end
          else if Ascii.eqb c "[" then
            match startsWith "]" (skipWhitespace rest) with
            | Some rest' => Some (JArray [], rest')
            | None => parseElements fuel' rest []
            end
          else if Ascii.eqb c "{" then
            match startsWith "}" (skipWhitespace rest) with
            | Some rest' => Some (JObject [], rest')
            | None => parseMembers fuel' rest []
            end
          else if isIntChar c then
            match scanNumber (String c rest) with
            | Some (lexeme, rest') => Some (readNumber lexeme, rest')
            | None => None
            end
          else
            match hasPrefix "null" (String c rest),
                  hasPrefix "true" (String c rest),
                  hasPrefix "false" (String c rest) with
            | Some rest', _, _ => Some (JNull, rest')
            | _, Some rest', _ => Some (JBool true, rest')
            | _, _, Some rest' => Some (JBool false, rest')
            | _, _, _ => None
            end
      end
  end
with parseElements (fuel : nat) (s : string) (acc : list JsValue)
  : option (JsValue * string) :=
  match fuel with
  | O => None
  | S fuel' =>
      match parseValue fuel' s with
      | Some (v, rest) =>
          match startsWith "," (skipWhitespace rest),
                startsWith "]" (skipWhitespace rest) with
          | Some rest', _ => parseElements fuel' rest' (acc ++ [v])
          | _, Some rest' => Some (JArray (acc ++ [v]), rest')
          | _, _ => None
          end
      | None => None
      end
  end
with parseMembers (fuel : nat) (s : string) (acc : list (string * JsValue))
  : option (JsValue * string) :=
  match fuel with
  | O => None
  | S fuel' =>
      match startsWith dquote (skipWhitespace s) with
      | Some rest =>
          match parseString rest with
          | Some (key, rest1) =>
              match startsWith ":" (skipWhitespace rest1) with
              | Some rest2 =>
                  match parseValue fuel' rest2 with
                  | Some (v, rest3) =>
                      match startsWith "," (skipWhitespace rest3),
                            startsWith "}" (skipWhitespace rest3) with
                      | Some rest4, _ => parseMembers fuel' rest4 (setProperty key v acc)
                      | _, Some rest4 => Some (JObject (setProperty key v acc), rest4)
                      | _, _ => None
                      end
                  | None => None
                  end
              | None => None
              end
          | None => None
          end
      | None => None
      end
  end.

(** [JSON.parse(text)]; [None] is the [SyntaxError] it throws. *)
Definition JSON_parse (text : string) : option JsValue :=
  match parseValue (S (String.length text)) text with
  | Some (v, rest) =>
      match skipWhitespace rest with
      | EmptyString => Some v
      | _ => None
      end
  | None => None
  end.

End Parser.

Fixpoint distinct (keys : list string) : bool :=
  match keys with
  | [] => true
  | k :: keys' => negb (existsb (String.eqb k) keys') && distinct keys'
  end.

(** The property names stand in the order of enumeration: the array
    indices in ascending order, then the other names. *)
Fixpoint enumerated (keys : list string) : bool :=
  match keys with
  | [] => true
  | k :: keys' =>
      match arrayIndex k with
      | Some n =>
          forallb (fun k' => match arrayIndex k' with
                             | Some n' => (n <? n')%N
                             | None => true
                             end) keys'
      | None =>
          forallb (fun k' => match arrayIndex k' with Some _ => false | None => true end) keys'
      end
      && enumerated keys'
  end.

(** The values that stand for a JavaScript value whose numbers are safe
    integers and whose strings are well-formed text: the properties of
    an object have distinct names and are listed as they are enumerated. *)
Fixpoint wellFormed (v : JsValue) : bool :=
  match v with
  | JNumber n => (Z.abs n <=? MAX_SAFE_INTEGER)%Z
  | JDouble _ => false
  | JString s => validUtf8 s
  | JArray l => forallb wellFormed l
  | JObject l =>
      forallb validUtf8 (map fst l)
      && enumerated (map fst l)
      && distinct (map fst l)
      && forallb (fun kv => wellFormed (snd kv)) l
  | _ => true
  end.

(** Reading a property.  Reading from [null] throws; a property the
    value does not have reads as [undefined] ([None]): no parsed value
    inherits a property named by one of the names read here. *)
Fixpoint lookupProperty (k : string) (l : list (string * JsValue)) : option JsValue :=
  match l with
  | [] => None
  | (k', v) :: l' => if String.eqb k k' then Some v else lookupProperty k l'
  end.

Definition getProperty (v : JsValue) (k : string) : Completion (option JsValue) :=
  match v with
  | JNull => Throws TypeError
  | JObject l => Returns (lookupProperty k l)
  | _ => Returns None
  end.

Definition hasOwnProperty (k : string) (l : list (string * JsValue)) : bool :=
  existsb (fun kv => String.eqb k (fst kv)) l.

(** The string a value contributes to a template literal.  An array
    joins the strings of its elements, with nothing for [null]; an
    object is converted by the [toString] it inherits, which is tried
    before [valueOf], unless it has a property of that name, which in a
    parsed value is no function: the conversion then finds no method
    that returns a primitive value, and throws. *)
Fixpoint toStringJs (v : JsValue) : Completion string :=
  match v with
  | JNull => Returns "null"
  | JBool true => Returns "true"
  | JBool false => Returns "false"
  | JNumber n => Returns (printInt n)
  | JDouble shown => Returns shown
  | JString s => Returns s
  | JArray l =>
      andThen
        ((fix elements (l : list JsValue) : Completion (list string) :=
            match l with
            | [] => Returns []
            | e :: l' =>
                andThen (match e with JNull => Returns EmptyString | _ => toStringJs e end)
                  (fun text => andThen (elements l') (fun texts => Returns (text :: texts)))
            end) l)
        (fun texts => Returns (String.concat "," texts))
  | JObject l =>
      if hasOwnProperty "toString" l then Throws TypeError else Returns "[object Object]"
  end.

Definition templateValue (v : option JsValue) : Completion string :=
  match v with
  | None => Returns "undefined"
  | Some v => toStringJs v
  end.

(** [value === text] for a string [text]. *)
Definition strictEqualsString (v : option JsValue) (text : string) : bool :=
  match v with
  | Some (JString s) => String.eqb s text
  | _ => false
  end.

(** *** [vscode.Uri]: [Uri.parse('').with({ scheme, path, query })] *)

Definition referenceResolution (p : string) : string :=
  match p with
  | EmptyString => "/"
  | String c _ => if Ascii.eqb c "/" then p else String "/" p
  end.

Definition doubleSlashMessage : string :=
  "[UriError]: If a URI does not contain an authority component, then the path cannot begin with two slash characters ("
    ++ String dquote ("//" ++ String dquote ")").

(** The URI [emptyUri.with] builds for the scheme [file], or the error
    its validation throws. *)
Definition Uri_with_file (p q : string) : OrError Uri :=
  let p' := referenceResolution p in
  if String.prefix "//" p' then Err (newError doubleSlashMessage)
  else Val {| scheme := "file"; authority := EmptyString; path := p';
              query := q; fragment := EmptyString |}.

(* ================================================================== *)
(** ** [uri/comparedElementUri.ts] *)
(* ================================================================== *)

Module Schemas.
Definition TREE_ELEMENT : string := "e4eElement".
Definition ELEMENT_LISTING : string := "e4eListing".
Definition FILE : string := "file".
Definition READ_ONLY_FILE : string := "e4eReadonlyFile".
End Schemas.

Module QueryTypes.
Definition EDITED_ELEMENT : string := "edited-element".
Definition COMPARED_ELEMENT : string := "compared-element".
End QueryTypes.

(** The properties of an object literal that [JSON.stringify] writes:
    those whose value is not [undefined]. *)
Fixpoint definedProperties (l : list (string * option JsValue)) : list (string * JsValue) :=
  match l with
  | [] => []
  | (k, Some v) :: l' => (k, v) :: definedProperties l'
  | (_, None) :: l' => definedProperties l'
  end.

(** The names destructured from the [ComparedElementUriQuery], in the
    order the [SerializedValue] literal lists them (lines 35-45). *)
Definition serializedKeys : list string :=
  ["service"; "serviceName"; "element"; "fingerprint"; "searchLocation";
   "searchLocationName"; "remoteVersionTempFilePath"; "uploadChangeControlValue"].

Definition serializedValue (properties : list (string * JsValue)) : JsValue :=
  JObject
    (("type", JString QueryTypes.COMPARED_ELEMENT)
       :: definedProperties
            (map (fun k => (k, lookupProperty k properties)) serializedKeys)).

(** [toComparedElementUri], lines 21-54.  The parameter is destructured
    before the [try] block is entered. *)
Definition toComparedElementUri (elementFileSystemPath : string) (q : JsValue)
  : Completion (OrError Uri) :=
  match q with
  | JNull => Throws TypeError
  | _ =>
      let properties := match q with JObject l => l | _ => [] end in
      let query := serializedValue properties in
      Returns (Uri_with_file elementFileSystemPath
                 (encodeURIComponent (JSON_stringify query)))
  end.

Record UriValidationResult := {
  valid : bool;
  validationMessage : option string
}.

(** [new Error(message)] with a message that may be [undefined]. *)
Definition newErrorOf (msg : option string) : Error :=
  newError match msg with Some m => m | None => EmptyString end.


Section Decoder.

(** The text of the numbers of the query, as in [JSON_parse]. *)
Variable numberText : string -> string.

(** [isComparedElementUri], lines 56-91.  The query is decoded, the
    type is read and the message of a wrong type is built outside the
    [try] block. *)
Definition isComparedElementUri (uri : Uri) : Completion UriValidationResult :=
  let expectedScheme := Schemas.FILE in
  let expectedType := QueryTypes.COMPARED_ELEMENT in
  let actualScheme := scheme uri in
  if String.eqb actualScheme expectedScheme then
    andThen (decodeURIComponent (query uri)) (fun decodedQuery =>
    match JSON_parse numberText decodedQuery with
    | None =>
        Returns
          {| valid := false;
             validationMessage :=
               Some ("Uri has no valid query for compared elements to parse: "
                       ++ decodedQuery) |}
    | Some parsedQuery =>
        andThen (getProperty parsedQuery "type") (fun actualType =>
        if strictEqualsString actualType expectedType then
          Returns {| valid := true; validationMessage := None |}
        else
          andThen (templateValue actualType) (fun shownType =>
          Returns
            {| valid := false;
               validationMessage :=
                 Some ("Uri query type is incorrect for compared elements: "
                         ++ shownType ++ ", but should be: "
                         ++ expectedType) |}))
    end)
  else
    Returns
      {| valid := false;
         validationMessage :=
           Some ("Uri scheme is incorrect for compared elements: " ++ actualScheme
                   ++ ", but should be: " ++ expectedScheme) |}.

(** [fromComparedElementUri], lines 93-101. *)
Definition fromComparedElementUri (uri : Uri) : Completion (OrError JsValue) :=
  andThen (isComparedElementUri uri) (fun uriValidationResult =>
  if valid uriValidationResult then
    andThen (decodeURIComponent (query uri)) (fun decoded =>
    match JSON_parse numberText decoded with
    | Some parsed => Returns (Val parsed)
    | None => Throws SyntaxError
    end)
  else Returns (Err (newErrorOf (validationMessage uriValidationResult)))).


End Decoder.

(** The properties of a query object. *)
Definition propertiesOf (q : JsValue) : list (string * JsValue) :=
  match q with JObject l => l | _ => [] end.

(* ================================================================== *)
(** ** Sample data: the fixtures of [__tests__/uploadElement.test.ts] *)
(* ================================================================== *)

Module Samples.

Definition serviceName : EndevorServiceName := "serviceName".

Definition service : Service :=
  {| location := {| protocol := http; port := 1234; hostname := "anything";
                    basePath := "anythingx2" |};
     credential := {| user := "test"; password := "something" |};
     rejectUnauthorized := false |}.

Definition searchLocationName : ElementLocationName := "searchLocationName".

Definition preciseSearchLocation : ElementSearchLocation :=
  {| sl_instance := "ANY-INSTANCE"; sl_environment := Some "TEST";
     sl_stageNumber := Some Stage1; sl_system := Some "ANY-SYS";
     sl_subsystem := Some "SUBSYS2"; sl_type := None; sl_element := None;
     sl_ccid := None; sl_comment := None |}.

Definition element : Element :=
  {| instance := "ANY"; environment := "ENV"; system := "SYS"; subSystem := "SUBSYS";
     stageNumber := Stage1; type := "TYP"; name := "ELM"; extension := "ext" |}.

Definition elementFingerprint : string := "some_value".
Definition editedElementFilePath : string := "/some/temp/element.cbl".
Definition editedElementContent : string :=
  "everybody is on hackaton, and Im sitting alone, writing tests :(".

Definition uploadChangeControlValue : ChangeControlValue :=
  {| ccid := "test"; comment := "test" |}.

(** The upload location of the in-place tests: the element itself. *)
Definition uploadLocation : ElementMapPath :=
  {| mp_instance := "ANY"; mp_environment := "ENV"; mp_stageNumber := Stage1;
     mp_system := "SYS"; mp_subSystem := "SUBSYS"; mp_type := "TYP"; mp_name := "ELM" |}.

(** The upload location of the test of a new element. *)
Definition newUploadLocation : ElementMapPath :=
  {| mp_instance := "ANY"; mp_environment := "ENV"; mp_stageNumber := Stage1;
     mp_system := "SYS"; mp_subSystem := "SUBSYS"; mp_type := "TYP"; mp_name := "NEW-ELM" |}.

Definition editedElementUri : Uri :=
  {| scheme := "file"; authority := EmptyString; path := editedElementFilePath;
     query := "edited-element"; fragment := EmptyString |}.

Definition editSessionParams : EditedElementUriQuery :=
  {| q_serviceName := serviceName; q_searchLocationName := searchLocationName;
     q_service := service; q_element := element;
     q_searchLocation := preciseSearchLocation; q_fingerprint := elementFingerprint |}.

Definition localVersionUri : Uri :=
  {| scheme := "file"; authority := EmptyString;
     path := "/some/temp/ELM-local-version.ext";
     query := EmptyString; fragment := EmptyString |}.

Definition signoutError : Error :=
  {| errorClass := SignoutError; message := "something" |}.
Definition fingerprintError : Error :=
  {| errorClass := FingerprintMismatchError; message := "something" |}.

(** A world in which every dialog is confirmed and every call succeeds,
    but for the scripted answers of [updateElement]. *)
Definition world (target : ElementMapPath) (updates : nat -> OrError unit) : Env :=
  {| fromEditedElementUri := fun _ => Val editSessionParams;
     askForUploadLocation := Some target;
     askForChangeControlValue := Some uploadChangeControlValue;
     askToSignOutElements := fun _ => {| signOutElements := true; automaticSignOut := false |};
     askToOverrideSignOutForElements := fun _ => true;
     getFileContent := fun _ => Val editedElementContent;
     saveFileIntoWorkspaceFolder := fun _ => Val localVersionUri;
     deleteFile := fun _ => Val tt;
     updateElement := updates;
     signOutElement := fun _ => Val tt;
     overrideSignOutElement := fun _ => Val tt;
     compareElementWithRemoteVersion := fun _ => Val tt;
     showElementToEdit := fun _ => Val tt |}.

(** In place, the update succeeds at once. *)
Definition inPlaceWorld : Env := world uploadLocation (fun _ => Val tt).

(** A new element name, the update succeeds at once. *)
Definition newElementWorld : Env := world newUploadLocation (fun _ => Val tt).

(** The first update meets a fingerprint mismatch. *)
Definition conflictWorld : Env :=
  world uploadLocation (fun n => match n with 0 => Err fingerprintError | _ => Val tt end).

(** A new element name, and the first update meets a fingerprint mismatch. *)
Definition renamedConflictWorld : Env :=
  world newUploadLocation (fun n => match n with 0 => Err fingerprintError | _ => Val tt end).

(** The first update meets a sign-out error, the second succeeds. *)
Definition signoutWorld : Env :=
  world uploadLocation (fun n => match n with 0 => Err signoutError | _ => Val tt end).

(** The first two updates meet a sign-out error, the third succeeds. *)
Definition contendedWorld : Env :=
  world uploadLocation
    (fun n => match n with 0 | 1 => Err signoutError | _ => Val tt end).

(** The first [k] updates meet a sign-out error. *)
Definition contendedWorldN (k : nat) : Env :=
  world uploadLocation (fun n => if (n <? k)%nat then Err signoutError else Val tt).

(** The same world with other answers of the two upload dialogs. *)
Definition withDialogs (w : Env) (target : option ElementMapPath)
    (ccv : option ChangeControlValue) : Env :=
  {| fromEditedElementUri := fromEditedElementUri w;
     askForUploadLocation := target;
     askForChangeControlValue := ccv;
     askToSignOutElements := askToSignOutElements w;
     askToOverrideSignOutForElements := askToOverrideSignOutForElements w;
     getFileContent := getFileContent w;
     saveFileIntoWorkspaceFolder := saveFileIntoWorkspaceFolder w;
     deleteFile := deleteFile w;
     updateElement := updateElement w;
     signOutElement := signOutElement w;
     overrideSignOutElement := overrideSignOutElement w;
     compareElementWithRemoteVersion := compareElementWithRemoteVersion w;
     showElementToEdit := showElementToEdit w |}.

(** The same world with other answers of the two sign-out calls. *)
Definition withSignOuts (w : Env) (signOuts overrides : nat -> OrError unit) : Env :=
  {| fromEditedElementUri := fromEditedElementUri w;
     askForUploadLocation := askForUploadLocation w;
     askForChangeControlValue := askForChangeControlValue w;
     askToSignOutElements := askToSignOutElements w;
     askToOverrideSignOutForElements := askToOverrideSignOutForElements w;
     getFileContent := getFileContent w;
     saveFileIntoWorkspaceFolder := saveFileIntoWorkspaceFolder w;
     deleteFile := deleteFile w;
     updateElement := updateElement w;
     signOutElement := signOuts;
     overrideSignOutElement := overrides;
     compareElementWithRemoteVersion := compareElementWithRemoteVersion w;
     showElementToEdit := showElementToEdit w |}.

(** The upload location dialog is cancelled. *)
Definition cancelledLocationWorld : Env := withDialogs inPlaceWorld None None.

(** The change control dialog is cancelled. *)
Definition cancelledChangeControlWorld : Env :=
  withDialogs inPlaceWorld (Some uploadLocation) None.

Definition overrideError : Error :=
  {| errorClass := PlainError; message := "override refused" |}.

(** The element is signed out to somebody else and the override fails. *)
Definition failedOverrideWorld : Env :=
  withSignOuts signoutWorld (fun _ => Err signoutError) (fun _ => Err overrideError).

(** The same world with other answers of the file system. *)
Definition withFiles (w : Env)
    (reads : nat -> OrError string) (deletes : nat -> OrError unit) : Env :=
  {| fromEditedElementUri := fromEditedElementUri w;
     askForUploadLocation := askForUploadLocation w;
     askForChangeControlValue := askForChangeControlValue w;
     askToSignOutElements := askToSignOutElements w;
     askToOverrideSignOutForElements := askToOverrideSignOutForElements w;
     getFileContent := reads;
     saveFileIntoWorkspaceFolder := saveFileIntoWorkspaceFolder w;
     deleteFile := deletes;
     updateElement := updateElement w;
     signOutElement := signOutElement w;
     overrideSignOutElement := overrideSignOutElement w;
     compareElementWithRemoteVersion := compareElementWithRemoteVersion w;
     showElementToEdit := showElementToEdit w |}.

(** The same world with other answers of the two sign-out prompts. *)
Definition withPrompts (w : Env) (signOuts : nat -> SignOutDialogResult)
    (overrides : nat -> bool) : Env :=
  {| fromEditedElementUri := fromEditedElementUri w;
     askForUploadLocation := askForUploadLocation w;
     askForChangeControlValue := askForChangeControlValue w;
     askToSignOutElements := signOuts;
     askToOverrideSignOutForElements := overrides;
     getFileContent := getFileContent w;
     saveFileIntoWorkspaceFolder := saveFileIntoWorkspaceFolder w;
     deleteFile := deleteFile w;
     updateElement := updateElement w;
     signOutElement := signOutElement w;
     overrideSignOutElement := overrideSignOutElement w;
     compareElementWithRemoteVersion := compareElementWithRemoteVersion w;
     showElementToEdit := showElementToEdit w |}.

Definition fileError : Error :=
  {| errorClass := PlainError; message := "no such file" |}.
Definition serverError : Error :=
  {| errorClass := PlainError; message := "internal server error" |}.

(** The edited file cannot be read. *)
Definition unreadableWorld : Env :=
  withFiles inPlaceWorld (fun _ => Err fileError) (fun _ => Val tt).

(** After the sign-out the edited file cannot be read again. *)
Definition rereadFailsWorld : Env :=
  withFiles signoutWorld
    (fun n => match n with 0 => Val editedElementContent | _ => Err fileError end)
    (fun _ => Val tt).

(** The first update meets a fingerprint mismatch and the local version
    cannot be saved. *)
Definition unsavedConflictWorld : Env :=
  {| fromEditedElementUri := fromEditedElementUri conflictWorld;
     askForUploadLocation := askForUploadLocation conflictWorld;
     askForChangeControlValue := askForChangeControlValue conflictWorld;
     askToSignOutElements := askToSignOutElements conflictWorld;
     askToOverrideSignOutForElements := askToOverrideSignOutForElements conflictWorld;
     getFileContent := getFileContent conflictWorld;
     saveFileIntoWorkspaceFolder := fun _ => Err fileError;
     deleteFile := deleteFile conflictWorld;
     updateElement := updateElement conflictWorld;
     signOutElement := signOutElement conflictWorld;
     overrideSignOutElement := overrideSignOutElement conflictWorld;
     compareElementWithRemoteVersion := compareElementWithRemoteVersion conflictWorld;
     showElementToEdit := showElementToEdit conflictWorld |}.

(** The edited file cannot be removed. *)
Definition undeletableWorld : Env :=
  withFiles inPlaceWorld (getFileContent inPlaceWorld) (fun _ => Err fileError).

(** Every update fails with a plain error. *)
Definition brokenWorld : Env := world uploadLocation (fun _ => Err serverError).

(** The user declines the sign-out. *)
Definition declinedSignoutWorld : Env :=
  withPrompts signoutWorld
    (fun _ => {| signOutElements := false; automaticSignOut := false |}) (fun _ => true).

(** The element is signed out to somebody else and the override succeeds. *)
Definition overriddenWorld : Env :=
  withSignOuts signoutWorld (fun _ => Err signoutError) (fun _ => Val tt).

(** The element is signed out to somebody else and the user declines the
    override. *)
Definition declinedOverrideWorld : Env :=
  withPrompts overriddenWorld
    (fun _ => {| signOutElements := true; automaticSignOut := false |}) (fun _ => false).

(** A batch of three elements of which the second cannot be retrieved. *)
Definition treeNode (n : string) : TreeNode :=
  {| node_name := n;
     node_uri := {| scheme := "e4eElement"; authority := EmptyString; path := n;
                    query := EmptyString; fragment := EmptyString |} |}.

Definition batch : list TreeNode := [treeNode "ELM1"; treeNode "ELM2"; treeNode "ELM3"].

Definition workspaceUri : Uri :=
  {| scheme := "file"; authority := EmptyString; path := "/workspace";
     query := EmptyString; fragment := EmptyString |}.

Definition savedUri (n : nat) : Uri :=
  {| scheme := "file"; authority := EmptyString;
     path := "/workspace/.e4e/" ++ String (ascii_of_nat (48 + n)) EmptyString;
     query := EmptyString; fragment := EmptyString |}.

Definition retrieveError : Error :=
  {| errorClass := PlainError; message := "retrieve failed" |}.

Definition batchWorld : EditEnv :=
  {| getWorkspaceUri := Some workspaceUri;
     fromTreeElementUri := fun u =>
       Val {| tq_serviceName := serviceName; tq_searchLocationName := searchLocationName;
              tq_service := service; tq_element := element;
              tq_searchLocation := preciseSearchLocation |};
     retrieveElementWithFingerprint := fun n =>
       match n with
       | 1 => Err retrieveError
       | _ => Val {| ewf_content := editedElementContent;
                     ewf_fingerprint := elementFingerprint |}
       end;
     saveIntoEditFolder := fun n => Val (savedUri n);
     withUploadOptions := fun n => Some (savedUri n);
     showElementToEditAt := fun _ => Val tt |}.

(** The query of the compared-element test, as the object literal lists
    its properties. *)
Definition comparedQuery : JsValue :=
  JObject
    [ ("service",
       JObject
         [ ("location",
            JObject [ ("port", JNumber 1234); ("protocol", JString "http");
                      ("hostname", JString "anything");
                      ("basePath", JString "anythingx2") ]);
           ("credential",
            JObject [ ("type", JString "base"); ("user", JString "test");
                      ("password", JString "something") ]);
           ("rejectUnauthorized", JBool false) ]);
      ("serviceName", JString "serviceName");
      ("element",
       JObject [ ("instance", JString "ANY"); ("environment", JString "ENV");
                 ("system", JString "SYS"); ("subSystem", JString "SUBSYS");
                 ("stageNumber", JString "1"); ("type", JString "TYP");
                 ("name", JString "ELM"); ("extension", JString "ext") ]);
      ("uploadChangeControlValue",
       JObject [ ("ccid", JString "some_ccid"); ("comment", JString "some_comment") ]);
      ("searchLocation", JObject [ ("instance", JString "ANY-INSTANCE") ]);
      ("searchLocationName", JString "searchLocationName");
      ("fingerprint", JString "element_fingerprint");
      ("remoteVersionTempFilePath", JString "/temp/remote/element") ].

Definition localElementVersionFsPath : string := "/temp/local/element".

(** A locator that is valid but was not written by the encoder: its
    payload lists the fingerprint before the type. *)
Definition reorderedLocator : Uri :=
  {| scheme := "file"; authority := EmptyString; path := "/temp/local/element";
     query :=
       encodeURIComponent
         (JSON_stringify
            (JObject [ ("fingerprint", JString "element_fingerprint");
                       ("type", JString "compared-element") ]));
     fragment := EmptyString |}.

(** Locators whose query is a lone percent sign, and the JSON text [null]. *)
Definition malformedEscapeLocator : Uri :=
  {| scheme := "file"; authority := EmptyString; path := "/temp/local/element";
     query := "%"; fragment := EmptyString |}.

Definition nullQueryLocator : Uri :=
  {| scheme := "file"; authority := EmptyString; path := "/temp/local/element";
     query := "null"; fragment := EmptyString |}.



(** A locator of a compared element that carries a number with a
    fraction. *)
Definition fractionLocator : Uri :=
  {| scheme := "file"; authority := EmptyString; path := "/temp/local/element";
     query :=
       encodeURIComponent
         ("{" ++ String dquote ("type" ++ String dquote (":" ++ String dquote
            ("compared-element" ++ String dquote ("," ++ String dquote ("n" ++ String dquote
            ":1.5}"))))));
     fragment := EmptyString |}.

(** An engine for the sample locators: it writes a number as its
    literal stands, which is what [Number.prototype.toString] gives for
    the literals of these locators. *)
Definition numberText (lexeme : string) : string := lexeme.

End Samples.

(* ================================================================== *)
(** ** Notions used by the statements and their proofs *)
(* ================================================================== *)

Section RunVocabulary.
Variable env : Env.
Variable elementFilePath : string.

(** The update call number [n] succeeded. *)
Definition committedAt (n : nat) : Prop := updateElement env n = Val tt.

(** The update call number [n] met a fingerprint mismatch, and the local
    version was saved (save number [saves]) and handed to the conflict
    gateway (call number [compares]) without error. *)
Definition stagedAt (saves compares : nat) (filePath : string) (n : nat) : Prop :=
  isFingerprintMismatchError (updateElement env n) = true
  /\ path_dirname filePath <> EmptyString
  /\ isError (saveFileIntoWorkspaceFolder env saves) = false
  /\ isError (compareElementWithRemoteVersion env compares) = false.

(** What a run of [uploadElement] from the trace [t] adds to it, and how
    its result relates to the answers of the last update call. *)
Record UploadRun (t : Trace) (r : option (OrError unit)) (l : Trace) : Prop := {
  ur_deleted : deletedFiles l = [];
  ur_logged : loggedErrors l = [];
  ur_updates : count isUpdate l <= S (count (isDispatchOf ELEMENT_SIGNEDOUT) l);
  ur_signedOut : count (isDispatchOf ELEMENT_SIGNEDOUT) l <= count isSignOut l;
  ur_signOut : count isSignOut l <= count isAskToSignOut l;
  ur_asked : count isAskToSignOut l <= count isUpdate l;
  ur_askedOverride : count isAskToOverride l <= count isSignOut l;
  ur_override : count isOverrideSignOut l <= count isAskToOverride l;
  ur_reads : count isUpdate l <= count isGetFileContent l;
  ur_dispatched : count isDispatch l = count (isDispatchOf ELEMENT_SIGNEDOUT) l;
  ur_compares : count isCompare l <= count isSaveFile l;
  ur_saves : count isSaveFile l <= 1;
  ur_outcome :
    match r with
    | Some (Val _) =>
        exists n, count isUpdate (t ++ l)%list = S n
                  /\ (committedAt n
                      \/ stagedAt (count isSaveFile t) (count isCompare t) elementFilePath n)
    | _ =>
        forall n, count isUpdate (t ++ l)%list = S n ->
                  ~ committedAt n
                  /\ ~ stagedAt (count isSaveFile t) (count isCompare t) elementFilePath n
    end
}.

End RunVocabulary.

(** What one round of sign-out recovery adds to the trace. *)
Record SignoutRound (r : OrError unit) (l : Trace) (a : Action) : Prop := {
  sr_updates : count isUpdate l = 0;
  sr_reads : count isGetFileContent l = 0;
  sr_saves : count isSaveFile l = 0;
  sr_compares : count isCompare l = 0;
  sr_deleted : deletedFiles l = [];
  sr_logged : loggedErrors l = [];
  sr_asked : count isAskToSignOut l = 1;
  sr_signOut : count isSignOut l <= 1;
  sr_askedOverride : count isAskToOverride l <= count isSignOut l;
  sr_override : count isOverrideSignOut l <= count isAskToOverride l;
  sr_dispatched :
    dispatched l = match r with Val _ => [a] | Err _ => [] end;
  sr_success : isError r = false -> count isSignOut l = 1
}.

(** The entries of a list with their indices, counted from [n]. *)
Definition indexedFrom {A} (n : nat) (l : list A) : list (nat * A) :=
  combine (seq n (length l)) l.

(** A task whose result and effects do not depend on the trace so far. *)
Definition Stateless {A B} (f : A -> M B) (g : A -> B) (h : A -> Trace) : Prop :=
  forall a t, f a t = (g a, (t ++ h a)%list).

Section EditVocabulary.
Variable env : EditEnv.

(** The result and the calls of each phase of the batch, for one task. *)
Definition retrieved (task : nat * OrError TreeElementUriQuery)
  : OrError ElementWithFingerprint :=
  match snd task with
  | Err error => Err error
  | Val _ => retrieveElementWithFingerprint env (fst task)
  end.

Definition retrieveCalls (task : nat * OrError TreeElementUriQuery) : Trace :=
  match snd task with
  | Err _ => []
  | Val element =>
      [RetrieveElementWithFingerprint (tq_service element) (tq_element element)]
  end.

Definition saved (task : nat * OrError (TreeElementUriQuery * ElementWithFingerprint))
  : OrError (option Uri) :=
  match snd task with
  | Err error => Err error
  | Val _ =>
      match saveIntoEditFolder env (fst task) with
      | Err error => Err error
      | Val _ => Val (withUploadOptions env (fst task))
      end
  end.

Definition saveCalls (workspaceUri : Uri)
    (task : nat * OrError (TreeElementUriQuery * ElementWithFingerprint)) : Trace :=
  match snd task with
  | Err _ => []
  | Val (element, content) =>
      [SaveIntoEditFolder workspaceUri (tq_serviceName element)
         (tq_searchLocationName element) (tq_element element) (ewf_content content)]
  end.

Definition shown (task : nat * OrError (option Uri)) : OrError unit :=
  match snd task with
  | Val (Some _) => showElementToEditAt env (fst task)
  | Val None => Val tt
  | Err error => Err error
  end.

Definition showCalls (task : nat * OrError (option Uri)) : Trace :=
  match snd task with
  | Val (Some savedElementUri) => [ShowElementToEdit savedElementUri]
  | _ => []
  end.

Definition parsed (element : TreeNode) : OrError TreeElementUriQuery :=
  match fromTreeElementUri env (node_uri element) with
  | Err error =>
      Err (newError
        ("Unable to edit the element " ++ node_name element
           ++ " because of an error " ++ message error))
  | Val elementsUploadOptions => Val elementsUploadOptions
  end.

Definition savedOf (task : nat * TreeNode) : OrError (option Uri) :=
  saved (fst task, retrieveResult (parsed (snd task)) (retrieved (fst task, parsed (snd task)))).

End EditVocabulary.

(** The ranges of the pending octets are ranges of continuation octets. *)
Definition pendingOk (pending : list (nat * nat)) : bool :=
  forallb (fun range => (128 <=? fst range)%nat && (snd range <=? 191)%nat) pending.

(** The number of parser calls a value needs. *)
Fixpoint jsize (v : JsValue) : nat :=
  match v with
  | JArray l => S (list_sum (map (fun x => S (jsize x)) l))
  | JObject l => S (list_sum (map (fun kv => S (jsize (snd kv))) l))
  | _ => 1
  end.

(** A character with which a number literal goes on. *)
Definition continuesNumber (c : ascii) : bool :=
  isDigit c || Ascii.eqb c "." || Ascii.eqb c "e" || Ascii.eqb c "E".

(** A text after which a number literal ends. *)
Definition delimited (rest : string) : Prop :=
  ~ (exists c r, rest = String c r /\ continuesNumber c = true).

(** [parseValue] reads the printed value back, whatever follows it. *)
Definition RoundTrips (numberText : string -> string) (v : JsValue) : Prop :=
  wellFormed v = true ->
  forall fuel rest,
    jsize v <= fuel -> delimited rest ->
    parseValue numberText fuel (JSON_stringify v ++ rest) = Some (v, rest).

(** A property as [JSON.stringify] prints it. *)
Definition member (kv : string * JsValue) : string :=
  quoteJSONString (fst kv) ++ ":" ++ JSON_stringify (snd kv).


(** The two dialogs and the closing of the editor with which an upload
    starts once the URI of the edit session is read. *)
Definition uploadPreamble (params : EditedElementUriQuery) : Trace :=
  [AskForUploadLocation
     {| pf_environment := sl_environment (q_searchLocation params);
        pf_stageNumber := sl_stageNumber (q_searchLocation params);
        pf_system := sl_system (q_searchLocation params);
        pf_subsystem := sl_subsystem (q_searchLocation params);
        pf_type := uploadType (q_searchLocation params) (q_element params);
        pf_element := name (q_element params);
        pf_instance := instance (q_element params) |};
   AskForChangeControlValue (sl_ccid (q_searchLocation params))
     (sl_comment (q_searchLocation params));
   CloseActiveTextEditor].

(** The action of the given type for the tree of the edit session. *)
Definition treeAction (ty : Actions) (params : EditedElementUriQuery)
    (elements : list Element) : Action :=
  {| a_type := ty; a_serviceName := q_serviceName params;
     a_service := q_service params;
     a_searchLocationName := q_searchLocationName params;
     a_searchLocation := q_searchLocation params; a_elements := elements |}.

(** The element an upload writes: the location the dialog gave, with the
    extension of the edited element. *)
Definition uploadTarget (params : EditedElementUriQuery) (target : ElementMapPath) : Element :=
  withExtension target (extension (q_element params)).

(** The effects [uploadElement] may add to a trace, with the arguments
    they carry. *)
Definition uploadEffect (env : Env) (service : Service)
    (searchLocation : ElementSearchLocation) (serviceName : EndevorServiceName)
    (searchLocationName : ElementLocationName) (element : Element)
    (ccv : ChangeControlValue) (elementFilePath fingerprint : string) (e : Effect) : Prop :=
  match e with
  | GetFileContent file => file = elementFilePath
  | UpdateElement s el c fp _ => s = service /\ el = element /\ c = ccv /\ fp = fingerprint
  | AskToSignOutElements names => names = [name element]
  | TurnOnAutomaticSignOut => True
  | SignOutElement s el c => s = service /\ el = element /\ c = ccv
  | AskToOverrideSignOutForElements names => names = [name element]
  | OverrideSignOutElement s el c => s = service /\ el = element /\ c = ccv
  | SaveFileIntoWorkspaceFolder folder fileName fileExtension _ =>
      folder = path_dirname elementFilePath
      /\ fileName = name element ++ "-local-version"
      /\ fileExtension = extension element
  | CompareElementWithRemoteVersion args =>
      cmp_service args = service /\ cmp_searchLocation args = searchLocation
      /\ cmp_changeControl args = ccv /\ cmp_element args = element
      /\ cmp_serviceName args = serviceName
      /\ cmp_searchLocationName args = searchLocationName
  | Dispatch a =>
      a = {| a_type := ELEMENT_SIGNEDOUT; a_serviceName := serviceName;
             a_service := service; a_searchLocationName := searchLocationName;
             a_searchLocation := searchLocation; a_elements := [element] |}
  | _ => False
  end.

(** What the command does after [uploadElement] has returned [r]: the
    report and the reopening of the session after an error, the removal
    of the temp file and the update of the tree otherwise. *)
Definition uploadEpilogue (env : Env) (elementUri : Uri) (params : EditedElementUriQuery)
    (r : option (OrError unit)) : Trace :=
  match r with
  | None => []
  | Some (Err error) =>
      [LoggerError
         ("Unable to upload the element " ++ name (q_element params) ++ " to Endevor.")
         (Some (message error ++ "."));
       ShowElementToEdit elementUri]
  | Some (Val _) =>
      match deleteFile env 0 with
      | Val _ =>
          [DeleteFile elementUri;
           Dispatch (treeAction ELEMENT_UPDATED params [q_element params])]
      | Err e =>
          [DeleteFile elementUri;
           LoggerError
             ("Unable to remove the file " ++ fsPath elementUri ++ ".")
             (Some ("Unable to remove the file " ++ fsPath elementUri
                      ++ " because of error " ++ message e ++ "."));
           Dispatch (treeAction ELEMENT_UPDATED params [q_element params])]
      end
  end.

Section SignOutVocabulary.
Variable env : Env.
Variable t : Trace.

(** The answers a sign-out recovery started at the trace [t] receives:
    the user asks for the sign-out (or for automatic sign-out); the
    signOut call then meets a sign-out error; the user then accepts the
    override; the recovery ends with the element signed out. *)
Definition signOutAccepted : bool :=
  signOutElements (askToSignOutElements env (count isAskToSignOut t))
  || automaticSignOut (askToSignOutElements env (count isAskToSignOut t)).

Definition signOutContended : bool :=
  signOutAccepted && isSignoutError (signOutElement env (count isSignOut t)).

Definition signOutOverridden : bool :=
  signOutContended && askToOverrideSignOutForElements env (count isAskToOverride t).

Definition signOutSucceeded : bool :=
  signOutAccepted
  && (negb (isError (signOutElement env (count isSignOut t)))
      || (signOutOverridden
          && negb (isError (overrideSignOutElement env (count isOverrideSignOut t))))).

End SignOutVocabulary.

Section BatchVocabulary.
Variable env : EditEnv.

(** How far an element of a batch gets: its URI is read, so that it is
    retrieved; it is retrieved, so that it is saved; it is saved and has
    upload options, so that it is shown. *)
Definition reachesRetrieve (task : nat * TreeNode) : bool :=
  negb (isError (fromTreeElementUri env (node_uri (snd task)))).

Definition reachesSave (task : nat * TreeNode) : bool :=
  reachesRetrieve task && negb (isError (retrieveElementWithFingerprint env (fst task))).

Definition reachesShow (task : nat * TreeNode) : bool :=
  reachesSave task && negb (isError (saveIntoEditFolder env (fst task)))
  && match withUploadOptions env (fst task) with Some _ => true | None => false end.

End BatchVocabulary.

Section AttemptsVocabulary.
Variable env : Env.
Variables (service : Service) (searchLocation : ElementSearchLocation)
  (serviceName : EndevorServiceName) (searchLocationName : ElementLocationName)
  (element : Element) (ccv : ChangeControlValue) (elementFilePath fingerprint : string).

(** What a run of [uploadElement] from the trace [t] adds to it, attempt
    by attempt: nothing when it is out of fuel; a failed read; a last
    attempt, which is not followed by a successful sign-out; or an
    attempt whose sign-out error is recovered, followed by the attempts
    of the run the function then starts.  The flag tells whether the run
    returned. *)
Inductive Attempts : Trace -> bool -> Trace -> Prop :=
| attempts_cut (t : Trace) : Attempts t false []
| attempts_unread (t : Trace) (error : Error) :
    getFileContent env (count isGetFileContent t) = Err error ->
    Attempts t true [GetFileContent elementFilePath]
| attempts_last (t : Trace) (content : string) (rest : Trace) :
    getFileContent env (count isGetFileContent t) = Val content ->
    count isUpdate rest = 0 ->
    (isSignoutError (updateElement env (count isUpdate t)) = true ->
     exists error,
       complexSignoutElement env service searchLocation serviceName searchLocationName
         element ccv
         (t ++ [GetFileContent elementFilePath;
                UpdateElement service element ccv fingerprint content])%list
       = (Err error,
          ((t ++ [GetFileContent elementFilePath;
                  UpdateElement service element ccv fingerprint content]) ++ rest)%list)) ->
    Attempts t true
      (GetFileContent elementFilePath
         :: UpdateElement service element ccv fingerprint content :: rest)
| attempts_retry (t : Trace) (content : string) (recovery later : Trace) (returned : bool) :
    getFileContent env (count isGetFileContent t) = Val content ->
    isSignoutError (updateElement env (count isUpdate t)) = true ->
    complexSignoutElement env service searchLocation serviceName searchLocationName
      element ccv
      (t ++ [GetFileContent elementFilePath;
             UpdateElement service element ccv fingerprint content])%list
    = (Val tt,
       ((t ++ [GetFileContent elementFilePath;
               UpdateElement service element ccv fingerprint content]) ++ recovery)%list) ->
    Attempts
      ((t ++ [GetFileContent elementFilePath;
              UpdateElement service element ccv fingerprint content]) ++ recovery)%list
      returned later ->
    Attempts t returned
      (GetFileContent elementFilePath
         :: UpdateElement service element ccv fingerprint content :: recovery ++ later)%list.

End AttemptsVocabulary.

(** A value that cannot be converted to a string: an object with a
    property named [toString], or an array that holds such a value. *)
Fixpoint unprintable (v : JsValue) : bool :=
  match v with
  | JObject l => hasOwnProperty "toString" l
  | JArray l => existsb unprintable l
  | _ => false
  end.

(* ================================================================== *)
(** ** Lemmas and theorems *)
(* ================================================================== *)

(** *** The upload command *)

Lemma count_app p (t l : Trace) : count p (t ++ l)%list = count p t + count p l.
Proof. unfold count. rewrite filter_app, length_app. reflexivity. Qed.

Ltac break_match :=
  match goal with
  | |- context [match ?c with _ => _ end] =>
      lazymatch c with
      | context [match _ with _ => _ end] => fail
      | _ => destruct c eqn:?
      end
  end.

Lemma complexSignoutElement_round (env : Env) service searchLocation serviceName
    searchLocationName element ccv (t : Trace) :
  exists l,
    snd (complexSignoutElement env service searchLocation serviceName searchLocationName
           element ccv t) = (t ++ l)%list
    /\ SignoutRound
         (fst (complexSignoutElement env service searchLocation serviceName
                 searchLocationName element ccv t))
         l
         {| a_type := ELEMENT_SIGNEDOUT; a_serviceName := serviceName;
            a_service := service; a_searchLocationName := searchLocationName;
            a_searchLocation := searchLocation; a_elements := [element] |}.
Proof.
  unfold complexSignoutElement, updateTreeAfterSuccessfulSignout, dispatch, bind, call, ret, emit.
  repeat (break_match; cbn [fst snd]);
    rewrite <- ?app_assoc; eexists; (split; [reflexivity|]);
    constructor; cbn; try reflexivity; try lia; try discriminate.
Qed.

Lemma dispatched_app (t l : Trace) : dispatched (t ++ l)%list = (dispatched t ++ dispatched l)%list.
Proof. induction t as [|e t IH]; simpl; [reflexivity|]. destruct e; simpl; rewrite ?IH; reflexivity. Qed.

Lemma deletedFiles_app (t l : Trace) : deletedFiles (t ++ l)%list = (deletedFiles t ++ deletedFiles l)%list.
Proof. induction t as [|e t IH]; simpl; [reflexivity|]. destruct e; simpl; rewrite ?IH; reflexivity. Qed.

Lemma compareCalls_app (t l : Trace) : compareCalls (t ++ l)%list = (compareCalls t ++ compareCalls l)%list.
Proof. induction t as [|e t IH]; simpl; [reflexivity|]. destruct e; simpl; rewrite ?IH; reflexivity. Qed.

Lemma loggedErrors_app (t l : Trace) : loggedErrors (t ++ l)%list = (loggedErrors t ++ loggedErrors l)%list.
Proof. induction t as [|e t IH]; simpl; [reflexivity|]. destruct e; simpl; rewrite ?IH; reflexivity. Qed.

Section Run.
Variable env : Env.
Variables (service : Service) (searchLocation : ElementSearchLocation)
  (serviceName : EndevorServiceName) (searchLocationName : ElementLocationName)
  (element : Element) (ccv : ChangeControlValue) (elementFilePath fingerprint : string).

Lemma isSignoutError_not_final n :
  isSignoutError (updateElement env n) = true ->
  forall s c, ~ committedAt env n /\ ~ stagedAt env s c elementFilePath n.
Proof.
  unfold committedAt, stagedAt. intros H s c.
  destruct (updateElement env n) as [u|[[] m]]; cbn in *; try discriminate.
  split; [discriminate|]. intros [H1 _]. discriminate.
Qed.

Lemma uploadElement_run (fuel : nat) :
  forall (t : Trace) r t',
    uploadElement env fuel service searchLocation serviceName searchLocationName
      element ccv elementFilePath fingerprint t = (r, t') ->
    (forall n, count isUpdate t = S n -> isSignoutError (updateElement env n) = true) ->
    exists l, t' = (t ++ l)%list /\ UploadRun env elementFilePath t r l.
Proof.
  induction fuel as [|fuel IH]; intros t r t' Hrun Hpre.
  { injection Hrun as <- <-. exists []. rewrite app_nil_r. split; [reflexivity|].
    constructor; cbn; try lia; try reflexivity.
    intros n Hn. rewrite app_nil_r in Hn. apply isSignoutError_not_final. auto. }
  cbn [uploadElement] in Hrun.
  unfold readEditedElementContent, bind, call, ret in Hrun.
  destruct (getFileContent env (count isGetFileContent t)) as [content|readError] eqn:Eread.
  2:{ injection Hrun as <- <-. eexists; split; [reflexivity|].
      constructor; cbn; try lia; try reflexivity.
      intros n Hn. rewrite count_app in Hn. cbn in Hn. rewrite Nat.add_0_r in Hn.
      apply isSignoutError_not_final. auto. }
  set (t1 := (t ++ [GetFileContent elementFilePath])%list) in *.
  assert (Hu1 : count isUpdate t1 = count isUpdate t)
    by (unfold t1; rewrite count_app; cbn; lia).
  rewrite Hu1 in Hrun.
  set (t2 := (t1 ++ [UpdateElement service element ccv fingerprint content])%list) in *.
  destruct (isSignoutError (updateElement env (count isUpdate t))) eqn:Eso.
  - (* sign-out recovery *)
    destruct (complexSignoutElement_round env service searchLocation serviceName
                searchLocationName element ccv t2) as [l1 [Hl1 R1]].
    destruct (complexSignoutElement env service searchLocation serviceName
                searchLocationName element ccv t2) as [sr t3] eqn:Ecs.
    cbn [fst snd] in Hl1, R1. subst t3.
    destruct sr as [u|e].
    + apply IH in Hrun.
      * destruct Hrun as [l2 [-> R2]].
        exists ([GetFileContent elementFilePath;
                 UpdateElement service element ccv fingerprint content] ++ l1 ++ l2)%list.
        split; [unfold t2, t1; rewrite <- !app_assoc; reflexivity|].
        destruct R1, R2.
        assert (Hs : count (isDispatchOf ELEMENT_SIGNEDOUT) l1 = 1
                     /\ count isDispatch l1 = 1).
        { clear - sr_dispatched0. unfold count.
          induction l1 as [|x l1' IHl]; cbn in *; [discriminate|].
          destruct x; cbn in *; auto.
          injection sr_dispatched0 as -> Hd. cbn.
          assert (forall l, dispatched l = [] ->
                    length (filter (isDispatchOf ELEMENT_SIGNEDOUT) l) = 0
                    /\ length (filter isDispatch l) = 0) as Hz.
          { induction l as [|y l IHl']; cbn; auto. destruct y; cbn; auto; discriminate. }
          destruct (Hz _ Hd) as [-> ->]. auto. }
        destruct Hs as [Hs1 Hs2].
        specialize (sr_success0 eq_refl).
        constructor; rewrite ?deletedFiles_app, ?loggedErrors_app, ?count_app; cbn;
          rewrite ?count_app; try lia.
        -- rewrite sr_deleted0, ur_deleted0. reflexivity.
        -- rewrite sr_logged0, ur_logged0. reflexivity.
        -- assert (Hs3 : count isSaveFile (t2 ++ l1)%list = count isSaveFile t)
             by (unfold t2, t1; rewrite !count_app; cbn; lia).
           assert (Hc3 : count isCompare (t2 ++ l1)%list = count isCompare t)
             by (unfold t2, t1; rewrite !count_app; cbn; lia).
           rewrite Hs3, Hc3 in ur_outcome0.
           assert (Happ : ((t2 ++ l1) ++ l2)%list
                          = (t ++ GetFileContent elementFilePath
                                :: UpdateElement service element ccv fingerprint content
                                :: l1 ++ l2)%list)
             by (unfold t2, t1; rewrite <- !app_assoc; reflexivity).
           rewrite Happ in ur_outcome0.
           assert (Hcnt : count isUpdate
                            (t ++ GetFileContent elementFilePath
                               :: UpdateElement service element ccv fingerprint content
                               :: l1 ++ l2)%list
                          = count isUpdate t + S (count isUpdate l1 + count isUpdate l2)).
           { rewrite count_app. cbn. fold (count isUpdate (l1 ++ l2)%list).
             rewrite count_app. reflexivity. }
           rewrite Hcnt in ur_outcome0. exact ur_outcome0.
      * intros n Hn. unfold t2 in Hn. rewrite !count_app, Hu1 in Hn. destruct R1.
        rewrite sr_updates0 in Hn. cbn in Hn.
        assert (n = count isUpdate t) by lia. subst n. exact Eso.
    + injection Hrun as <- <-.
      exists ([GetFileContent elementFilePath;
               UpdateElement service element ccv fingerprint content] ++ l1)%list.
      split; [unfold t2, t1; rewrite <- !app_assoc; reflexivity|].
      destruct R1.
      assert (Hs : count (isDispatchOf ELEMENT_SIGNEDOUT) l1 = 0 /\ count isDispatch l1 = 0).
      { clear - sr_dispatched0. unfold count.
        induction l1 as [|y l IHl']; cbn in *; auto. destruct y; cbn in *; auto; discriminate. }
      destruct Hs as [Hs1 Hs2].
      constructor; rewrite ?deletedFiles_app, ?loggedErrors_app, ?count_app; cbn;
        rewrite ?count_app; try lia; auto.
      intros n Hn. rewrite sr_updates0 in Hn.
      assert (n = count isUpdate t) by lia. subst n.
      apply isSignoutError_not_final. exact Eso.
  - destruct (isFingerprintMismatchError (updateElement env (count isUpdate t))) eqn:Efp.
    + (* conflict staging *)
      unfold saveLocalElementVersion, call, ret in Hrun.
      assert (Hlast : forall l', count isUpdate l' = 0 -> forall n,
                count isUpdate
                  (t ++ GetFileContent elementFilePath
                     :: UpdateElement service element ccv fingerprint content :: l')%list = S n ->
                n = count isUpdate t).
      { intros l' Hl' n Hn. rewrite count_app in Hn. cbn in Hn. fold (count isUpdate l') in Hn. lia. }
      assert (Hnc : ~ committedAt env (count isUpdate t)).
      { unfold committedAt. intros Hc. rewrite Hc in Efp. discriminate. }
      assert (Hs2 : count isSaveFile t2 = count isSaveFile t)
        by (unfold t2, t1; rewrite !count_app; cbn; lia).
      assert (Hc2 : forall x, count isCompare (t2 ++ [x])%list = count isCompare t + count isCompare [x])
        by (intros x; unfold t2, t1; rewrite !count_app; cbn; lia).
      destruct (String.eqb (path_dirname elementFilePath) EmptyString) eqn:Edir.
      * injection Hrun as <- <-. eexists. split; [unfold t2, t1; rewrite <- !app_assoc; reflexivity|].
        constructor; cbn; try lia; try reflexivity.
        intros n Hn. apply (Hlast []) in Hn; [subst n|reflexivity].
        split; [exact Hnc|]. intros (_ & Hd & _). apply String.eqb_eq in Edir. contradiction.
      * rewrite Hs2 in Hrun.
        destruct (saveFileIntoWorkspaceFolder env (count isSaveFile t)) as [saved|e] eqn:Esave.
        -- rewrite Hc2 in Hrun. cbn in Hrun. rewrite Nat.add_0_r in Hrun.
           destruct (compareElementWithRemoteVersion env (count isCompare t)) as [u|e] eqn:Ecmp;
             injection Hrun as <- <-;
             (eexists; split; [unfold t2, t1; rewrite <- !app_assoc; reflexivity|]);
             constructor; cbn; try lia; try reflexivity.
           ++ exists (count isUpdate t). split.
              ** rewrite count_app. cbn. lia.
              ** right. unfold stagedAt. rewrite Esave, Ecmp. repeat split; auto.
                 intros Hd. rewrite Hd in Edir. discriminate.
           ++ intros n Hn. apply (Hlast [_; _]) in Hn; [subst n|reflexivity].
              split; [exact Hnc|]. intros (_ & _ & _ & Hx). rewrite Ecmp in Hx. discriminate.
        -- injection Hrun as <- <-.
           eexists; split; [unfold t2, t1; rewrite <- !app_assoc; reflexivity|].
           constructor; cbn; try lia; try reflexivity.
           intros n Hn. apply (Hlast [_]) in Hn; [subst n|reflexivity].
           split; [exact Hnc|]. intros (_ & _ & Hx & _). rewrite Esave in Hx. discriminate.
    + (* success or a plain error *)
      injection Hrun as <- <-.
      eexists; split; [unfold t2, t1; rewrite <- !app_assoc; reflexivity|].
      constructor; cbn; try lia; try reflexivity.
      destruct (updateElement env (count isUpdate t)) as [[]|e] eqn:Eu.
      * exists (count isUpdate t). split; [rewrite count_app; cbn; lia|]. left. exact Eu.
      * intros n Hn. rewrite count_app in Hn. cbn in Hn.
        assert (n = count isUpdate t) by lia. subst n.
        unfold committedAt, stagedAt. rewrite Eu. split; [discriminate|].
        intros [Hx _]. rewrite Hx in Efp. discriminate.
Qed.

End Run.

(** C8.  If the user cancels the upload location dialog or the change
    control dialog, the upload command ends after logging one explicit
    error message, having made no remote call (no update, no sign-out, no
    override), dispatched no event and deleted no file. *)
Theorem cancelled_dialog_stops_upload (env : Env) (fuel : nat) (elementUri : Uri)
    (params : EditedElementUriQuery) :
  fromEditedElementUri env elementUri = Val params ->
  askForUploadLocation env = None
  \/ (exists l, askForUploadLocation env = Some l) /\ askForChangeControlValue env = None ->
  exists t msg,
    uploadElementCommand env fuel elementUri [] = (Some tt, t)
    /\ loggedErrors t = [msg]
    /\ (askForUploadLocation env = None ->
        msg = "Upload location must be specified to upload the element "
                ++ name (q_element params) ++ ".")
    /\ (forall l, askForUploadLocation env = Some l ->
        msg = "CCID and Comment must be specified to upload the element "
                ++ mp_name l ++ ".")
    /\ count isRemoteCall t = 0
    /\ dispatched t = []
    /\ deletedFiles t = [].
Proof.
  intros Hparse [Hloc | [[l Hloc] Hccv]];
    unfold uploadElementCommand, askForUploadValues, bind, call, ret, logger_error, emit;
    rewrite Hparse, Hloc; [| rewrite Hccv]; simpl;
    eexists; eexists; (split; [reflexivity|]); simpl.
  - repeat split; try reflexivity. intros l0 H; discriminate.
  - repeat split; try reflexivity. + intros H; discriminate. + intros l0 H; injection H as <-. reflexivity.
Qed.

Lemma isSignoutError_inv {T} (r : OrError T) :
  isSignoutError r = true -> exists e, r = Err e /\ errorClass e = SignoutError.
Proof.
  destruct r as [v|[c m]]; simpl; [discriminate|].
  destruct c; try discriminate. intros _. eexists; split; reflexivity.
Qed.

(** C10.  When the override sign-out fails after the plain sign-out met
    a sign-out error, the error [complexSignoutElement] returns carries
    the message of the first, plain signOut failure; the message of the
    failed override does not appear in it. *)
Theorem override_failure_reports_first_signout_error
    (env : Env) (service : Service) (searchLocation : ElementSearchLocation)
    (serviceName : EndevorServiceName) (searchLocationName : ElementLocationName)
    (element : Element) (ccv : ActionChangeControlValue) (t : Trace)
    (signOutFailure overrideFailure : Error) :
  (let answer := askToSignOutElements env (count isAskToSignOut t) in
   signOutElements answer = true \/ automaticSignOut answer = true) ->
  signOutElement env (count isSignOut t) = Err signOutFailure ->
  errorClass signOutFailure = SignoutError ->
  askToOverrideSignOutForElements env (count isAskToOverride t) = true ->
  overrideSignOutElement env (count isOverrideSignOut t) = Err overrideFailure ->
  fst (complexSignoutElement env service searchLocation serviceName searchLocationName
         element ccv t)
  = Err (newError ("Unable to perform an override signout of the element "
                     ++ name element ++ " because of error " ++ message signOutFailure)).
Proof.
  intros Hask Hso Hclass Hov Hovr.
  unfold complexSignoutElement, bind, call, ret, emit.
  cbv zeta in Hask.
  destruct (askToSignOutElements env (count isAskToSignOut t)) as [so au] eqn:Ea.
  simpl in Hask.
  assert (Hn : negb so && negb au = false) by (destruct so, au; destruct Hask; try discriminate; reflexivity).
  cbn [signOutElements automaticSignOut]. rewrite Hn.
  destruct au; simpl.
  all: rewrite ?count_app; simpl; rewrite ?Nat.add_0_r.
  all: rewrite Hso.
  all: destruct signOutFailure as [c m]; simpl in Hclass; subst c; simpl.
  all: rewrite ?count_app; simpl; rewrite ?Nat.add_0_r; rewrite Hov; simpl.
  all: rewrite ?count_app; simpl; rewrite ?Nat.add_0_r; rewrite Hovr; reflexivity.
Qed.

(** The command, once the URI is parsed and both dialogs are answered:
    the three effects before [uploadElement], the run of [uploadElement],
    and the report or the clean-up after it. *)
Lemma uploadElementCommand_cases (env : Env) (fuel : nat) (elementUri : Uri) :
  let t := snd (uploadElementCommand env fuel elementUri []) in
  (count isUpdate t = 0 /\ count isSignOut t = 0 /\ count isOverrideSignOut t = 0
   /\ count isAskToSignOut t = 0 /\ count isAskToOverride t = 0
   /\ count isGetFileContent t = 0
   /\ dispatched t = [] /\ deletedFiles t = [] /\ count isDispatch t = 0
   /\ fst (uploadElementCommand env fuel elementUri []) = Some tt)
  \/ exists params target ccv t0 r l tail,
       fromEditedElementUri env elementUri = Val params
       /\ askForUploadLocation env = Some target
       /\ askForChangeControlValue env = Some ccv
       /\ count isRemoteCall t0 = 0 /\ length t0 = 3 /\ dispatched t0 = []
       /\ deletedFiles t0 = [] /\ loggedErrors t0 = []
       /\ count isSaveFile t0 = 0 /\ count isCompare t0 = 0
       /\ count isGetFileContent t0 = 0 /\ count isAskToSignOut t0 = 0
       /\ count isAskToOverride t0 = 0 /\ count isDispatch t0 = 0
       /\ uploadElement env fuel (q_service params) (q_searchLocation params)
            (q_serviceName params) (q_searchLocationName params)
            (withExtension target (extension (q_element params))) ccv
            (fsPath elementUri) (q_fingerprint params) t0 = (r, (t0 ++ l)%list)
       /\ UploadRun env (fsPath elementUri) t0 r l
       /\ t = (t0 ++ l ++ tail)%list
       /\ fst (uploadElementCommand env fuel elementUri []) = option_map (fun _ => tt) r
       /\ match r with
          | Some (Val _) =>
              deletedFiles tail = [elementUri]
              /\ dispatched tail
                 = [{| a_type := ELEMENT_UPDATED;
                       a_serviceName := q_serviceName params;
                       a_service := q_service params;
                       a_searchLocationName := q_searchLocationName params;
                       a_searchLocation := q_searchLocation params;
                       a_elements := [q_element params] |}]
          | Some (Err _) =>
              deletedFiles tail = [] /\ dispatched tail = [] /\ loggedErrors tail <> []
          | None => tail = []
          end
       /\ count isUpdate tail = 0 /\ count isSignOut tail = 0
       /\ count isOverrideSignOut tail = 0 /\ count isAskToSignOut tail = 0
       /\ count isAskToOverride tail = 0 /\ count isGetFileContent tail = 0
       /\ count (isDispatchOf ELEMENT_SIGNEDOUT) tail = 0.
Proof.
  cbv zeta. unfold uploadElementCommand.
  destruct (fromEditedElementUri env elementUri) as [params|e] eqn:Eparse.
  2:{ left. cbn. repeat split; reflexivity. }
  unfold askForUploadValues, bind, call, ret, logger_error, emit.
  destruct (askForUploadLocation env) as [target|] eqn:Eloc.
  2:{ left. cbn. repeat split; reflexivity. }
  destruct (askForChangeControlValue env) as [ccv|] eqn:Eccv.
  2:{ left. cbn. repeat split; reflexivity. }
  right. unfold closeEditSession, emit. cbn [app].
  match goal with
  | |- context [uploadElement env fuel ?a ?b ?c ?d ?e ?f ?g ?h ?t0] =>
      destruct (uploadElement env fuel a b c d e f g h t0) as [r t'] eqn:Erun;
      destruct (uploadElement_run env a b c d e f g h fuel t0 r t' Erun) as [l [-> R]];
      [cbn; intros n Hn; discriminate|];
      exists params, target, ccv, t0, r, l
  end.
  destruct r as [[u|e]|].
  - unfold safeRemoveUploadedElement, updateTreeAfterSuccessfulUpload, dispatch, bind,
      call, ret, logger_error, emit.
    destruct (deleteFile env _) as [u'|e'];
      cbn [fst snd]; rewrite <- ?app_assoc; eexists;
      repeat (split; [first [reflexivity | exact R | exact Erun]|]); cbn; repeat split; reflexivity.
  - unfold reopenEditSession, bind, call, ret, logger_error, emit.
    cbn [fst snd]; rewrite <- ?app_assoc; eexists;
      repeat (split; [first [reflexivity | exact R | exact Erun]|]); cbn; repeat split;
      try reflexivity. discriminate.
  - exists []. cbn [fst snd]. rewrite app_nil_r.
    repeat (split; [first [reflexivity | exact R | exact Erun]|]). cbn. repeat split; reflexivity.
Qed.

Lemma count_isDispatchOf_le (ty : Actions) (t : Trace) :
  count (isDispatchOf ty) t <= count isDispatch t.
Proof.
  unfold count. induction t as [|x t IH]; cbn; [lia|].
  destruct x; cbn; try lia. destruct (Actions_eqb (a_type a) ty); cbn; lia.
Qed.

(** C2 (as amended).  In every run of the upload command the deletion of
    the edited element's temp file is requested at most once, and exactly
    when [uploadElement] returned without an error: after the last update
    call succeeded, or after a fingerprint mismatch whose local version
    was saved and handed to the conflict gateway without error.  On every
    other path the temp file is left alone. *)
Theorem temp_file_removed_only_when_upload_returns_clean
    (env : Env) (fuel : nat) (elementUri : Uri) :
  let t := snd (uploadElementCommand env fuel elementUri []) in
  (deletedFiles t = [elementUri]
   /\ exists n, count isUpdate t = S n
                /\ (committedAt env n \/ stagedAt env 0 0 (fsPath elementUri) n))
  \/ (deletedFiles t = []
      /\ forall n, count isUpdate t = S n ->
                   ~ committedAt env n /\ ~ stagedAt env 0 0 (fsPath elementUri) n).
Proof.
  destruct (uploadElementCommand_cases env fuel elementUri) as [H|H]; cbv zeta in *.
  - right. destruct H as (Hu & _ & _ & _ & _ & _ & _ & Hd & _). split; [exact Hd|].
    intros n Hn. rewrite Hu in Hn. discriminate.
  - destruct H as (params & target & ccv & t0 & r & l & tail & _ & _ & _ & Hr0 & _ & _
                   & Hd0 & _ & Hs0 & Hc0 & _ & _ & _ & _ & _ & R & -> & _ & Hout & Hut & _).
    assert (Hu0 : count isUpdate t0 = 0).
    { unfold count in *. clear - Hr0. induction t0 as [|x t0 IH]; cbn in *; [reflexivity|].
      unfold isRemoteCall in *. destruct (isUpdate x); cbn in *; [discriminate|].
      destruct (isSignOut x || isOverrideSignOut x); cbn in *; [discriminate|auto]. }
    destruct R. rewrite Hs0, Hc0 in ur_outcome0.
    rewrite !deletedFiles_app, Hd0, ur_deleted0. cbn [app].
    assert (Hcount : count isUpdate (t0 ++ l ++ tail)%list = count isUpdate (t0 ++ l)%list)
      by (rewrite !count_app; lia).
    rewrite Hcount.
    destruct r as [[u|e]|].
    + left. destruct Hout as [-> _]. split; [reflexivity|exact ur_outcome0].
    + right. destruct Hout as [-> _]. split; [reflexivity|exact ur_outcome0].
    + right. subst tail. split; [reflexivity|exact ur_outcome0].
Qed.

(** How the calls of one run of the upload command are counted against
    each other: the update calls are at most one more than the
    ELEMENT_SIGNEDOUT events, every such event comes from a signOut call,
    every signOut call from a sign-out prompt, every prompt from an update
    call, and an override is asked for and tried at most once per signOut
    call. *)
Lemma upload_call_counts (env : Env) (fuel : nat) (elementUri : Uri) :
  let t := snd (uploadElementCommand env fuel elementUri []) in
  count isUpdate t <= S (count (isDispatchOf ELEMENT_SIGNEDOUT) t)
  /\ count (isDispatchOf ELEMENT_SIGNEDOUT) t <= count isSignOut t
  /\ count isSignOut t <= count isAskToSignOut t
  /\ count isAskToSignOut t <= count isUpdate t
  /\ count isAskToOverride t <= count isSignOut t
  /\ count isOverrideSignOut t <= count isAskToOverride t
  /\ count isUpdate t <= count isGetFileContent t.
Proof.
  destruct (uploadElementCommand_cases env fuel elementUri) as [H|H]; cbv zeta in *.
  - destruct H as (-> & -> & -> & -> & -> & -> & _ & _ & Hd & _).
    pose proof (count_isDispatchOf_le ELEMENT_SIGNEDOUT
                  (snd (uploadElementCommand env fuel elementUri []))). lia.
  - destruct H as (params & target & ccv & t0 & r & l & tail & _ & _ & _ & Hr0 & _ & _
                   & _ & _ & _ & _ & Hg0 & Ha0 & Hao0 & Hd0 & _ & R & -> & _ & _
                   & Hut & Hst & Hot & Hat & Haot & Hgt & Hsot).
    assert (Hu0 : count isUpdate t0 = 0 /\ count isSignOut t0 = 0
                  /\ count isOverrideSignOut t0 = 0).
    { unfold count in *. clear - Hr0. induction t0 as [|x t0 IH]; cbn in *; [auto|].
      unfold isRemoteCall in *.
      destruct (isUpdate x), (isSignOut x), (isOverrideSignOut x); cbn in *;
        try discriminate; auto. }
    destruct Hu0 as (Hu0 & Hs0 & Ho0).
    pose proof (count_isDispatchOf_le ELEMENT_SIGNEDOUT t0) as Hso0.
    destruct R. rewrite !count_app. lia.
Qed.

(** C5.  If the first update call returns a SignoutError, the user
    accepts the sign-out, the signOut call succeeds and the second update
    call succeeds, then the orchestration makes exactly two update calls
    and one signOut call (and no override), and dispatches the
    ELEMENT_SIGNEDOUT event before the ELEMENT_UPDATED event. *)
Theorem signout_then_clean_retry
    (env : Env) (elementUri : Uri) (params : EditedElementUriQuery)
    (target : ElementMapPath) (ccv : ChangeControlValue)
    (content0 content1 : string) (e : Error) (extraFuel : nat) :
  fromEditedElementUri env elementUri = Val params ->
  askForUploadLocation env = Some target ->
  askForChangeControlValue env = Some ccv ->
  getFileContent env 0 = Val content0 ->
  updateElement env 0 = Err e ->
  errorClass e = SignoutError ->
  signOutElements (askToSignOutElements env 0) = true
  \/ automaticSignOut (askToSignOutElements env 0) = true ->
  signOutElement env 0 = Val tt ->
  getFileContent env 1 = Val content1 ->
  updateElement env 1 = Val tt ->
  let run := uploadElementCommand env (S (S extraFuel)) elementUri [] in
  fst run = Some tt
  /\ count isUpdate (snd run) = 2
  /\ count isSignOut (snd run) = 1
  /\ count isOverrideSignOut (snd run) = 0
  /\ dispatched (snd run)
     = [ {| a_type := ELEMENT_SIGNEDOUT;
            a_serviceName := q_serviceName params;
            a_service := q_service params;
            a_searchLocationName := q_searchLocationName params;
            a_searchLocation := q_searchLocation params;
            a_elements := [withExtension target (extension (q_element params))] |};
         {| a_type := ELEMENT_UPDATED;
            a_serviceName := q_serviceName params;
            a_service := q_service params;
            a_searchLocationName := q_searchLocationName params;
            a_searchLocation := q_searchLocation params;
            a_elements := [q_element params] |} ].
Proof.
  intros Hparse Hloc Hccv Hread0 Hupd0 Hclass Hask Hso Hread1 Hupd1.
  destruct e as [c m]. cbn in Hclass. subst c.
  destruct (askToSignOutElements env 0) as [so au] eqn:Eask. cbn in Hask.
  assert (Hn : negb so && negb au = false)
    by (destruct so, au; destruct Hask; try discriminate; reflexivity).
  cbv zeta.
  unfold uploadElementCommand, askForUploadValues, closeEditSession.
  rewrite Hparse. unfold bind, call, ret, logger_error, emit.
  rewrite Hloc, Hccv. cbn [app uploadElement].
  unfold readEditedElementContent, complexSignoutElement, updateTreeAfterSuccessfulSignout,
    safeRemoveUploadedElement, updateTreeAfterSuccessfulUpload, dispatch,
    bind, call, ret, logger_error, emit.
  repeat (cbn -[String.append];
          first [rewrite Hread0 | rewrite Hupd0 | rewrite Eask | rewrite Hn
                | rewrite Hso | rewrite Hread1 | rewrite Hupd1]).
  destruct au; repeat (cbn -[String.append];
          first [rewrite Hread0 | rewrite Hupd0 | rewrite Eask | rewrite Hn
                | rewrite Hso | rewrite Hread1 | rewrite Hupd1]);
    cbn -[String.append]; repeat break_match; cbn -[String.append]; repeat split; reflexivity.
Qed.

(** [path.dirname] never returns the empty string. *)
Lemma path_dirname_not_empty (p : string) : String.eqb (path_dirname p) EmptyString = false.
Proof.
  unfold path_dirname.
  destruct (list_ascii_of_string p) as [|first others]; [reflexivity|].
  destruct (dropWhile _ _) as [|slash [|c before]].
  - destruct (isSlash first); reflexivity.
  - destruct (isSlash first); reflexivity.
  - reflexivity.
Qed.

(** C1 (as amended).  When the first update call of an upload fails with
    a FingerprintMismatchError, the command asks to save the in-editor
    content as a local file named [<name of the upload target>-local-version]
    with the edited element's extension in the edit temp directory (the
    directory of the edited file).  If the file is saved, the conflict
    gateway is invoked once with the service, search location, change
    control value, the upload target (carrying the element's extension)
    and the path of the saved file of that upload; the edited element is
    not among its arguments.  No event is dispatched before the gateway
    has returned.  Once it has returned without error the command
    dispatches exactly one event, as its last step; for an upload in
    place this is the ELEMENT_UPDATED event of the edited element.  If
    the file cannot be saved, the gateway is not invoked; if the save or
    the gateway fails, no event is dispatched. *)
Theorem fingerprint_mismatch_stages_conflict
    (env : Env) (elementUri : Uri) (params : EditedElementUriQuery)
    (target : ElementMapPath) (ccv : ChangeControlValue)
    (content : string) (e : Error) (extraFuel : nat) :
  fromEditedElementUri env elementUri = Val params ->
  askForUploadLocation env = Some target ->
  askForChangeControlValue env = Some ccv ->
  getFileContent env 0 = Val content ->
  updateElement env 0 = Err e ->
  errorClass e = FingerprintMismatchError ->
  let run := uploadElementCommand env (S extraFuel) elementUri [] in
  fst run = Some tt
  /\ count isUpdate (snd run) = 1
  /\ filter isSaveFile (snd run)
     = [SaveFileIntoWorkspaceFolder (path_dirname (fsPath elementUri))
          (mp_name target ++ "-local-version") (extension (q_element params)) content]
  /\ match saveFileIntoWorkspaceFolder env 0 with
     | Val saved =>
         compareCalls (snd run)
         = [{| cmp_service := q_service params;
               cmp_searchLocation := q_searchLocation params;
               cmp_changeControl := ccv;
               cmp_element := withExtension target (extension (q_element params));
               cmp_serviceName := q_serviceName params;
               cmp_searchLocationName := q_searchLocationName params;
               cmp_localVersionPath := fsPath saved |}]
         /\ match compareElementWithRemoteVersion env 0 with
            | Val _ =>
                deletedFiles (snd run) = [elementUri]
                /\ (exists staged event,
                      snd run = (staged ++ [Dispatch event])%list
                      /\ count isCompare staged = 1 /\ dispatched staged = [])
                /\ (withExtension target (extension (q_element params)) = q_element params ->
                    dispatched (snd run)
                    = [{| a_type := ELEMENT_UPDATED;
                          a_serviceName := q_serviceName params;
                          a_service := q_service params;
                          a_searchLocationName := q_searchLocationName params;
                          a_searchLocation := q_searchLocation params;
                          a_elements := [q_element params] |}])
            | Err _ => deletedFiles (snd run) = [] /\ dispatched (snd run) = []
            end
     | Err _ =>
         compareCalls (snd run) = [] /\ deletedFiles (snd run) = []
         /\ dispatched (snd run) = []
     end.
Proof.
  intros Hparse Hloc Hccv Hread Hupd Hclass.
  destruct e as [c m]. cbn in Hclass. subst c.
  pose proof (path_dirname_not_empty (fsPath elementUri)) as Hdir.
  cbv zeta.
  unfold uploadElementCommand, askForUploadValues, closeEditSession.
  rewrite Hparse. unfold bind, call, ret, logger_error, emit.
  rewrite Hloc, Hccv. cbn [app uploadElement].
  unfold readEditedElementContent, saveLocalElementVersion, reopenEditSession,
    safeRemoveUploadedElement, updateTreeAfterSuccessfulUpload, dispatch,
    bind, call, ret, logger_error, emit.
  rewrite Hdir.
  repeat (cbn -[String.append path_dirname]; first [rewrite Hread | rewrite Hupd]).
  cbn -[String.append path_dirname].
  destruct (saveFileIntoWorkspaceFolder env 0) as [saved|se]; cbn -[String.append path_dirname].
  - destruct (compareElementWithRemoteVersion env 0) as [u|ce];
      cbn -[String.append path_dirname].
    + destruct (deleteFile env 0); cbn -[String.append path_dirname];
        (split; [reflexivity|]); (split; [reflexivity|]); (split; [reflexivity|]);
        (split; [reflexivity|]); (split; [reflexivity|]); split.
      * eexists [_; _; _; _; _; _; _; _]. eexists. repeat split; reflexivity.
      * intros _. reflexivity.
      * eexists [_; _; _; _; _; _; _; _; _]. eexists. repeat split; reflexivity.
      * intros _. reflexivity.
    + repeat split; reflexivity.
  - repeat split; reflexivity.
Qed.

Lemma fingerprint_mismatch_stages_conflict_witness :
  let run := uploadElementCommand Samples.conflictWorld 1 Samples.editedElementUri [] in
  fst run = Some tt
  /\ count isUpdate (snd run) = 1
  /\ filter isSaveFile (snd run)
     = [SaveFileIntoWorkspaceFolder "/some/temp" "ELM-local-version" "ext"
          Samples.editedElementContent]
  /\ compareCalls (snd run)
     = [{| cmp_service := Samples.service;
           cmp_searchLocation := Samples.preciseSearchLocation;
           cmp_changeControl := Samples.uploadChangeControlValue;
           cmp_element := Samples.element;
           cmp_serviceName := Samples.serviceName;
           cmp_searchLocationName := Samples.searchLocationName;
           cmp_localVersionPath := "/some/temp/ELM-local-version.ext" |}]
  /\ map a_type (dispatched (snd run)) = [ELEMENT_UPDATED].
Proof.
  pose proof (fingerprint_mismatch_stages_conflict Samples.conflictWorld
                Samples.editedElementUri Samples.editSessionParams Samples.uploadLocation
                Samples.uploadChangeControlValue Samples.editedElementContent
                Samples.fingerprintError 0
                eq_refl eq_refl eq_refl eq_refl eq_refl eq_refl) as H.
  cbv zeta in *. destruct H as (H1 & H2 & H3 & H4 & _ & _ & H7).
  rewrite (H7 eq_refl). repeat split; assumption.
Defined.

(** C1, as stated, fails.  After a fingerprint mismatch whose conflict
    was handed to the gateway, the command of the conflict test
    dispatches an event.  When the dialog gave a new name, the local
    version is named after the upload target, not after the edited
    element, and the gateway is given the upload target only: the edited
    element is not among its arguments.  And when the local version
    cannot be saved, the gateway is not invoked. *)
Lemma conflict_staging_dispatches_an_event :
  let t := snd (uploadElementCommand Samples.conflictWorld 1 Samples.editedElementUri []) in
  let renamed :=
    snd (uploadElementCommand Samples.renamedConflictWorld 1 Samples.editedElementUri []) in
  let unsaved :=
    snd (uploadElementCommand Samples.unsavedConflictWorld 1 Samples.editedElementUri []) in
  isFingerprintMismatchError (updateElement Samples.conflictWorld 0) = true
  /\ count isUpdate t = 1
  /\ count isCompare t = 1
  /\ map a_type (dispatched t) = [ELEMENT_UPDATED]
  /\ isFingerprintMismatchError (updateElement Samples.renamedConflictWorld 0) = true
  /\ name Samples.element = "ELM"
  /\ filter isSaveFile renamed
     = [SaveFileIntoWorkspaceFolder "/some/temp" "NEW-ELM-local-version" "ext"
          Samples.editedElementContent]
  /\ map (fun args => name (cmp_element args)) (compareCalls renamed) = ["NEW-ELM"]
  /\ count isDispatch renamed = 1
  /\ isFingerprintMismatchError (updateElement Samples.unsavedConflictWorld 0) = true
  /\ count isSaveFile unsaved = 1
  /\ count isCompare unsaved = 0.
Proof. cbn. repeat split; reflexivity. Qed.

(** C2, as stated, fails: on the conflict-staging path of the same run the
    temp file is deleted although no update was committed. *)
Lemma conflict_staging_deletes_the_temp_file :
  let t := snd (uploadElementCommand Samples.conflictWorld 1 Samples.editedElementUri []) in
  isFingerprintMismatchError (updateElement Samples.conflictWorld 0) = true
  /\ count isUpdate t = 1
  /\ deletedFiles t = [Samples.editedElementUri].
Proof. cbn. repeat split; reflexivity. Qed.

(** C4, as stated, fails.  When the retried update meets a sign-out
    error again, the sign-out path is taken a second time and a third
    update call is made within the same invocation.  And when the edited
    file cannot be read again after a successful sign-out, no additional
    update call is made. *)
Lemma signout_path_is_taken_twice :
  let run := uploadElementCommand Samples.contendedWorld 3 Samples.editedElementUri [] in
  let unread := uploadElementCommand Samples.rereadFailsWorld 2 Samples.editedElementUri [] in
  fst run = Some tt
  /\ count isUpdate (snd run) = 3
  /\ count isSignOut (snd run) = 2
  /\ count isAskToSignOut (snd run) = 2
  /\ fst unread = Some tt
  /\ count (isDispatchOf ELEMENT_SIGNEDOUT) (snd unread) = 1
  /\ count isGetFileContent (snd unread) = 2
  /\ count isUpdate (snd unread) = 1.
Proof. cbn. repeat split; reflexivity. Qed.

(** C3 at the failing input: uploading to the new name NEW-ELM dispatches
    a single ELEMENT_UPDATED event carrying the edited element ELM, not an
    ELEMENT_ADDED event carrying the new element. *)
Theorem upload_of_new_element_dispatches_updated :
  let run := uploadElementCommand Samples.newElementWorld 1 Samples.editedElementUri [] in
  fst run = Some tt
  /\ filter isUpdate (snd run)
     = [UpdateElement Samples.service
          (withExtension Samples.newUploadLocation "ext")
          Samples.uploadChangeControlValue Samples.elementFingerprint
          Samples.editedElementContent]
  /\ dispatched (snd run)
     = [{| a_type := ELEMENT_UPDATED;
           a_serviceName := Samples.serviceName;
           a_service := Samples.service;
           a_searchLocationName := Samples.searchLocationName;
           a_searchLocation := Samples.preciseSearchLocation;
           a_elements := [Samples.element] |}]
  /\ count (isDispatchOf ELEMENT_ADDED) (snd run) = 0.
Proof. cbn. repeat split; reflexivity. Qed.

Lemma signout_then_clean_retry_witness :
  let run := uploadElementCommand Samples.signoutWorld 2 Samples.editedElementUri [] in
  fst run = Some tt
  /\ count isUpdate (snd run) = 2
  /\ count isSignOut (snd run) = 1
  /\ count isOverrideSignOut (snd run) = 0
  /\ map a_type (dispatched (snd run)) = [ELEMENT_SIGNEDOUT; ELEMENT_UPDATED].
Proof.
  pose proof (signout_then_clean_retry Samples.signoutWorld Samples.editedElementUri
                Samples.editSessionParams Samples.uploadLocation
                Samples.uploadChangeControlValue Samples.editedElementContent
                Samples.editedElementContent Samples.signoutError 0
                eq_refl eq_refl eq_refl eq_refl eq_refl eq_refl (or_introl eq_refl)
                eq_refl eq_refl eq_refl) as H.
  cbv zeta in *. destruct H as (H1 & H2 & H3 & H4 & H5).
  rewrite H5. repeat split; assumption.
Defined.

Lemma cancelled_dialog_stops_upload_witness :
  exists t msg,
    uploadElementCommand Samples.cancelledChangeControlWorld 1 Samples.editedElementUri []
    = (Some tt, t)
    /\ loggedErrors t = [msg]
    /\ msg = "CCID and Comment must be specified to upload the element ELM."
    /\ count isRemoteCall t = 0
    /\ dispatched t = [].
Proof.
  destruct (cancelled_dialog_stops_upload Samples.cancelledChangeControlWorld 1
              Samples.editedElementUri Samples.editSessionParams eq_refl
              (or_intror (conj (ex_intro _ Samples.uploadLocation eq_refl) eq_refl)))
    as (t & msg & H1 & H2 & _ & H4 & H5 & H6 & _).
  exists t, msg. repeat split; try assumption.
  apply (H4 Samples.uploadLocation eq_refl).
Defined.

Lemma override_failure_reports_first_signout_error_witness :
  fst (complexSignoutElement Samples.failedOverrideWorld Samples.service
         Samples.preciseSearchLocation Samples.serviceName Samples.searchLocationName
         Samples.element Samples.uploadChangeControlValue [])
  = Err (newError
           "Unable to perform an override signout of the element ELM because of error something").
Proof.
  apply (override_failure_reports_first_signout_error Samples.failedOverrideWorld
           Samples.service Samples.preciseSearchLocation Samples.serviceName
           Samples.searchLocationName Samples.element Samples.uploadChangeControlValue []
           Samples.signoutError Samples.overrideError
           (or_introl eq_refl) eq_refl eq_refl eq_refl eq_refl).
Defined.

(** No run of the upload command dispatches an ELEMENT_ADDED event. *)
Lemma upload_never_dispatches_added (env : Env) (fuel : nat) (elementUri : Uri) :
  count (isDispatchOf ELEMENT_ADDED) (snd (uploadElementCommand env fuel elementUri [])) = 0.
Proof.
  assert (Hsplit : forall l, count (isDispatchOf ELEMENT_ADDED) l
                             + count (isDispatchOf ELEMENT_SIGNEDOUT) l <= count isDispatch l).
  { unfold count. induction l as [|x l IH]; cbn; [lia|].
    destruct x; cbn; try lia. destruct (a_type a); cbn; lia. }
  assert (Hnil : forall l, dispatched l = [] -> count isDispatch l = 0).
  { unfold count. induction l as [|x l IH]; cbn; [reflexivity|].
    destruct x; cbn; auto. discriminate. }
  destruct (uploadElementCommand_cases env fuel elementUri) as [H|H]; cbv zeta in *.
  - destruct H as (_ & _ & _ & _ & _ & _ & _ & _ & Hd & _).
    pose proof (Hsplit (snd (uploadElementCommand env fuel elementUri []))). lia.
  - destruct H as (params & target & ccv & t0 & r & l & tail & _ & _ & _ & _ & _ & H0
                   & _ & _ & _ & _ & _ & _ & _ & _ & _ & R & -> & _ & Hout & _).
    destruct R. rewrite !count_app.
    pose proof (Hsplit t0). pose proof (Hsplit l). pose proof (Hnil _ H0).
    assert (count (isDispatchOf ELEMENT_ADDED) tail = 0).
    { destruct r as [[u|e]|].
      - destruct Hout as [_ Hd]. clear - Hd. unfold count.
        induction tail as [|x tl IH]; cbn in *; [reflexivity|].
        destruct x; cbn in *; auto. injection Hd as -> Hd. cbn.
        clear IH. induction tl as [|y tl IH]; cbn in *; [reflexivity|].
        destruct y; cbn in *; auto. discriminate.
      - destruct Hout as (_ & Hd & _). pose proof (Hsplit tail). pose proof (Hnil _ Hd). lia.
      - subst tail. reflexivity. }
    lia.
Qed.

Section Termination.
Variable env : Env.
Variables (service : Service) (searchLocation : ElementSearchLocation)
  (serviceName : EndevorServiceName) (searchLocationName : ElementLocationName)
  (element : Element) (ccv : ChangeControlValue) (elementFilePath fingerprint : string).

(** [uploadElement] returns as soon as an update call is answered by
    anything but a sign-out error: fuel beyond the index of that call is
    enough. *)
Lemma uploadElement_returns (k : nat) :
  forall t j,
    j <= k ->
    isSignoutError (updateElement env (count isUpdate t + j)) = false ->
    fst (uploadElement env (S k) service searchLocation serviceName searchLocationName
           element ccv elementFilePath fingerprint t) <> None.
Proof.
  induction k as [|k IH]; intros t j Hj Hlast.
  - assert (j = 0) by lia. subst j. rewrite Nat.add_0_r in Hlast.
    cbn [uploadElement]. unfold readEditedElementContent, bind, call, ret.
    destruct (getFileContent env _); [|cbn; discriminate].
    assert (Hc : count isUpdate (t ++ [GetFileContent elementFilePath])%list = count isUpdate t)
      by (rewrite count_app; cbn; lia).
    rewrite Hc, Hlast.
    unfold saveLocalElementVersion, call, ret.
    repeat (break_match; cbn [fst snd]); discriminate.
  - remember (S k) as fuel'. cbn [uploadElement]. unfold readEditedElementContent, bind, call, ret.
    destruct (getFileContent env _); [|cbn; discriminate].
    assert (Hc : count isUpdate (t ++ [GetFileContent elementFilePath])%list = count isUpdate t)
      by (rewrite count_app; cbn; lia).
    rewrite Hc.
    destruct (isSignoutError (updateElement env (count isUpdate t))) eqn:Eso.
    + match goal with
      | |- context [complexSignoutElement env ?a ?b ?c ?d ?e ?f ?t2] =>
          destruct (complexSignoutElement_round env a b c d e f t2) as [l1 [Hl1 R1]];
          destruct (complexSignoutElement env a b c d e f t2) as [sr t3] eqn:Ecs
      end.
      cbn [fst snd] in Hl1, R1. subst t3. destruct sr as [u|e']; [|cbn; discriminate].
      destruct j as [|j]; [rewrite Nat.add_0_r in Hlast; congruence|].
      subst fuel'. apply (IH _ j); [lia|].
      destruct R1. rewrite !count_app, sr_updates0. cbn.
      replace (count isUpdate t + 0 + 1 + 0 + j) with (count isUpdate t + S j) by lia.
      exact Hlast.
    + unfold saveLocalElementVersion, call, ret.
      repeat (break_match; cbn [fst snd]); discriminate.
Qed.

End Termination.


(** The command returns as soon as one update call is answered by
    anything but a sign-out error. *)
Lemma uploadElementCommand_returns (env : Env) (elementUri : Uri) (k j : nat) :
  j <= k ->
  isSignoutError (updateElement env j) = false ->
  fst (uploadElementCommand env (S k) elementUri []) <> None.
Proof.
  intros Hj Hlast. unfold uploadElementCommand.
  destruct (fromEditedElementUri env elementUri) as [params|e]; [|cbn; discriminate].
  unfold askForUploadValues, bind, call, ret, logger_error, emit.
  destruct (askForUploadLocation env) as [target|]; [|cbn; discriminate].
  destruct (askForChangeControlValue env) as [ccv|]; [|cbn; discriminate].
  unfold closeEditSession, emit. cbn [app].
  match goal with
  | |- context [uploadElement env (S k) ?a ?b ?c ?d ?e ?f ?g ?h ?t0] =>
      pose proof (uploadElement_returns env a b c d e f g h k t0 j Hj Hlast) as Hret;
      destruct (uploadElement env (S k) a b c d e f g h t0) as [r t'] eqn:Erun
  end.
  cbn [fst] in Hret. destruct r as [[u|e]|]; [| |congruence].
  - unfold safeRemoveUploadedElement, updateTreeAfterSuccessfulUpload, dispatch, bind,
      call, ret, logger_error, emit.
    destruct (deleteFile env _); cbn; discriminate.
  - unfold reopenEditSession, bind, call, ret, logger_error, emit. cbn. discriminate.
Qed.

(** The number of sign-out rounds of one invocation is not bounded: in
    the world whose first [k] updates meet a sign-out error, the command
    makes [k + 1] update calls. *)
Lemma contended_upload_updates (k : nat) service searchLocation serviceName
    searchLocationName element ccv elementFilePath fingerprint :
  forall j t,
    j <= k -> count isUpdate t = k - j ->
    count isUpdate
      (snd (uploadElement (Samples.contendedWorldN k) (S j) service searchLocation
              serviceName searchLocationName element ccv elementFilePath fingerprint t))
    = S k
    /\ fst (uploadElement (Samples.contendedWorldN k) (S j) service searchLocation
              serviceName searchLocationName element ccv elementFilePath fingerprint t)
       = Some (Val tt).
Proof.
  induction j as [|j IH]; intros t Hj Ht.
  - cbn [uploadElement]. unfold readEditedElementContent, bind, call, ret. cbn -[Nat.ltb].
    assert (Hc : count isUpdate (t ++ [GetFileContent elementFilePath])%list = k)
      by (rewrite count_app; cbn; lia).
    rewrite Hc, Nat.ltb_irrefl.
    cbn [fst snd isSignoutError isFingerprintMismatchError].
    split; [rewrite !count_app; cbn; lia|reflexivity].
  - remember (S j) as fuel eqn:Efuel.
    cbn [uploadElement]. unfold readEditedElementContent, bind, call, ret. cbn -[Nat.ltb].
    assert (Hc : count isUpdate (t ++ [GetFileContent elementFilePath])%list = k - S j)
      by (rewrite count_app; cbn; lia).
    assert (Hlt : (k - S j <? k)%nat = true) by (apply Nat.ltb_lt; lia).
    rewrite Hc, Hlt. cbn -[Nat.ltb uploadElement].
    unfold complexSignoutElement, updateTreeAfterSuccessfulSignout, dispatch, bind, call,
      ret, emit. cbn -[Nat.ltb uploadElement].
    subst fuel. apply IH; [lia|].
    rewrite !count_app. cbn. lia.
Qed.

Lemma signout_rounds_are_unbounded (k : nat) :
  let run := uploadElementCommand (Samples.contendedWorldN k) (S k) Samples.editedElementUri [] in
  fst run = Some tt /\ count isUpdate (snd run) = S k.
Proof.
  cbv zeta. unfold uploadElementCommand. cbn [Samples.contendedWorldN Samples.world
    fromEditedElementUri]. unfold askForUploadValues, closeEditSession, bind, call, ret, emit.
  cbn [askForUploadLocation askForChangeControlValue Samples.contendedWorldN Samples.world app].
  match goal with
  | |- context [uploadElement ?w (S k) ?a ?b ?c ?d ?e ?f ?g ?h ?t0] =>
      destruct (contended_upload_updates k a b c d e f g h k t0 (le_n k)) as [Hc Hr];
      [cbn; lia|];
      destruct (uploadElement w (S k) a b c d e f g h t0) as [r t'] eqn:Erun
  end.
  cbn [fst snd] in Hc, Hr. subst r.
  unfold safeRemoveUploadedElement, updateTreeAfterSuccessfulUpload, dispatch, bind, call,
    ret, emit. cbn [deleteFile Samples.contendedWorldN Samples.world fst snd].
  split; [reflexivity|]. rewrite !count_app, Hc. cbn. lia.
Qed.

(** *** The batch edit *)

Lemma append_assoc (a b c : string) : (a ++ b) ++ c = a ++ b ++ c.
Proof. induction a as [|x a IH]; cbn; [reflexivity|]. rewrite IH. reflexivity. Qed.

Lemma append_nil_r (a : string) : a ++ EmptyString = a.
Proof. induction a as [|x a IH]; cbn; [reflexivity|]. rewrite IH. reflexivity. Qed.




Lemma indexed_eq {A} (l : list A) : indexed l = indexedFrom 0 l.
Proof. reflexivity. Qed.

Lemma indexedFrom_cons {A} n (a : A) l :
  indexedFrom n (a :: l) = (n, a) :: indexedFrom (S n) l.
Proof. reflexivity. Qed.

Lemma indexedFrom_map {A B} (f : A -> B) (l : list A) :
  forall n, indexedFrom n (map f l) = map (fun p => (fst p, f (snd p))) (indexedFrom n l).
Proof.
  induction l as [|a l IH]; intros n; [reflexivity|].
  cbn [map]. rewrite !indexedFrom_cons. cbn [map fst snd]. rewrite IH. reflexivity.
Qed.


Lemma mapM_stateless {A B} (f : A -> M B) g h :
  Stateless f g h ->
  forall l t, mapM f l t = (map g l, (t ++ flat_map h l)%list).
Proof.
  intros Hf. induction l as [|a l IH]; intros t; cbn.
  - unfold ret. rewrite app_nil_r. reflexivity.
  - unfold bind. rewrite Hf, IH. unfold ret. rewrite <- app_assoc. reflexivity.
Qed.

Section EditProofs.
Variable env : EditEnv.

Lemma retrieveTask_stateless : Stateless (retrieveTask env) (retrieved env) retrieveCalls.
Proof.
  intros [i [q|e]] t; cbn; unfold ret, call; cbn; rewrite ?app_nil_r; reflexivity.
Qed.

Lemma saveTask_stateless workspaceUri :
  Stateless (saveTask env workspaceUri) (saved env) (saveCalls workspaceUri).
Proof.
  intros [i [[q c]|e]] t; cbn; unfold ret, bind, call; cbn; rewrite ?app_nil_r;
    [destruct (saveIntoEditFolder env i)|]; reflexivity.
Qed.

Lemma showTask_stateless : Stateless (showTask env) (shown env) showCalls.
Proof.
  intros [i [[u|]|e]] t; cbn; unfold ret, call; cbn; rewrite ?app_nil_r; reflexivity.
Qed.

Lemma combine_retrieveResults (l : list TreeNode) :
  forall n,
    indexedFrom n
      (map (fun p => retrieveResult (fst p) (snd p))
         (combine (map (parsed env) l) (map (retrieved env) (indexedFrom n (map (parsed env) l)))))
    = map (fun task =>
             (fst task,
              retrieveResult ((parsed env) (snd task)) ((retrieved env) (fst task, (parsed env) (snd task)))))
          (indexedFrom n l).
Proof.
  induction l as [|a l IH]; intros n; [reflexivity|].
  cbn [map]. rewrite !indexedFrom_cons. cbn [map combine fst snd].
  rewrite indexedFrom_cons. f_equal. apply IH.
Qed.

Lemma editPhases_run (workspaceUri : Uri) (elements : list TreeNode) (t : Trace) :
  editPhases env workspaceUri elements t
  = (map (isolatedOutcome env) (indexed elements),
     (t ++ flat_map retrieveCalls (indexed (map (parsed env) elements))
        ++ flat_map (saveCalls workspaceUri)
             (map (fun task =>
                     (fst task,
                      retrieveResult ((parsed env) (snd task))
                        ((retrieved env) (fst task, (parsed env) (snd task)))))
                  (indexed elements))
        ++ flat_map showCalls (map (fun task => (fst task, (savedOf env) task)) (indexed elements)))%list).
Proof.
  unfold editPhases, bind, elementUris. fold parsed.
  change (map (fun element : TreeNode => (parsed env) element) elements) with (map (parsed env) elements).
  rewrite !indexed_eq.
  rewrite (mapM_stateless _ _ _ retrieveTask_stateless).
  rewrite indexed_eq, combine_retrieveResults.
  rewrite (mapM_stateless _ _ _ (saveTask_stateless workspaceUri)).
  rewrite indexed_eq.
  rewrite (mapM_stateless _ _ _ showTask_stateless).
  assert (Hsaved :
    indexedFrom 0
      (map (saved env)
         (map (fun task => (fst task, retrieveResult ((parsed env) (snd task))
                                        ((retrieved env) (fst task, (parsed env) (snd task)))))
              (indexedFrom 0 elements)))
    = map (fun task => (fst task, (savedOf env) task)) (indexedFrom 0 elements)).
  { generalize 0. induction elements as [|a l IH]; intros n; [reflexivity|].
    rewrite !indexedFrom_cons. cbn [map]. rewrite indexedFrom_cons. cbn [fst snd].
    f_equal. apply IH. }
  rewrite Hsaved. rewrite !map_map. rewrite <- !app_assoc.
  f_equal.
  apply map_ext. intros [i el]. unfold shown, savedOf, saved, retrieved, parsed, retrieveResult,
    isolatedOutcome. cbn [fst snd].
  destruct (fromTreeElementUri env (node_uri el)); [|reflexivity].
  destruct (retrieveElementWithFingerprint env i); [|reflexivity].
  destruct (saveIntoEditFolder env i); [|reflexivity].
  destruct (withUploadOptions env i); reflexivity.
Qed.

End EditProofs.






(** *** UTF-8 text *)

Lemma utf8Step_ok (pending pending' : list (nat * nat)) (octet : nat) :
  pendingOk pending = true -> utf8Step pending octet = Some pending' ->
  pendingOk pending' = true.
Proof.
  destruct pending as [|[lo hi] pending]; cbn [utf8Step].
  - intros _. unfold continuationRanges.
    repeat match goal with
           | |- context [if ?b then _ else _] => destruct b
           end; intros [= <-]; reflexivity.
  - cbn [pendingOk forallb]. intros H. apply andb_true_iff in H. destruct H as [_ H].
    destruct (within octet lo hi); intros [= <-]. exact H.
Qed.

(** No octet below 128 continues a sequence. *)
Lemma utf8Step_ascii (pending pending' : list (nat * nat)) (octet : nat) :
  pendingOk pending = true -> octet < 128 -> utf8Step pending octet = Some pending' ->
  pending = [] /\ pending' = [].
Proof.
  destruct pending as [|[lo hi] pending]; cbn [utf8Step].
  - intros _ Hlt. unfold continuationRanges.
    destruct (Nat.ltb_spec octet 128); [|lia]. intros [= <-]. split; reflexivity.
  - cbn [pendingOk forallb fst snd]. intros H Hlt. apply andb_true_iff in H.
    destruct H as [H _]. apply andb_true_iff in H. destruct H as [H _].
    apply Nat.leb_le in H. unfold within.
    destruct (Nat.leb_spec lo octet); [lia|]. cbn. discriminate.
Qed.

Lemma validFrom_app (a : string) :
  forall (pending : list (nat * nat)) (b : string),
    validFrom pending a = true -> validFrom pending (a ++ b) = validFrom [] b.
Proof.
  induction a as [|c a IH]; intros pending b H; cbn [validFrom append] in *.
  - destruct pending; [reflexivity|discriminate].
  - destruct (utf8Step pending (nat_of_ascii c)); [apply IH; exact H|discriminate].
Qed.

Lemma validUtf8_app (a b : string) :
  validUtf8 a = true -> validUtf8 b = true -> validUtf8 (a ++ b) = true.
Proof. unfold validUtf8. intros Ha Hb. rewrite (validFrom_app a [] b Ha). exact Hb. Qed.

Lemma validUtf8_concat (sep : string) (l : list string) :
  validUtf8 sep = true -> forallb validUtf8 l = true ->
  validUtf8 (String.concat sep l) = true.
Proof.
  intros Hsep. induction l as [|x l IH]; [reflexivity|].
  cbn [forallb]. intros H. apply andb_true_iff in H. destruct H as [Hx Hl].
  destruct l as [|y l]; [exact Hx|].
  change (String.concat sep (x :: y :: l)) with (x ++ sep ++ String.concat sep (y :: l)).
  apply validUtf8_app; [exact Hx|]. apply validUtf8_app; [exact Hsep|]. exact (IH Hl).
Qed.

(** *** Percent-encoding *)

Lemma encodeChar_unreserved (c : ascii) :
  isUriUnreserved c = true ->
  encodeChar c = String c EmptyString /\ (nat_of_ascii c <? 128)%nat = true
  /\ Ascii.eqb c "%" = false.
Proof.
  destruct c as [[] [] [] [] [] [] [] []]; intros H; vm_compute in H; try discriminate H;
    repeat split; reflexivity.
Qed.

Lemma percentDecode_encodeChar (c : ascii) (pending : list (nat * nat)) (rest : string) :
  isUriUnreserved c = false ->
  percentDecode pending (encodeChar c ++ rest)
  = match utf8Step pending (nat_of_ascii c) with
    | Some pending' => option_map (String c) (percentDecode pending' rest)
    | None => None
    end.
Proof.
  destruct c as [[] [] [] [] [] [] [] []]; intros H; vm_compute in H; try discriminate H;
    reflexivity.
Qed.

Lemma percentDecode_encode (s : string) :
  forall pending,
    pendingOk pending = true -> validFrom pending s = true ->
    percentDecode pending (encodeURIComponent s) = Some s.
Proof.
  induction s as [|c s IH]; intros pending Hok Hvalid; cbn [validFrom] in Hvalid.
  - destruct pending; [reflexivity|discriminate].
  - cbn [encodeURIComponent].
    destruct (utf8Step pending (nat_of_ascii c)) as [pending'|] eqn:Estep; [|discriminate].
    destruct (isUriUnreserved c) eqn:Eu.
    + destruct (encodeChar_unreserved c Eu) as (-> & Hlt & Hne).
      apply Nat.ltb_lt in Hlt.
      destruct (utf8Step_ascii _ _ _ Hok Hlt Estep) as [-> ->].
      cbn [append percentDecode]. rewrite Hne, (IH [] eq_refl Hvalid). reflexivity.
    + rewrite (percentDecode_encodeChar c pending _ Eu), Estep.
      rewrite (IH pending' (utf8Step_ok _ _ _ Hok Estep) Hvalid). reflexivity.
Qed.

Lemma decodeURIComponent_encodeURIComponent (s : string) :
  validUtf8 s = true -> decodeURIComponent (encodeURIComponent s) = Returns s.
Proof.
  intros H. unfold decodeURIComponent. rewrite (percentDecode_encode s [] eq_refl H).
  reflexivity.
Qed.

(** *** Surrogate pairs *)

Lemma joinSurrogates_step (c : ascii) (s : string) (pending : list (nat * nat)) :
  pendingOk pending = true -> validFrom pending (String c s) = true ->
  joinSurrogates (String c s) = String c (joinSurrogates s).
Proof.
  intros Hok Hvalid. cbn [joinSurrogates].
  destruct s as [|c2 [|c3 [|c4 [|c5 [|c6 rest]]]]]; try reflexivity.
  destruct (isHighSurrogate c c2 c3) eqn:Eh; [|reflexivity]. exfalso.
  unfold isHighSurrogate in Eh. apply andb_true_iff in Eh. destruct Eh as [Eh _].
  apply andb_true_iff in Eh. destruct Eh as [E1 E2]. apply Nat.eqb_eq in E1.
  cbn [validFrom] in Hvalid. rewrite E1 in Hvalid.
  destruct pending as [|[lo hi] pending].
  - cbn in Hvalid. unfold within in E2, Hvalid. apply andb_true_iff in E2.
    destruct E2 as [E2 _]. apply Nat.leb_le in E2.
    destruct (Nat.leb_spec (nat_of_ascii c2) 159); [lia|].
    rewrite andb_false_r in Hvalid. discriminate.
  - cbn [pendingOk forallb fst snd] in Hok. apply andb_true_iff in Hok.
    destruct Hok as [Hok _]. apply andb_true_iff in Hok. destruct Hok as [_ Hhi].
    apply Nat.leb_le in Hhi. cbn [utf8Step] in Hvalid. unfold within in Hvalid.
    destruct (Nat.leb_spec 237 hi); [lia|]. rewrite andb_false_r in Hvalid. discriminate.
Qed.

Lemma joinSurrogates_valid (s : string) :
  forall pending,
    pendingOk pending = true -> validFrom pending s = true -> joinSurrogates s = s.
Proof.
  induction s as [|c s IH]; intros pending Hok Hvalid; [reflexivity|].
  rewrite (joinSurrogates_step c s pending Hok Hvalid).
  cbn [validFrom] in Hvalid.
  destruct (utf8Step pending (nat_of_ascii c)) as [pending'|] eqn:Estep; [|discriminate].
  rewrite (IH pending' (utf8Step_ok _ _ _ Hok Estep) Hvalid). reflexivity.
Qed.

(** *** [JSON.parse] after [JSON.stringify] *)

Lemma string_length_app (a b : string) :
  String.length (a ++ b) = String.length a + String.length b.
Proof. induction a as [|x a IH]; cbn; [reflexivity|]. rewrite IH. reflexivity. Qed.

Lemma parseChars_escapeChar (c : ascii) (rest : string) :
  parseChars (escapeChar c ++ rest) = prepend (String c EmptyString) (parseChars rest).
Proof.
  destruct c as [[] [] [] [] [] [] [] []]; reflexivity.
Qed.

Lemma parseChars_escapeString (s rest : string) :
  parseChars (escapeString s ++ String dquote rest) = Some (s, rest).
Proof.
  induction s as [|c s IH]; [reflexivity|].
  cbn [escapeString]. rewrite append_assoc, parseChars_escapeChar, IH. reflexivity.
Qed.

Lemma parseString_escapeString (s rest : string) :
  validUtf8 s = true ->
  parseString (escapeString s ++ String dquote rest) = Some (s, rest).
Proof.
  intros H. unfold parseString. rewrite parseChars_escapeString.
  rewrite (joinSurrogates_valid s [] eq_refl H). reflexivity.
Qed.

Lemma quoteJSONString_app (s rest : string) :
  quoteJSONString s ++ rest = String dquote (escapeString s ++ String dquote rest).
Proof.
  unfold quoteJSONString. cbn [append]. rewrite append_assoc. reflexivity.
Qed.

(** What [JSON.stringify] writes is UTF-8 text. *)

Lemma escapeChar_ascii (c : ascii) (rest : string) :
  (nat_of_ascii c <? 128)%nat = true ->
  validFrom [] (escapeChar c ++ rest) = validFrom [] rest.
Proof.
  destruct c as [[] [] [] [] [] [] [] []]; intros H; vm_compute in H; try discriminate H;
    reflexivity.
Qed.

Lemma escapeChar_other (c : ascii) :
  (nat_of_ascii c <? 128)%nat = false -> escapeChar c = String c EmptyString.
Proof.
  destruct c as [[] [] [] [] [] [] [] []]; intros H; vm_compute in H; try discriminate H;
    reflexivity.
Qed.

Lemma escapeString_valid (s : string) :
  forall pending,
    pendingOk pending = true -> validFrom pending s = true ->
    validFrom pending (escapeString s) = true.
Proof.
  induction s as [|c s IH]; intros pending Hok Hvalid; [exact Hvalid|].
  cbn [validFrom] in Hvalid. cbn [escapeString].
  destruct (utf8Step pending (nat_of_ascii c)) as [pending'|] eqn:Estep; [|discriminate].
  destruct (nat_of_ascii c <? 128)%nat eqn:Elt.
  - pose proof Elt as Hlt. apply Nat.ltb_lt in Hlt.
    destruct (utf8Step_ascii _ _ _ Hok Hlt Estep) as [-> ->].
    rewrite (escapeChar_ascii c _ Elt). apply (IH [] eq_refl Hvalid).
  - rewrite (escapeChar_other c Elt). cbn [append validFrom]. rewrite Estep.
    apply (IH pending' (utf8Step_ok _ _ _ Hok Estep) Hvalid).
Qed.

Lemma quoteJSONString_valid (s : string) :
  validUtf8 s = true -> validUtf8 (quoteJSONString s) = true.
Proof.
  intros H. unfold quoteJSONString, validUtf8.
  change (validFrom [] (String dquote (escapeString s ++ String dquote EmptyString)))
    with (validFrom [] (escapeString s ++ String dquote EmptyString)).
  rewrite (validFrom_app (escapeString s) [] _ (escapeString_valid s [] eq_refl H)).
  reflexivity.
Qed.

Lemma string_of_uint_valid (d : Decimal.uint) (rest : string) :
  validFrom [] (NilEmpty.string_of_uint d ++ rest) = validFrom [] rest.
Proof. induction d; cbn [NilEmpty.string_of_uint append]; [reflexivity|..]; exact IHd. Qed.

Lemma printInt_valid (n : Z) : validUtf8 (printInt n) = true.
Proof.
  unfold validUtf8, printInt.
  assert (H : forall d, validFrom [] (NilZero.string_of_uint d) = true).
  { intros d. unfold NilZero.string_of_uint.
    destruct d; try reflexivity;
      rewrite <- (append_nil_r (NilEmpty.string_of_uint _)), string_of_uint_valid;
      reflexivity. }
  destruct (Z.to_int n) as [d|d]; cbn [NilZero.string_of_int]; [apply H|].
  cbn [validFrom]. cbn. apply H.
Qed.

Section JsValueInduction.
Variable P : JsValue -> Prop.
Hypothesis Pnull : P JNull.
Hypothesis Pbool : forall b, P (JBool b).
Hypothesis Pnumber : forall n, P (JNumber n).
Hypothesis Pdouble : forall shown, P (JDouble shown).
Hypothesis Pstring : forall s, P (JString s).
Hypothesis Parray : forall l, Forall P l -> P (JArray l).
Hypothesis Pobject : forall l, Forall (fun kv => P (snd kv)) l -> P (JObject l).

Fixpoint JsValue_nested_ind (v : JsValue) : P v :=
  match v with
  | JNull => Pnull
  | JBool b => Pbool b
  | JNumber n => Pnumber n
  | JDouble shown => Pdouble shown
  | JString s => Pstring s
  | JArray l =>
      Parray l
        ((fix go (l : list JsValue) : Forall P l :=
            match l with
            | [] => Forall_nil _
            | x :: l' => Forall_cons _ (JsValue_nested_ind x) (go l')
            end) l)
  | JObject l =>
      Pobject l
        ((fix go (l : list (string * JsValue)) : Forall (fun kv => P (snd kv)) l :=
            match l with
            | [] => Forall_nil _
            | (k, x) :: l' => Forall_cons (k, x) (JsValue_nested_ind x) (go l')
            end) l)
  end.
End JsValueInduction.

Lemma JSON_stringify_valid (v : JsValue) :
  wellFormed v = true -> validUtf8 (JSON_stringify v) = true.
Proof.
  induction v as [|b|n|shown|s|l IH|l IH] using JsValue_nested_ind; intros Hwf.
  - reflexivity.
  - destruct b; reflexivity.
  - apply printInt_valid.
  - discriminate.
  - apply quoteJSONString_valid. exact Hwf.
  - cbn [JSON_stringify]. apply validUtf8_app; [reflexivity|].
    apply validUtf8_app; [|reflexivity]. apply validUtf8_concat; [reflexivity|].
    cbn [wellFormed] in Hwf. clear - IH Hwf.
    induction l as [|x l IHl]; [reflexivity|].
    inversion IH as [|? ? Hx Hl]; subst. cbn [forallb] in Hwf.
    apply andb_true_iff in Hwf. destruct Hwf as [Hwx Hwl].
    cbn [map forallb]. rewrite (Hx Hwx), (IHl Hl Hwl). reflexivity.
  - cbn [JSON_stringify]. apply validUtf8_app; [reflexivity|].
    apply validUtf8_app; [|reflexivity]. apply validUtf8_concat; [reflexivity|].
    cbn [wellFormed] in Hwf. apply andb_true_iff in Hwf. destruct Hwf as [Hkeys Hwf].
    apply andb_true_iff in Hkeys. destruct Hkeys as [Hkeys _].
    apply andb_true_iff in Hkeys. destruct Hkeys as [Hkeys _].
    clear - IH Hwf Hkeys.
    induction l as [|[k x] l IHl]; [reflexivity|].
    inversion IH as [|? ? Hx Hl]; subst. cbn [forallb map fst snd] in Hwf, Hkeys, Hx.
    apply andb_true_iff in Hwf. destruct Hwf as [Hwx Hwl].
    apply andb_true_iff in Hkeys. destruct Hkeys as [Hk Hkl].
    cbn [map forallb fst snd]. rewrite (IHl Hl Hkl Hwl), andb_true_r.
    apply validUtf8_app; [apply quoteJSONString_valid; exact Hk|].
    apply validUtf8_app; [reflexivity|exact (Hx Hwx)].
Qed.

(** Integers *)

Lemma delimited_cons (c : ascii) (rest : string) :
  continuesNumber c = false -> delimited (String c rest).
Proof. intros H (c' & r & E & Hc). injection E as <- <-. congruence. Qed.

Lemma delimited_empty : delimited EmptyString.
Proof. intros (c & r & E & _). discriminate. Qed.

Lemma delimited_head (c : ascii) (rest : string) :
  delimited (String c rest) -> continuesNumber c = false.
Proof.
  intros H. destruct (continuesNumber c) eqn:E; [|reflexivity].
  exfalso. apply H. exists c, rest. auto.
Qed.

Lemma spanDigits_stop (rest : string) : delimited rest -> spanDigits rest = (EmptyString, rest).
Proof.
  destruct rest as [|c r]; [reflexivity|]. intros H. apply delimited_head in H.
  unfold continuesNumber in H. cbn [spanDigits].
  destruct (isDigit c); [discriminate|reflexivity].
Qed.

Lemma spanDigits_uint (d : Decimal.uint) (rest : string) :
  delimited rest ->
  spanDigits (NilEmpty.string_of_uint d ++ rest) = (NilEmpty.string_of_uint d, rest).
Proof.
  intros Hrest.
  induction d; cbn [NilEmpty.string_of_uint append];
    [apply spanDigits_stop; exact Hrest | ..];
    cbn [spanDigits]; cbn [isDigit]; cbn; rewrite IHd; reflexivity.
Qed.

Lemma scanFraction_stop (rest : string) :
  delimited rest -> scanFraction rest = Some (EmptyString, rest).
Proof.
  destruct rest as [|c r]; [reflexivity|]. intros H. apply delimited_head in H.
  unfold continuesNumber in H. cbn [scanFraction].
  destruct (Ascii.eqb c "."); [|reflexivity].
  rewrite orb_true_r in H. discriminate.
Qed.

Lemma scanExponent_stop (rest : string) :
  delimited rest -> scanExponent rest = Some (EmptyString, rest).
Proof.
  destruct rest as [|c r]; [reflexivity|]. intros H. apply delimited_head in H.
  unfold continuesNumber in H. cbn [scanExponent].
  destruct (Ascii.eqb c "e"); [rewrite orb_true_r in H; discriminate|].
  destruct (Ascii.eqb c "E"); [rewrite orb_true_r in H; discriminate|].
  reflexivity.
Qed.

(** The decimal form of a positive number starts with a digit other than 0. *)
Lemma to_uint_head (p : positive) (d : Decimal.uint) : Pos.to_uint p <> Decimal.D0 d.
Proof.
  intros H.
  assert (Hn : Decimal.unorm (Pos.to_uint p) = Pos.to_uint p).
  { rewrite <- (DecimalPos.Unsigned.to_of (Pos.to_uint p)), DecimalPos.Unsigned.of_to.
    reflexivity. }
  unfold Decimal.unorm in Hn.
  destruct (Decimal.nzhead (Pos.to_uint p)) eqn:E;
    try (rewrite <- Hn in H; discriminate H).
  - apply (DecimalPos.Unsigned.to_uint_nonzero p). symmetry. exact Hn.
  - apply (DecimalFacts.nzhead_nonzero (Pos.to_uint p) u). rewrite E. reflexivity.
Qed.

Lemma scanInteger_uint (p : positive) (rest : string) :
  delimited rest ->
  scanInteger (NilEmpty.string_of_uint (Pos.to_uint p) ++ rest)
  = Some (NilEmpty.string_of_uint (Pos.to_uint p), rest).
Proof.
  intros Hrest.
  pose proof (to_uint_head p) as Hhead.
  pose proof (DecimalPos.Unsigned.to_uint_nonnil p) as Hnil.
  destruct (Pos.to_uint p) as [|d|d|d|d|d|d|d|d|d|d]; [congruence|exfalso; eapply Hhead; reflexivity|..];
    cbn [NilEmpty.string_of_uint append scanInteger]; cbn;
    rewrite (spanDigits_uint d rest Hrest); reflexivity.
Qed.

Lemma scanNumber_printInt (n : Z) (rest : string) :
  delimited rest -> scanNumber (printInt n ++ rest) = Some (printInt n, rest).
Proof.
  intros Hrest. unfold printInt, scanNumber.
  destruct n as [|p|p]; cbn [Z.to_int NilZero.string_of_int].
  - cbn. rewrite (scanFraction_stop rest Hrest), (scanExponent_stop rest Hrest). reflexivity.
  - unfold NilZero.string_of_uint.
    pose proof (DecimalPos.Unsigned.to_uint_nonnil p) as Hnil.
    pose proof (to_uint_head p) as Hhead.
    pose proof (scanInteger_uint p rest Hrest) as Hscan.
    destruct (Pos.to_uint p) as [|d|d|d|d|d|d|d|d|d|d] eqn:E;
      [congruence|exfalso; eapply Hhead; reflexivity|..];
      cbn [NilEmpty.string_of_uint append scanSign]; cbn [Ascii.eqb Bool.eqb];
      cbn [NilEmpty.string_of_uint append] in Hscan; rewrite Hscan;
      rewrite (scanFraction_stop rest Hrest), (scanExponent_stop rest Hrest);
      cbn [append]; rewrite append_nil_r; reflexivity.
  - unfold NilZero.string_of_uint.
    pose proof (DecimalPos.Unsigned.to_uint_nonnil p) as Hnil.
    pose proof (scanInteger_uint p rest Hrest) as Hscan.
    destruct (Pos.to_uint p) as [|d|d|d|d|d|d|d|d|d|d] eqn:E; [congruence|..];
      cbn [append scanSign]; cbn [Ascii.eqb Bool.eqb];
      rewrite Hscan;
      rewrite (scanFraction_stop rest Hrest), (scanExponent_stop rest Hrest);
      cbn [append]; rewrite append_nil_r; reflexivity.
Qed.

Lemma safeInteger_printInt (n : Z) :
  (Z.abs n <=? MAX_SAFE_INTEGER)%Z = true -> safeInteger (printInt n) = Some n.
Proof.
  intros Hsafe. unfold safeInteger, printInt.
  assert (Hread : NilZero.int_of_string (NilZero.string_of_int (Z.to_int n))
                  = Some (Z.to_int n)).
  { apply NilZero.isi;
      destruct n; cbn; try discriminate;
      intros H; injection H as H; apply (DecimalPos.Unsigned.to_uint_nonnil _ H). }
  rewrite Hread, DecimalZ.of_to, Hsafe. cbn [andb].
  assert (Hne : String.eqb (NilZero.string_of_int (Z.to_int n)) "-0" = false).
  { apply String.eqb_neq. intros H. rewrite H in Hread.
    change (NilZero.int_of_string "-0") with (Some (Decimal.Neg (Decimal.D0 Decimal.Nil)))
      in Hread.
    destruct n as [|p|p]; try discriminate Hread.
    injection Hread as Hread. apply (to_uint_head p Decimal.Nil). symmetry. exact Hread. }
  rewrite Hne. reflexivity.
Qed.

Lemma printInt_head (n : Z) :
  exists c s, printInt n = String c s /\ isIntChar c = true.
Proof.
  unfold printInt. destruct (Z.to_int n) as [d|d] eqn:E; cbn [NilZero.string_of_int].
  - unfold NilZero.string_of_uint. destruct d; cbn; eexists; eexists; split; reflexivity.
  - eexists; eexists; split; reflexivity.
Qed.

(** Properties in the order of enumeration *)

Lemma enumerated_app_l (a b : list string) :
  enumerated (a ++ b) = true -> enumerated a = true.
Proof.
  induction a as [|k a IH]; [reflexivity|].
  cbn [app enumerated]. intros H. apply andb_true_iff in H. destruct H as [Hk Ha].
  rewrite (IH Ha), andb_true_r.
  destruct (arrayIndex k); rewrite forallb_app in Hk; apply andb_true_iff in Hk; tauto.
Qed.

Lemma insertIndexed_last (acc : list (string * JsValue)) (k : string) (n : N) (v : JsValue) :
  arrayIndex k = Some n -> enumerated (map fst acc ++ [k]) = true ->
  insertIndexed n k v acc = (acc ++ [(k, v)])%list.
Proof.
  intros Hk. induction acc as [|[k' v'] acc IH]; [reflexivity|].
  cbn [map fst app enumerated insertIndexed]. intros H.
  apply andb_true_iff in H. destruct H as [Hhead Hrest].
  destruct (arrayIndex k') as [n'|].
  - rewrite forallb_app in Hhead. apply andb_true_iff in Hhead. destruct Hhead as [_ Hhead].
    cbn [forallb] in Hhead. rewrite Hk, andb_true_r in Hhead. rewrite Hhead, (IH Hrest).
    reflexivity.
  - rewrite forallb_app in Hhead. apply andb_true_iff in Hhead. destruct Hhead as [_ Hhead].
    cbn [forallb] in Hhead. rewrite Hk in Hhead. discriminate.
Qed.

Lemma setProperty_last (k : string) (v : JsValue) (acc : list (string * JsValue)) :
  existsb (String.eqb k) (map fst acc) = false ->
  enumerated (map fst acc ++ [k]) = true ->
  setProperty k v acc = (acc ++ [(k, v)])%list.
Proof.
  intros Hfresh Henum. unfold setProperty. rewrite Hfresh.
  destruct (arrayIndex k) as [n|] eqn:E; [|reflexivity].
  apply (insertIndexed_last acc k n v E Henum).
Qed.


Lemma distinct_app_fresh (a b : list string) (k : string) :
  distinct (a ++ k :: b) = true -> existsb (String.eqb k) a = false.
Proof.
  induction a as [|x a IH]; cbn; [reflexivity|]. intros H.
  apply andb_true_iff in H. destruct H as [Hx Ha].
  rewrite (IH Ha), orb_false_r.
  apply negb_true_iff in Hx. rewrite existsb_app in Hx. cbn in Hx.
  apply orb_false_iff in Hx. destruct Hx as [_ Hx]. apply orb_false_iff in Hx.
  destruct Hx as [Hx _]. rewrite String.eqb_sym. exact Hx.
Qed.

(** The round trip *)

Lemma isIntChar_head (c : ascii) :
  isIntChar c = true ->
  isJsonWhitespace c = false /\ Ascii.eqb c dquote = false
  /\ Ascii.eqb c "[" = false /\ Ascii.eqb c "{" = false
  /\ Ascii.eqb c "]" = false /\ Ascii.eqb c "}" = false.
Proof.
  destruct c as [[] [] [] [] [] [] [] []]; cbn; intros H; try discriminate;
    repeat split; reflexivity.
Qed.

Lemma stringify_head (v : JsValue) :
  wellFormed v = true ->
  exists c s, JSON_stringify v = String c s
              /\ isJsonWhitespace c = false
              /\ Ascii.eqb c "]" = false /\ Ascii.eqb c "}" = false.
Proof.
  destruct v as [|[]|n|shown|s|l|l]; cbn [JSON_stringify]; intros Hwf;
    try discriminate Hwf;
    try (eexists; eexists; split; [reflexivity|]; repeat split; reflexivity).
  destruct (printInt_head n) as (c & s & -> & Hc).
  destruct (isIntChar_head c Hc) as (H1 & _ & _ & _ & H5 & H6).
  exists c, s. auto.
Qed.

Lemma skipWhitespace_head (c : ascii) (s : string) :
  isJsonWhitespace c = false -> skipWhitespace (String c s) = String c s.
Proof. intros H. cbn. rewrite H. reflexivity. Qed.

Lemma concat_cons2 (sep x y : string) (l : list string) :
  String.concat sep (x :: y :: l) = x ++ sep ++ String.concat sep (y :: l).
Proof. reflexivity. Qed.

Section RoundTrip.
Variable numberText : string -> string.

Lemma parseElements_spec (l : list JsValue) :
  Forall (RoundTrips numberText) l -> forallb wellFormed l = true -> l <> [] ->
  forall acc fuel rest,
    list_sum (map (fun x => S (jsize x)) l) <= fuel ->
    parseElements numberText fuel
      (String.concat "," (map JSON_stringify l) ++ String "]" rest) acc
    = Some (JArray (acc ++ l), rest).
Proof.
  induction l as [|v l IH]; intros HP Hwf Hne acc fuel rest Hfuel; [congruence|].
  inversion HP as [|? ? Hv Hl]; subst.
  cbn [forallb] in Hwf. apply andb_true_iff in Hwf. destruct Hwf as [Hwv Hwl].
  cbn [map list_sum] in Hfuel.
  destruct fuel as [|fuel]; [cbn in Hfuel; lia|].
  cbn [parseElements].
  destruct l as [|v2 l].
  - cbn [map String.concat].
    rewrite (Hv Hwv fuel (String "]" rest)); [|cbn in Hfuel; lia|apply delimited_cons; reflexivity].
    reflexivity.
  - cbn [map]. rewrite concat_cons2.
    change (String.concat "," (JSON_stringify v2 :: map JSON_stringify l))
      with (String.concat "," (map JSON_stringify (v2 :: l))).
    remember (String.concat "," (map JSON_stringify (v2 :: l))) as C eqn:EC.
    rewrite !append_assoc. cbn [append].
    rewrite (Hv Hwv fuel); [|cbn in Hfuel |- *; lia|apply delimited_cons; reflexivity].
    rewrite skipWhitespace_head by reflexivity.
    replace (startsWith "," (String "," (C ++ String "]" rest)))
      with (Some (C ++ String "]" rest)) by reflexivity.
    subst C.
    rewrite (IH Hl Hwl); [|discriminate|cbn in Hfuel |- *; lia].
    rewrite <- app_assoc. reflexivity.
Qed.

Lemma parseMembers_step (fuel : nat) (k : string) (v : JsValue) (tail : string)
    (acc : list (string * JsValue)) :
  RoundTrips numberText v -> wellFormed v = true -> jsize v <= fuel -> delimited tail ->
  validUtf8 k = true ->
  existsb (String.eqb k) (map fst acc) = false ->
  enumerated (map fst acc ++ [k]) = true ->
  parseMembers numberText (S fuel) (member (k, v) ++ tail) acc
  = match startsWith "," (skipWhitespace tail), startsWith "}" (skipWhitespace tail) with
    | Some rest4, _ => parseMembers numberText fuel rest4 (acc ++ [(k, v)])
    | _, Some rest4 => Some (JObject (acc ++ [(k, v)]), rest4)
    | _, _ => None
    end.
Proof.
  intros Hv Hwv Hfuel Hd Hk Hfresh Henum.
  unfold member. cbn [fst snd]. rewrite append_assoc, quoteJSONString_app.
  cbn [parseMembers].
  rewrite skipWhitespace_head by reflexivity.
  replace (startsWith dquote (String dquote
             (escapeString k ++ String dquote ((":" ++ JSON_stringify v) ++ tail))))
    with (Some (escapeString k ++ String dquote ((":" ++ JSON_stringify v) ++ tail)))
    by reflexivity.
  rewrite (parseString_escapeString k _ Hk). cbn [append].
  rewrite skipWhitespace_head by reflexivity.
  replace (startsWith ":" (String ":" (JSON_stringify v ++ tail)))
    with (Some (JSON_stringify v ++ tail)) by reflexivity.
  rewrite (Hv Hwv fuel tail Hfuel Hd).
  rewrite (setProperty_last k v acc Hfresh Henum). reflexivity.
Qed.

Lemma parseMembers_spec (l : list (string * JsValue)) :
  Forall (fun kv => RoundTrips numberText (snd kv)) l ->
  forallb (fun kv => wellFormed (snd kv)) l = true ->
  forallb validUtf8 (map fst l) = true -> l <> [] ->
  forall acc fuel rest,
    list_sum (map (fun kv => S (jsize (snd kv))) l) <= fuel ->
    distinct (map fst (acc ++ l)) = true ->
    enumerated (map fst (acc ++ l)) = true ->
    parseMembers numberText fuel (String.concat "," (map member l) ++ String "}" rest) acc
    = Some (JObject (acc ++ l), rest).
Proof.
  induction l as [|[k v] l IH]; intros HP Hwf Hkeys Hne acc fuel rest Hfuel Hdist Henum;
    [congruence|].
  inversion HP as [|? ? Hv Hl]; subst. cbn [snd] in Hv.
  cbn [forallb snd] in Hwf. apply andb_true_iff in Hwf. destruct Hwf as [Hwv Hwl].
  cbn [map fst forallb] in Hkeys. apply andb_true_iff in Hkeys. destruct Hkeys as [Hk Hkl].
  cbn [map list_sum snd] in Hfuel.
  destruct fuel as [|fuel]; [cbn in Hfuel; lia|].
  assert (Hfresh : existsb (String.eqb k) (map fst acc) = false).
  { rewrite map_app in Hdist. cbn [map fst] in Hdist. apply (distinct_app_fresh _ _ _ Hdist). }
  assert (Hlast : enumerated (map fst acc ++ [k]) = true).
  { rewrite map_app in Henum. cbn [map fst] in Henum.
    apply (enumerated_app_l _ (map fst l)). rewrite <- app_assoc. exact Henum. }
  destruct l as [|kv2 l].
  - cbn [map String.concat].
    rewrite (parseMembers_step fuel k v (String "}" rest) acc Hv Hwv);
      [|cbn in Hfuel; lia|apply delimited_cons; reflexivity|exact Hk|exact Hfresh|exact Hlast].
    reflexivity.
  - cbn [map]. rewrite concat_cons2.
    change (String.concat "," (member kv2 :: map member l))
      with (String.concat "," (map member (kv2 :: l))).
    remember (String.concat "," (map member (kv2 :: l))) as C eqn:EC.
    rewrite !append_assoc. cbn [append].
    rewrite (parseMembers_step fuel k v (String "," (C ++ String "}" rest)) acc Hv Hwv);
      [|cbn in Hfuel |- *; lia|apply delimited_cons; reflexivity|exact Hk|exact Hfresh
       |exact Hlast].
    rewrite skipWhitespace_head by reflexivity.
    replace (startsWith "," (String "," (C ++ String "}" rest)))
      with (Some (C ++ String "}" rest)) by reflexivity.
    subst C.
    rewrite (IH Hl Hwl Hkl); [|discriminate|cbn in Hfuel |- *; lia| |].
    + rewrite <- app_assoc. reflexivity.
    + rewrite <- app_assoc. exact Hdist.
    + rewrite <- app_assoc. exact Henum.
Qed.

Lemma stringify_roundTrips (v : JsValue) : RoundTrips numberText v.
Proof.
  induction v as [|b|n|shown|s|l IH|l IH] using JsValue_nested_ind;
    intros Hwf fuel rest Hfuel Hd;
    (destruct fuel as [|fuel]; [cbn in Hfuel; lia|]).
  - reflexivity.
  - destruct b; reflexivity.
  - cbn [JSON_stringify parseValue].
    destruct (printInt_head n) as (c & s & E & Hc).
    destruct (isIntChar_head c Hc) as (H1 & H2 & H3 & H4 & _).
    rewrite E. cbn [append]. rewrite skipWhitespace_head by exact H1.
    rewrite H2, H3, H4, Hc.
    change (String c (s ++ rest)) with (String c s ++ rest). rewrite <- E.
    rewrite (scanNumber_printInt n rest Hd). unfold readNumber.
    rewrite (safeInteger_printInt n Hwf). reflexivity.
  - discriminate.
  - cbn [JSON_stringify]. rewrite quoteJSONString_app. cbn [parseValue].
    rewrite skipWhitespace_head by reflexivity.
    replace (Ascii.eqb dquote dquote) with true by reflexivity.
    rewrite (parseString_escapeString s rest Hwf). reflexivity.
  - replace (JSON_stringify (JArray l) ++ rest)
      with (String "[" (String.concat "," (map JSON_stringify l) ++ String "]" rest))
      by (cbn [JSON_stringify append]; rewrite append_assoc; reflexivity).
    cbn [parseValue]. rewrite skipWhitespace_head by reflexivity.
    replace (Ascii.eqb "[" dquote) with false by reflexivity.
    replace (Ascii.eqb "[" "[") with true by reflexivity.
    cbn [wellFormed] in Hwf. cbn [jsize] in Hfuel.
    destruct l as [|v l].
    + reflexivity.
    + assert (Hwv : wellFormed v = true)
        by (cbn [forallb] in Hwf; apply andb_true_iff in Hwf; tauto).
      destruct (stringify_head v Hwv) as (c & s & E & Hws & Hb & _).
      assert (Hnone : startsWith "]"
                 (skipWhitespace
                    (String.concat "," (map JSON_stringify (v :: l)) ++ String "]" rest)) = None).
      { destruct l as [|v2 l].
        - cbn [String.concat map]. rewrite E. cbn [append].
          rewrite skipWhitespace_head by exact Hws. cbn [startsWith]. rewrite Hb. reflexivity.
        - cbn [map]. rewrite concat_cons2, E. cbn [append].
          rewrite skipWhitespace_head by exact Hws. cbn [startsWith]. rewrite Hb. reflexivity. }
      rewrite Hnone.
      apply (parseElements_spec (v :: l) IH Hwf); [discriminate|lia].
  - replace (JSON_stringify (JObject l) ++ rest)
      with (String "{" (String.concat "," (map member l) ++ String "}" rest))
      by (cbn [JSON_stringify append]; rewrite append_assoc; reflexivity).
    cbn [parseValue]. rewrite skipWhitespace_head by reflexivity.
    replace (Ascii.eqb "{" dquote) with false by reflexivity.
    replace (Ascii.eqb "{" "[") with false by reflexivity.
    replace (Ascii.eqb "{" "{") with true by reflexivity.
    cbn [wellFormed] in Hwf. apply andb_true_iff in Hwf. destruct Hwf as [Hkeys Hwf].
    apply andb_true_iff in Hkeys. destruct Hkeys as [Hkeys Hdist].
    apply andb_true_iff in Hkeys. destruct Hkeys as [Hvalid Henum].
    cbn [jsize] in Hfuel.
    destruct l as [|kv l].
    + reflexivity.
    + assert (Hnone : startsWith "}"
                 (skipWhitespace (String.concat "," (map member (kv :: l)) ++ String "}" rest))
               = None).
      { destruct l as [|kv2 l].
        - cbn [String.concat map]. unfold member. rewrite append_assoc, quoteJSONString_app.
          reflexivity.
        - cbn [map]. rewrite concat_cons2. unfold member at 1.
          rewrite !append_assoc, quoteJSONString_app. reflexivity. }
      rewrite Hnone.
      apply (parseMembers_spec (kv :: l) IH Hwf Hvalid);
        [discriminate|lia|exact Hdist|exact Henum].
Qed.

End RoundTrip.

Lemma concat_length_bound {A} (f : A -> string) (g : A -> nat) (l : list A) :
  Forall (fun a => g a <= String.length (f a)) l ->
  list_sum (map (fun a => S (g a)) l) <= S (String.length (String.concat "," (map f l))).
Proof.
  induction l as [|a l IH]; intros H; [cbn; lia|].
  inversion H as [|? ? Ha Hl]; subst. specialize (IH Hl).
  destruct l as [|b l].
  - cbn. lia.
  - cbn [map]. rewrite concat_cons2. cbn [map list_sum fold_right] in IH |- *.
    rewrite !string_length_app. cbn [String.length]. lia.
Qed.

Lemma jsize_le_length (v : JsValue) :
  wellFormed v = true -> jsize v <= String.length (JSON_stringify v).
Proof.
  induction v as [|b|n|shown|s|l IH|l IH] using JsValue_nested_ind; intros Hwf.
  - cbn. lia.
  - destruct b; cbn; lia.
  - cbn [jsize JSON_stringify]. destruct (printInt_head n) as (c & s & -> & _). cbn. lia.
  - discriminate.
  - cbn. lia.
  - cbn [jsize JSON_stringify]. cbn [append String.length].
    rewrite string_length_app. cbn [String.length].
    assert (Hl : Forall (fun a => jsize a <= String.length (JSON_stringify a)) l).
    { cbn [wellFormed] in Hwf. clear - IH Hwf.
      induction l as [|x l IHl]; [constructor|].
      inversion IH as [|? ? Hx Hl]; subst. cbn [forallb] in Hwf.
      apply andb_true_iff in Hwf. destruct Hwf as [Hwx Hwl].
      constructor; [exact (Hx Hwx)|exact (IHl Hl Hwl)]. }
    pose proof (concat_length_bound JSON_stringify jsize l Hl). lia.
  - cbn [jsize].
    change (JSON_stringify (JObject l))
      with ("{" ++ String.concat "," (map member l) ++ "}").
    rewrite !string_length_app. cbn [String.length].
    pose proof (concat_length_bound member (fun kv => jsize (snd kv)) l) as H.
    assert (Hl : Forall (fun a => jsize (snd a) <= String.length (member a)) l).
    { cbn [wellFormed] in Hwf. apply andb_true_iff in Hwf. destruct Hwf as [_ Hwf].
      clear - IH Hwf.
      induction l as [|x l IHl]; [constructor|].
      inversion IH as [|? ? Hx Hl]; subst. cbn [forallb] in Hwf.
      apply andb_true_iff in Hwf. destruct Hwf as [Hwx Hwl].
      constructor; [|exact (IHl Hl Hwl)].
      unfold member. rewrite !string_length_app. specialize (Hx Hwx). lia. }
    specialize (H Hl). cbn beta in H. lia.
Qed.

(** [JSON.parse] reads back what [JSON.stringify] wrote. *)
Lemma JSON_parse_stringify (numberText : string -> string) (v : JsValue) :
  wellFormed v = true -> JSON_parse numberText (JSON_stringify v) = Some v.
Proof.
  intros Hwf. unfold JSON_parse.
  pose proof (stringify_roundTrips numberText v Hwf
                (S (String.length (JSON_stringify v))) EmptyString) as H.
  rewrite append_nil_r in H. rewrite H; [reflexivity| |apply delimited_empty].
  pose proof (jsize_le_length v Hwf). lia.
Qed.

(** *** The serialized query *)










(** *** [emptyUri.with] *)



Lemma toComparedElementUri_eq (p : string) (q : JsValue) :
  q <> JNull ->
  toComparedElementUri p q
  = Returns (Uri_with_file p
               (encodeURIComponent (JSON_stringify (serializedValue (propertiesOf q))))).
Proof. destruct q; intros H; try reflexivity. congruence. Qed.


(** *** Decode failures *)





(** C9 at the failing inputs: a query that is a lone percent sign makes
    [decodeURIComponent] throw outside the [try] block, and the JSON text
    [null] makes the read of [parsedQuery.type] throw; both exceptions
    leave [isComparedElementUri] and [fromComparedElementUri]. *)
Theorem fromComparedElementUri_throws (numberText : string -> string) :
  isComparedElementUri numberText Samples.malformedEscapeLocator = Throws URIError
  /\ fromComparedElementUri numberText Samples.malformedEscapeLocator = Throws URIError
  /\ isComparedElementUri numberText Samples.nullQueryLocator = Throws TypeError
  /\ fromComparedElementUri numberText Samples.nullQueryLocator = Throws TypeError.
Proof. repeat split; vm_compute; reflexivity. Qed.

(** Whenever the validation returns, so does the decoding: with the
    parsed query if the locator is valid, with an error carrying the
    non-empty validation message otherwise. *)
Lemma fromComparedElementUri_returns_when_validation_does
    (numberText : string -> string) (u : Uri) (r : UriValidationResult) :
  isComparedElementUri numberText u = Returns r ->
  (valid r = true ->
   exists decoded parsed,
     decodeURIComponent (query u) = Returns decoded
     /\ JSON_parse numberText decoded = Some parsed
     /\ fromComparedElementUri numberText u = Returns (Val parsed))
  /\ (valid r = false ->
      exists m, validationMessage r = Some m /\ m <> EmptyString
                /\ fromComparedElementUri numberText u = Returns (Err (newError m))).
Proof.
  intros Hr. unfold fromComparedElementUri. rewrite Hr. cbn [andThen].
  unfold isComparedElementUri in Hr.
  destruct (String.eqb (scheme u) Schemas.FILE).
  - destruct (decodeURIComponent (query u)) as [d|] eqn:Ed; [|discriminate].
    cbn [andThen] in Hr |- *.
    destruct (JSON_parse numberText d) as [v|] eqn:Ep.
    + destruct (getProperty v "type") as [ty|]; [|discriminate]. cbn [andThen] in Hr.
      destruct (strictEqualsString ty QueryTypes.COMPARED_ELEMENT).
      * injection Hr as <-; cbn [valid validationMessage]; split; intros H; try discriminate.
        exists d, v. rewrite Ep. auto.
      * destruct (templateValue ty) as [shownType|]; [|discriminate]. cbn [andThen] in Hr.
        injection Hr as <-; cbn [valid validationMessage]; split; intros H; try discriminate.
        eexists. repeat split. discriminate.
    + injection Hr as <-. cbn [valid validationMessage]. split; intros H; try discriminate.
      eexists. repeat split. discriminate.
  - injection Hr as <-. cbn [valid validationMessage]. split; intros H; try discriminate.
    eexists. repeat split. discriminate.
Qed.

(** *** Sample texts *)

(** A number with a fraction or an exponent is read, and does not make
    a locator invalid. *)
Lemma fraction_locator_is_valid (numberText : string -> string) :
  isComparedElementUri numberText Samples.fractionLocator
  = Returns {| valid := true; validationMessage := None |}
  /\ JSON_parse numberText "[1.5,-2e3,0.25E-1]"
     = Some (JArray [JDouble (numberText "1.5"); JDouble (numberText "-2e3");
                     JDouble (numberText "0.25E-1")])
  /\ JSON_parse numberText "01" = None
  /\ JSON_parse numberText "1." = None.
Proof. repeat split; vm_compute; reflexivity. Qed.

(** An integer beyond the safe ones is the number the engine makes of
    it, and negative zero is not the integer 0. *)
Lemma unsafe_integers_are_not_exact (numberText : string -> string) :
  JSON_parse numberText "[9007199254740991,9007199254740993,-0]"
  = Some (JArray [JNumber 9007199254740991; JDouble (numberText "9007199254740993");
                  JDouble (numberText "-0")]).
Proof. vm_compute. reflexivity. Qed.

(** The properties named by array indices are enumerated first, in
    ascending order, and a repeated name keeps its place. *)
Lemma array_indices_are_enumerated_first (numberText : string -> string) :
  JSON_parse numberText
    ("{" ++ String dquote ("b" ++ String dquote (":1," ++ String dquote ("10" ++ String dquote
       (":2," ++ String dquote ("9" ++ String dquote (":3," ++ String dquote ("b" ++
       String dquote (":4," ++ String dquote ("01" ++ String dquote ":5}"))))))))))
  = Some (JObject [("9", JNumber 3); ("10", JNumber 2); ("b", JNumber 4); ("01", JNumber 5)]).
Proof. vm_compute. reflexivity. Qed.

(** Escaped octets that are no UTF-8 text make [decodeURIComponent]
    throw; those that are UTF-8 text are decoded, and the two halves of a
    surrogate pair written as escapes of a JSON text are one character. *)
Lemma decoding_checks_the_octets (numberText : string -> string) :
  decodeURIComponent "%FF" = Throws URIError
  /\ decodeURIComponent "%C3" = Throws URIError
  /\ decodeURIComponent "%C3%28" = Throws URIError
  /\ decodeURIComponent "%ED%A0%80" = Throws URIError
  /\ decodeURIComponent "%C3%A9" = decodeURIComponent "%c3%a9"
  /\ (exists text, decodeURIComponent "%F0%9F%98%80" = Returns text
                   /\ JSON_parse numberText
                        (String dquote (String backslash ("ud83d" ++ String backslash
                           ("ude00" ++ String dquote EmptyString))))
                      = Some (JString text)).
Proof.
  repeat split; try (vm_compute; reflexivity).
  eexists. split; vm_compute; reflexivity.
Qed.

(** An object is converted to a string by the method it inherits,
    whatever property named [valueOf] it has; with a property named
    [toString] the conversion throws, also inside arrays. *)
Lemma conversion_to_string_samples :
  toStringJs (JObject [("valueOf", JNumber 1)]) = Returns "[object Object]"
  /\ toStringJs (JObject [("toString", JNumber 0)]) = Throws TypeError
  /\ toStringJs (JArray [JNumber 1; JNull; JArray [JString "a"; JBool true]])
     = Returns "1,,a,true"
  /\ toStringJs (JArray [JArray [JObject [("toString", JNull)]]]) = Throws TypeError.
Proof. repeat split; reflexivity. Qed.

(** *** Further properties of the upload command *)

Section Effects.
Variable env : Env.
Variables (service : Service) (searchLocation : ElementSearchLocation)
  (serviceName : EndevorServiceName) (searchLocationName : ElementLocationName)
  (element : Element) (ccv : ChangeControlValue) (elementFilePath fingerprint : string).

Let permitted :=
  uploadEffect env service searchLocation serviceName searchLocationName element ccv
    elementFilePath fingerprint.

Lemma complexSignoutElement_effects (t : Trace) :
  exists l,
    snd (complexSignoutElement env service searchLocation serviceName searchLocationName
           element ccv t) = (t ++ l)%list
    /\ Forall permitted l.
Proof.
  unfold complexSignoutElement, updateTreeAfterSuccessfulSignout, dispatch, bind, call, ret, emit.
  repeat (break_match; cbn [fst snd]);
    rewrite <- ?app_assoc; eexists; (split; [reflexivity|]);
    repeat constructor.
Qed.

Lemma uploadElement_effects (fuel : nat) :
  forall t, exists l,
    snd (uploadElement env fuel service searchLocation serviceName searchLocationName
           element ccv elementFilePath fingerprint t) = (t ++ l)%list
    /\ Forall permitted l.
Proof.
  induction fuel as [|fuel IH]; intros t.
  { exists []. rewrite app_nil_r. split; [reflexivity|constructor]. }
  cbn [uploadElement]. unfold readEditedElementContent, bind, call, ret.
  destruct (getFileContent env (count isGetFileContent t)) as [content|readError].
  2:{ eexists. split; [reflexivity|]. repeat constructor. }
  destruct (isSignoutError (updateElement env _)).
  - match goal with
    | |- context [complexSignoutElement env ?a ?b ?c ?d ?e ?f ?t2] =>
        destruct (complexSignoutElement_effects t2) as [l1 [Hl1 P1]];
        destruct (complexSignoutElement env a b c d e f t2) as [sr t3]
    end.
    cbn [snd] in Hl1. subst t3. destruct sr as [u|e].
    + match goal with
      | |- context [uploadElement env fuel _ _ _ _ _ _ _ _ ?t3] =>
          destruct (IH t3) as [l2 [Hl2 P2]]
      end.
      rewrite Hl2.
      exists ([GetFileContent elementFilePath;
               UpdateElement service element ccv fingerprint content] ++ l1 ++ l2)%list.
      split; [rewrite <- !app_assoc; reflexivity|].
      repeat constructor. apply Forall_app. split; assumption.
    + cbn [snd]. rewrite <- !app_assoc. eexists. split; [reflexivity|].
      cbn [app]. repeat constructor. exact P1.
  - unfold saveLocalElementVersion, call, ret.
    repeat (break_match; cbn [fst snd]);
      rewrite <- ?app_assoc; eexists; (split; [reflexivity|]);
      repeat constructor.
Qed.

End Effects.

Lemma uploadEffect_quiet env service searchLocation serviceName searchLocationName
    element ccv elementFilePath fingerprint (l : Trace) :
  Forall (uploadEffect env service searchLocation serviceName searchLocationName element
            ccv elementFilePath fingerprint) l ->
  count isDeleteFile l = 0 /\ count isShow l = 0 /\ count isCloseEditor l = 0
  /\ count isLoggerError l = 0 /\ count (isDispatchOf ELEMENT_UPDATED) l = 0.
Proof.
  unfold count. induction 1 as [|x l Hx Hl IH]; cbn; [repeat split; reflexivity|].
  destruct x; cbn in *; try contradiction; try exact IH.
  subst a. cbn. exact IH.
Qed.

(** The whole run of the command once the URI is read and both dialogs
    are answered: the preamble, what [uploadElement] adds, and the report
    or the clean-up that follows its result. *)
Lemma uploadElementCommand_shape (env : Env) (fuel : nat) (elementUri : Uri)
    (params : EditedElementUriQuery) (target : ElementMapPath) (ccv : ChangeControlValue) :
  fromEditedElementUri env elementUri = Val params ->
  askForUploadLocation env = Some target ->
  askForChangeControlValue env = Some ccv ->
  exists r l tail,
    uploadElementCommand env fuel elementUri []
    = (option_map (fun _ => tt) r, (uploadPreamble params ++ l ++ tail)%list)
    /\ uploadElement env fuel (q_service params) (q_searchLocation params)
         (q_serviceName params) (q_searchLocationName params)
         (uploadTarget params target) ccv (fsPath elementUri) (q_fingerprint params)
         (uploadPreamble params)
       = (r, (uploadPreamble params ++ l)%list)
    /\ Forall (uploadEffect env (q_service params) (q_searchLocation params)
                 (q_serviceName params) (q_searchLocationName params)
                 (uploadTarget params target) ccv (fsPath elementUri)
                 (q_fingerprint params)) l
    /\ tail = uploadEpilogue env elementUri params r.
Proof.
  intros Hparse Hloc Hccv.
  unfold uploadElementCommand. rewrite Hparse.
  unfold askForUploadValues, bind, call, ret, logger_error, emit.
  rewrite Hloc, Hccv. unfold closeEditSession, emit. cbn [app].
  fold (uploadPreamble params). fold (uploadTarget params target).
  destruct (uploadElement_effects env (q_service params) (q_searchLocation params)
              (q_serviceName params) (q_searchLocationName params)
              (uploadTarget params target) ccv (fsPath elementUri) (q_fingerprint params)
              fuel (uploadPreamble params)) as [l [Hl P]].
  destruct (uploadElement env fuel (q_service params) (q_searchLocation params)
              (q_serviceName params) (q_searchLocationName params)
              (uploadTarget params target) ccv (fsPath elementUri) (q_fingerprint params)
              (uploadPreamble params)) as [r t'] eqn:Erun.
  cbn [snd] in Hl. subst t'.
  exists r, l, (uploadEpilogue env elementUri params r).
  split; [|split; [reflexivity|split; [exact P|reflexivity]]].
  unfold uploadEpilogue.
  destruct r as [[u|e]|].
  - unfold safeRemoveUploadedElement, updateTreeAfterSuccessfulUpload, dispatch, bind,
      call, ret, logger_error, emit.
    assert (Hd : count isDeleteFile (uploadPreamble params ++ l)%list = 0).
    { rewrite count_app. destruct (uploadEffect_quiet _ _ _ _ _ _ _ _ _ _ P) as [-> _].
      reflexivity. }
    rewrite Hd.
    destruct (deleteFile env 0) as [u'|e']; rewrite <- !app_assoc; reflexivity.
  - unfold reopenEditSession, bind, call, ret, logger_error, emit.
    cbn [fst snd option_map]. rewrite <- !app_assoc. reflexivity.
  - rewrite app_nil_r. reflexivity.
Qed.

(** Evaluates the counts over the effects already appended. *)
Ltac settle_counts :=
  repeat match goal with
         | |- context [count ?p (?t ++ ?l)%list] =>
             rewrite (count_app p t l);
             let n := eval cbv in (count p l) in change (count p l) with n;
             rewrite ?Nat.add_0_r
         end.

(** X1.  The calls of one sign-out recovery, in order: the sign-out
    prompt; the switch of the automatic sign-out setting if the user
    asked for it; the signOut call if the user accepted either way; the
    override prompt if that call met a sign-out error; the override call
    if the user accepted it; the ELEMENT_SIGNEDOUT event if the element
    ended up signed out.  Nothing else is done. *)
Theorem complexSignoutElement_calls
    (env : Env) (service : Service) (searchLocation : ElementSearchLocation)
    (serviceName : EndevorServiceName) (searchLocationName : ElementLocationName)
    (element : Element) (ccv : ActionChangeControlValue) (t : Trace) :
  snd (complexSignoutElement env service searchLocation serviceName searchLocationName
         element ccv t)
  = (t ++ [AskToSignOutElements [name element]]
       ++ (if automaticSignOut (askToSignOutElements env (count isAskToSignOut t))
           then [TurnOnAutomaticSignOut] else [])
       ++ (if signOutAccepted env t then [SignOutElement service element ccv] else [])
       ++ (if signOutContended env t
           then [AskToOverrideSignOutForElements [name element]] else [])
       ++ (if signOutOverridden env t
           then [OverrideSignOutElement service element ccv] else [])
       ++ (if signOutSucceeded env t
           then [Dispatch {| a_type := ELEMENT_SIGNEDOUT; a_serviceName := serviceName;
                             a_service := service;
                             a_searchLocationName := searchLocationName;
                             a_searchLocation := searchLocation;
                             a_elements := [element] |}]
           else []))%list.
Proof.
  unfold signOutSucceeded, signOutOverridden, signOutContended, signOutAccepted.
  unfold complexSignoutElement, updateTreeAfterSuccessfulSignout, dispatch, bind, call, ret, emit.
  destruct (askToSignOutElements env (count isAskToSignOut t)) as [so au].
  cbn [signOutElements automaticSignOut].
  destruct so, au; cbn [negb andb orb fst snd]; rewrite ?app_nil_r; try reflexivity.
  all: settle_counts.
  all: destruct (signOutElement env (count isSignOut t)) as [u|[[] m]];
    cbn [isSignoutError isError errorClass negb andb orb fst snd];
    try (rewrite <- ?app_assoc; reflexivity).
  all: settle_counts.
  all: destruct (askToOverrideSignOutForElements env (count isAskToOverride t));
    cbn [negb andb orb fst snd]; try (rewrite <- ?app_assoc; reflexivity).
  all: settle_counts.
  all: destruct (overrideSignOutElement env (count isOverrideSignOut t)) as [u|e];
    cbn [isError negb andb orb fst snd]; rewrite <- ?app_assoc; reflexivity.
Qed.

(** X2.  A sign-out recovery returns without an error exactly when the
    user accepted the sign-out and either the signOut call succeeded, or
    it met a sign-out error, the user accepted the override and the
    override call succeeded.  Any other failure of the signOut call ends
    the recovery with that failure's message and without an override
    prompt. *)
Theorem complexSignoutElement_succeeds_iff
    (env : Env) (service : Service) (searchLocation : ElementSearchLocation)
    (serviceName : EndevorServiceName) (searchLocationName : ElementLocationName)
    (element : Element) (ccv : ActionChangeControlValue) (t : Trace) :
  let result :=
    fst (complexSignoutElement env service searchLocation serviceName searchLocationName
           element ccv t) in
  (result = Val tt <-> signOutSucceeded env t = true)
  /\ isError result = negb (signOutSucceeded env t)
  /\ (signOutAccepted env t = false ->
      result = Err (newError ("Unable to upload the element " ++ name element
                                ++ " because it is signed out to somebody else")))
  /\ (forall e, signOutAccepted env t = true ->
        signOutElement env (count isSignOut t) = Err e ->
        errorClass e <> SignoutError ->
        result = Err (newError ("Unable to sign out the element " ++ name element
                                  ++ " because of error " ++ message e)))
  /\ (signOutContended env t = true -> signOutOverridden env t = false ->
      result = Err (newError ("The element " ++ name element
                                ++ " is signed out to somebody else, override signout action is not selected"))).
Proof.
  cbv zeta.
  unfold signOutSucceeded, signOutOverridden, signOutContended, signOutAccepted.
  unfold complexSignoutElement, updateTreeAfterSuccessfulSignout, dispatch, bind, call, ret, emit.
  destruct (askToSignOutElements env (count isAskToSignOut t)) as [so au].
  cbn [signOutElements automaticSignOut].
  destruct so, au; cbn [negb andb orb fst snd].
  all: settle_counts.
  all: try (repeat split; intros; try discriminate; reflexivity).
  all: destruct (signOutElement env (count isSignOut t)) as [[]|[[] m]];
    cbn [isSignoutError isError errorClass negb andb orb fst snd].
  all: settle_counts.
  all: try (repeat split; intros; try discriminate; try congruence; try reflexivity;
            match goal with H : Err _ = Err _ |- _ => injection H as <-; reflexivity end).
  all: destruct (askToOverrideSignOutForElements env (count isAskToOverride t));
    cbn [negb andb orb fst snd].
  all: settle_counts.
  all: try (repeat split; intros; try discriminate; try congruence; try reflexivity;
            match goal with H : Err _ = Err _ |- _ => injection H as <-; cbn in *; congruence end).
  all: destruct (overrideSignOutElement env (count isOverrideSignOut t)) as [[]|e];
    cbn [isError negb andb orb fst snd].
  all: repeat split; intros; try discriminate; try congruence; try reflexivity;
            match goal with H : Err _ = Err _ |- _ => injection H as <-; cbn in *; congruence end.
Qed.

(** Runs the command on answers given by the equations [tac] rewrites. *)
Ltac run_upload Hparse Hloc Hccv tac :=
  unfold uploadElementCommand, askForUploadValues, closeEditSession;
  rewrite Hparse; unfold bind, call, ret, logger_error, emit;
  rewrite Hloc, Hccv; cbn [app uploadElement];
  unfold readEditedElementContent, complexSignoutElement, saveLocalElementVersion,
    updateTreeAfterSuccessfulSignout, safeRemoveUploadedElement, reopenEditSession,
    updateTreeAfterSuccessfulUpload, dispatch, bind, call, ret, logger_error, emit;
  repeat (cbn -[String.append]; tac);
  cbn -[String.append].

(** X3.  When the edited file cannot be read, the command stops before
    any call to Endevor: it logs that the upload failed, with the read
    error in the details, and reopens the edit session; the temp file is
    kept and no event is dispatched. *)
Theorem unreadable_file_stops_before_update
    (env : Env) (elementUri : Uri) (params : EditedElementUriQuery)
    (target : ElementMapPath) (ccv : ChangeControlValue) (e : Error) (extraFuel : nat) :
  fromEditedElementUri env elementUri = Val params ->
  askForUploadLocation env = Some target ->
  askForChangeControlValue env = Some ccv ->
  getFileContent env 0 = Err e ->
  uploadElementCommand env (S extraFuel) elementUri []
  = (Some tt,
     app (uploadPreamble params)
       [GetFileContent (fsPath elementUri);
            LoggerError
              ("Unable to upload the element " ++ name (q_element params) ++ " to Endevor.")
              (Some ("Unable to read the element content because of error "
                       ++ message e ++ "."));
            ShowElementToEdit elementUri]).
Proof.
  intros Hparse Hloc Hccv Hread.
  run_upload Hparse Hloc Hccv ltac:(rewrite Hread).
  reflexivity.
Qed.

(** X4.  When the update call fails with an error that is neither a
    sign-out error nor a fingerprint mismatch, the command makes that one
    update call only, logs the failure with the error's message, and
    reopens the edit session; the temp file is kept and no event is
    dispatched. *)
Theorem generic_update_error_reopens_session
    (env : Env) (elementUri : Uri) (params : EditedElementUriQuery)
    (target : ElementMapPath) (ccv : ChangeControlValue) (content : string)
    (e : Error) (extraFuel : nat) :
  fromEditedElementUri env elementUri = Val params ->
  askForUploadLocation env = Some target ->
  askForChangeControlValue env = Some ccv ->
  getFileContent env 0 = Val content ->
  updateElement env 0 = Err e ->
  errorClass e = PlainError ->
  uploadElementCommand env (S extraFuel) elementUri []
  = (Some tt,
     app (uploadPreamble params)
       [GetFileContent (fsPath elementUri);
            UpdateElement (q_service params) (uploadTarget params target) ccv
              (q_fingerprint params) content;
            LoggerError
              ("Unable to upload the element " ++ name (q_element params) ++ " to Endevor.")
              (Some (message e ++ "."));
            ShowElementToEdit elementUri]).
Proof.
  intros Hparse Hloc Hccv Hread Hupd Hclass.
  destruct e as [c m]. cbn in Hclass. subst c.
  run_upload Hparse Hloc Hccv ltac:(first [rewrite Hread | rewrite Hupd]).
  reflexivity.
Qed.

(** X5.  When the update meets a sign-out error and the user declines
    the sign-out, no signOut call is made and the update is not tried
    again: the command logs that the element is signed out to somebody
    else (naming the upload target) and reopens the edit session. *)
Theorem declined_signout_stops_upload
    (env : Env) (elementUri : Uri) (params : EditedElementUriQuery)
    (target : ElementMapPath) (ccv : ChangeControlValue) (content : string)
    (e : Error) (extraFuel : nat) :
  fromEditedElementUri env elementUri = Val params ->
  askForUploadLocation env = Some target ->
  askForChangeControlValue env = Some ccv ->
  getFileContent env 0 = Val content ->
  updateElement env 0 = Err e ->
  errorClass e = SignoutError ->
  askToSignOutElements env 0 = {| signOutElements := false; automaticSignOut := false |} ->
  uploadElementCommand env (S extraFuel) elementUri []
  = (Some tt,
     app (uploadPreamble params)
       [GetFileContent (fsPath elementUri);
            UpdateElement (q_service params) (uploadTarget params target) ccv
              (q_fingerprint params) content;
            AskToSignOutElements [mp_name target];
            LoggerError
              ("Unable to upload the element " ++ name (q_element params) ++ " to Endevor.")
              (Some ("Unable to upload the element " ++ mp_name target
                       ++ " because it is signed out to somebody else" ++ "."));
            ShowElementToEdit elementUri]).
Proof.
  intros Hparse Hloc Hccv Hread Hupd Hclass Hask.
  destruct e as [c m]. cbn in Hclass. subst c.
  run_upload Hparse Hloc Hccv ltac:(first [rewrite Hread | rewrite Hupd | rewrite Hask]).
  rewrite !append_assoc. reflexivity.
Qed.

(** X6.  When the signOut call itself meets a sign-out error and the
    user declines the override, no override call is made, no event is
    dispatched and the update is not tried again; the command logs that
    the override was not selected and reopens the edit session. *)
Theorem declined_override_stops_upload
    (env : Env) (elementUri : Uri) (params : EditedElementUriQuery)
    (target : ElementMapPath) (ccv : ChangeControlValue) (content : string)
    (e e' : Error) (extraFuel : nat) :
  fromEditedElementUri env elementUri = Val params ->
  askForUploadLocation env = Some target ->
  askForChangeControlValue env = Some ccv ->
  getFileContent env 0 = Val content ->
  updateElement env 0 = Err e ->
  errorClass e = SignoutError ->
  askToSignOutElements env 0 = {| signOutElements := true; automaticSignOut := false |} ->
  signOutElement env 0 = Err e' ->
  errorClass e' = SignoutError ->
  askToOverrideSignOutForElements env 0 = false ->
  uploadElementCommand env (S extraFuel) elementUri []
  = (Some tt,
     app (uploadPreamble params)
       [GetFileContent (fsPath elementUri);
            UpdateElement (q_service params) (uploadTarget params target) ccv
              (q_fingerprint params) content;
            AskToSignOutElements [mp_name target];
            SignOutElement (q_service params) (uploadTarget params target) ccv;
            AskToOverrideSignOutForElements [mp_name target];
            LoggerError
              ("Unable to upload the element " ++ name (q_element params) ++ " to Endevor.")
              (Some ("The element " ++ mp_name target
                       ++ " is signed out to somebody else, override signout action is not selected"
                       ++ "."));
            ShowElementToEdit elementUri]).
Proof.
  intros Hparse Hloc Hccv Hread Hupd Hclass Hask Hso Hclass' Hov.
  destruct e as [c m]. cbn in Hclass. subst c.
  destruct e' as [c' m']. cbn in Hclass'. subst c'.
  run_upload Hparse Hloc Hccv
    ltac:(first [rewrite Hread | rewrite Hupd | rewrite Hask | rewrite Hso | rewrite Hov]).
  rewrite !append_assoc. reflexivity.
Qed.

(** X7.  When the signOut call meets a sign-out error, the user accepts
    the override, the override succeeds and the retried update succeeds,
    the command reads the file again for the second update, dispatches
    ELEMENT_SIGNEDOUT for the upload target after the override, and ends
    as after a plain upload: temp file removed, ELEMENT_UPDATED
    dispatched for the edited element. *)
Theorem override_then_clean_retry
    (env : Env) (elementUri : Uri) (params : EditedElementUriQuery)
    (target : ElementMapPath) (ccv : ChangeControlValue) (content0 content1 : string)
    (e e' : Error) (extraFuel : nat) :
  fromEditedElementUri env elementUri = Val params ->
  askForUploadLocation env = Some target ->
  askForChangeControlValue env = Some ccv ->
  getFileContent env 0 = Val content0 ->
  updateElement env 0 = Err e ->
  errorClass e = SignoutError ->
  askToSignOutElements env 0 = {| signOutElements := true; automaticSignOut := false |} ->
  signOutElement env 0 = Err e' ->
  errorClass e' = SignoutError ->
  askToOverrideSignOutForElements env 0 = true ->
  overrideSignOutElement env 0 = Val tt ->
  getFileContent env 1 = Val content1 ->
  updateElement env 1 = Val tt ->
  deleteFile env 0 = Val tt ->
  uploadElementCommand env (S (S extraFuel)) elementUri []
  = (Some tt,
     app (uploadPreamble params)
       [GetFileContent (fsPath elementUri);
            UpdateElement (q_service params) (uploadTarget params target) ccv
              (q_fingerprint params) content0;
            AskToSignOutElements [mp_name target];
            SignOutElement (q_service params) (uploadTarget params target) ccv;
            AskToOverrideSignOutForElements [mp_name target];
            OverrideSignOutElement (q_service params) (uploadTarget params target) ccv;
            Dispatch (treeAction ELEMENT_SIGNEDOUT params [uploadTarget params target]);
            GetFileContent (fsPath elementUri);
            UpdateElement (q_service params) (uploadTarget params target) ccv
              (q_fingerprint params) content1;
            DeleteFile elementUri;
            Dispatch (treeAction ELEMENT_UPDATED params [q_element params])]).
Proof.
  intros Hparse Hloc Hccv Hread0 Hupd0 Hclass Hask Hso Hclass' Hov Hovr Hread1 Hupd1 Hdel.
  destruct e as [c m]. cbn in Hclass. subst c.
  destruct e' as [c' m']. cbn in Hclass'. subst c'.
  run_upload Hparse Hloc Hccv
    ltac:(first [rewrite Hread0 | rewrite Hupd0 | rewrite Hask | rewrite Hso | rewrite Hov
                | rewrite Hovr | rewrite Hread1 | rewrite Hupd1 | rewrite Hdel]).
  reflexivity.
Qed.

(** X8.  When the update succeeded but the temp file cannot be removed,
    the failure is logged with the path of the file and the error, and
    the tree is still updated: the ELEMENT_UPDATED event follows. *)
Theorem failed_removal_is_logged_and_tree_updated
    (env : Env) (elementUri : Uri) (params : EditedElementUriQuery)
    (target : ElementMapPath) (ccv : ChangeControlValue) (content : string)
    (e : Error) (extraFuel : nat) :
  fromEditedElementUri env elementUri = Val params ->
  askForUploadLocation env = Some target ->
  askForChangeControlValue env = Some ccv ->
  getFileContent env 0 = Val content ->
  updateElement env 0 = Val tt ->
  deleteFile env 0 = Err e ->
  uploadElementCommand env (S extraFuel) elementUri []
  = (Some tt,
     app (uploadPreamble params)
       [GetFileContent (fsPath elementUri);
            UpdateElement (q_service params) (uploadTarget params target) ccv
              (q_fingerprint params) content;
            DeleteFile elementUri;
            LoggerError
              ("Unable to remove the file " ++ fsPath elementUri ++ ".")
              (Some ("Unable to remove the file " ++ fsPath elementUri
                       ++ " because of error " ++ message e ++ "."));
            Dispatch (treeAction ELEMENT_UPDATED params [q_element params])]).
Proof.
  intros Hparse Hloc Hccv Hread Hupd Hdel.
  run_upload Hparse Hloc Hccv ltac:(first [rewrite Hread | rewrite Hupd | rewrite Hdel]).
  reflexivity.
Qed.

(** X9.  [path.dirname] never returns the empty string, so the guard of
    [saveLocalElementVersion] on an empty edit folder never fires: the
    function always asks for the save of [<element name>-local-version],
    with the element's extension and the given content, in the directory
    of the edited file, and returns what the save answers. *)
Theorem local_version_is_always_saved
    (env : Env) (elementFilePath : string) (element : Element) (content : string)
    (t : Trace) :
  path_dirname elementFilePath <> EmptyString
  /\ saveLocalElementVersion env elementFilePath element content t
     = (saveFileIntoWorkspaceFolder env (count isSaveFile t),
        (t ++ [SaveFileIntoWorkspaceFolder (path_dirname elementFilePath)
                 (name element ++ "-local-version") (extension element) content])%list).
Proof.
  pose proof (path_dirname_not_empty elementFilePath) as Hdir.
  split; [apply String.eqb_neq; exact Hdir|].
  unfold saveLocalElementVersion, call. rewrite Hdir. reflexivity.
Qed.

(** The command either stops before the editor is closed, with one
    logged error after at most the two dialogs, or starts the upload. *)
Lemma uploadElementCommand_stops_or_starts (env : Env) (fuel : nat) (elementUri : Uri) :
  (exists m d,
     uploadElementCommand env fuel elementUri [] = (Some tt, [LoggerError m d]))
  \/ (exists p m d,
        uploadElementCommand env fuel elementUri []
        = (Some tt, [AskForUploadLocation p; LoggerError m d]))
  \/ (exists p c1 c2 m d,
        uploadElementCommand env fuel elementUri []
        = (Some tt, [AskForUploadLocation p; AskForChangeControlValue c1 c2; LoggerError m d]))
  \/ (exists params target ccv,
        fromEditedElementUri env elementUri = Val params
        /\ askForUploadLocation env = Some target
        /\ askForChangeControlValue env = Some ccv).
Proof.
  destruct (fromEditedElementUri env elementUri) as [params|e] eqn:Eparse.
  2:{ left. unfold uploadElementCommand, bind, ret, logger_error, emit. rewrite Eparse.
      cbn. eexists. eexists. reflexivity. }
  destruct (askForUploadLocation env) as [target|] eqn:Eloc.
  2:{ right. left. unfold uploadElementCommand, askForUploadValues, bind, call, ret,
        logger_error, emit. rewrite Eparse, Eloc. cbn.
      eexists. eexists. eexists. reflexivity. }
  destruct (askForChangeControlValue env) as [ccv|] eqn:Eccv.
  2:{ right. right. left. unfold uploadElementCommand, askForUploadValues, bind, call, ret,
        logger_error, emit. rewrite Eparse, Eloc, Eccv. cbn.
      do 5 eexists. reflexivity. }
  right. right. right. exists params, target, ccv. repeat split; reflexivity.
Qed.

(** X10.  Every call of one upload carries the arguments fixed at its
    start: each update, signOut and override call is made for the service
    of the edit session, the location chosen in the dialog with the
    extension of the edited element, and the change control value of the
    dialog; each update sends the fingerprint of the edit session, also
    after a sign-out; the file read, removed or reopened is the edited
    one; the sign-out prompts name the upload target. *)
Theorem upload_calls_carry_session_arguments
    (env : Env) (fuel : nat) (elementUri : Uri) (params : EditedElementUriQuery)
    (target : ElementMapPath) (ccv : ChangeControlValue) :
  fromEditedElementUri env elementUri = Val params ->
  askForUploadLocation env = Some target ->
  askForChangeControlValue env = Some ccv ->
  forall e, In e (snd (uploadElementCommand env fuel elementUri [])) ->
    match e with
    | UpdateElement s el c fp _ =>
        s = q_service params /\ el = uploadTarget params target /\ c = ccv
        /\ fp = q_fingerprint params
    | SignOutElement s el c | OverrideSignOutElement s el c =>
        s = q_service params /\ el = uploadTarget params target /\ c = ccv
    | GetFileContent file => file = fsPath elementUri
    | DeleteFile file | ShowElementToEdit file => file = elementUri
    | AskToSignOutElements names | AskToOverrideSignOutForElements names =>
        names = [mp_name target]
    | _ => True
    end.
Proof.
  intros Hparse Hloc Hccv e Hin.
  destruct (uploadElementCommand_shape env fuel elementUri params target ccv Hparse Hloc Hccv)
    as (r & l & tail & Hrun & _ & P & ->).
  rewrite Hrun in Hin. cbn [snd] in Hin.
  apply in_app_or in Hin. destruct Hin as [Hin|Hin].
  { cbn in Hin. destruct Hin as [<-|[<-|[<-|[]]]]; exact I. }
  apply in_app_or in Hin. destruct Hin as [Hin|Hin].
  { rewrite Forall_forall in P. specialize (P e Hin).
    destruct e; cbn in P; try exact I; try exact P; try contradiction. }
  unfold uploadEpilogue in Hin.
  destruct r as [[u|err]|]; [destruct (deleteFile env 0)| |]; cbn in Hin;
    repeat (destruct Hin as [<-|Hin]; [first [exact I | reflexivity]|]); destruct Hin.
Qed.

(** X11.  An upload that returns has either reopened the edit session
    or asked for the removal of the temp file, once, if and only if it
    had closed the editor; it never does both, and it closes the editor
    at most once. *)
Theorem closed_session_is_reopened_or_removed
    (env : Env) (fuel : nat) (elementUri : Uri) :
  fst (uploadElementCommand env fuel elementUri []) = Some tt ->
  let t := snd (uploadElementCommand env fuel elementUri []) in
  count isShow t + count isDeleteFile t = count isCloseEditor t
  /\ count isCloseEditor t <= 1.
Proof.
  intros Hret. cbv zeta.
  destruct (uploadElementCommand_stops_or_starts env fuel elementUri)
    as [(m & d & H)|[(p & m & d & H)|[(p & c1 & c2 & m & d & H)
        |(params & target & ccv & Hparse & Hloc & Hccv)]]];
    try (rewrite H; cbn; split; lia).
  destruct (uploadElementCommand_shape env fuel elementUri params target ccv Hparse Hloc Hccv)
    as (r & l & tail & Hrun & _ & P & ->).
  rewrite Hrun in Hret |- *. cbn [fst snd] in *.
  destruct (uploadEffect_quiet _ _ _ _ _ _ _ _ _ _ P) as (Hd & Hs & Hc & _).
  rewrite !count_app, Hd, Hs, Hc.
  unfold uploadEpilogue.
  destruct r as [[u|err]|]; [destruct (deleteFile env 0)| |discriminate]; cbn; split; lia.
Qed.

(** X12.  The ELEMENT_UPDATED event is dispatched exactly when the
    removal of the temp file was asked for, hence at most once per
    upload; it is then the last thing the command does, and it carries
    the edited element of the session. *)
Theorem updated_event_ends_a_clean_upload
    (env : Env) (fuel : nat) (elementUri : Uri) :
  let t := snd (uploadElementCommand env fuel elementUri []) in
  count (isDispatchOf ELEMENT_UPDATED) t = count isDeleteFile t
  /\ count isDeleteFile t <= 1
  /\ (count isDeleteFile t = 1 ->
      exists params before,
        fromEditedElementUri env elementUri = Val params
        /\ t = (before ++ [Dispatch (treeAction ELEMENT_UPDATED params [q_element params])])%list).
Proof.
  cbv zeta.
  destruct (uploadElementCommand_stops_or_starts env fuel elementUri)
    as [(m & d & H)|[(p & m & d & H)|[(p & c1 & c2 & m & d & H)
        |(params & target & ccv & Hparse & Hloc & Hccv)]]];
    try (rewrite H; cbn; repeat split; try lia; discriminate).
  destruct (uploadElementCommand_shape env fuel elementUri params target ccv Hparse Hloc Hccv)
    as (r & l & tail & Hrun & _ & P & ->).
  rewrite Hrun. cbn [fst snd].
  destruct (uploadEffect_quiet _ _ _ _ _ _ _ _ _ _ P) as (Hd & _ & _ & _ & Hu).
  rewrite !count_app, Hd, Hu.
  unfold uploadEpilogue.
  destruct r as [[u|err]|]; [destruct (deleteFile env 0)| |]; cbn;
    (split; [reflexivity|]); (split; [lia|]); intros Hone; try discriminate.
  - exists params, (uploadPreamble params ++ l ++ [DeleteFile elementUri])%list.
    split; [exact Hparse|]. rewrite <- !app_assoc. reflexivity.
  - exists params. eexists (uploadPreamble params ++ l ++ [DeleteFile elementUri; _])%list.
    split; [exact Hparse|]. rewrite <- !app_assoc. reflexivity.
Qed.

Lemma count_cons (p : Effect -> bool) (x : Effect) (l : Trace) :
  count p (x :: l) = (if p x then 1 else 0) + count p l.
Proof. unfold count. cbn. destruct (p x); reflexivity. Qed.

(** An update found in [l1 ++ l2] lies in [l2] when [l1] holds none. *)
Lemma update_after_quiet_prefix (l1 : Trace) :
  forall (a : Trace) (U : Effect) (b l2 : Trace),
    isUpdate U = true -> count isUpdate l1 = 0 ->
    (a ++ U :: b)%list = (l1 ++ l2)%list ->
    exists a', a = (l1 ++ a')%list /\ (a' ++ U :: b)%list = l2.
Proof.
  induction l1 as [|x l1 IH]; intros a U b l2 HU H0 Heq.
  - exists a. split; [reflexivity|exact Heq].
  - rewrite count_cons in H0. destruct (isUpdate x) eqn:Ex; [discriminate|]. cbn in H0.
    destruct a as [|y a]; cbn in Heq.
    + injection Heq as -> _. congruence.
    + injection Heq as -> Heq. destruct (IH a U b l2 HU H0 Heq) as (a' & -> & H2).
      exists a'. split; [reflexivity|exact H2].
Qed.

(** An update found in [l ++ tail] lies in [l] when [tail] holds none. *)
Lemma update_before_quiet_suffix (l : Trace) :
  forall (a : Trace) (U : Effect) (b tail : Trace),
    isUpdate U = true -> count isUpdate tail = 0 ->
    (a ++ U :: b)%list = (l ++ tail)%list ->
    exists b', b = (b' ++ tail)%list /\ l = (a ++ U :: b')%list.
Proof.
  induction l as [|x l IH]; intros a U b tail HU H0 Heq.
  - cbn in Heq.
    destruct (update_after_quiet_prefix tail a U b [] HU H0) as (a' & _ & H2).
    { rewrite app_nil_r. exact Heq. }
    destruct a'; discriminate.
  - destruct a as [|y a]; cbn in Heq.
    + injection Heq as -> ->. exists l. split; reflexivity.
    + injection Heq as -> Heq. destruct (IH a U b tail HU H0 Heq) as (b' & -> & ->).
      exists b'. split; reflexivity.
Qed.

Section FreshContent.
Variable env : Env.
Variables (service : Service) (searchLocation : ElementSearchLocation)
  (serviceName : EndevorServiceName) (searchLocationName : ElementLocationName)
  (element : Element) (ccv : ChangeControlValue) (elementFilePath fingerprint : string).

(** The first update of a run that reads [content0] and then goes on
    with [rest]. *)
Lemma update_in_round (t a b rest : Trace) (U : Effect) (content0 : string) :
  isUpdate U = true ->
  getFileContent env (count isGetFileContent t) = Val content0 ->
  (a ++ U :: b)%list
  = (GetFileContent elementFilePath
       :: UpdateElement service element ccv fingerprint content0 :: rest)%list ->
  (a = [GetFileContent elementFilePath]
   /\ U = UpdateElement service element ccv fingerprint content0)
  \/ exists a', a = (GetFileContent elementFilePath
                       :: UpdateElement service element ccv fingerprint content0 :: a')%list
                /\ (a' ++ U :: b)%list = rest.
Proof.
  intros HU Hread Heq.
  destruct a as [|x a]; cbn in Heq; [injection Heq as -> _; discriminate|].
  injection Heq as -> Heq.
  destruct a as [|y a]; cbn in Heq.
  - injection Heq as -> _. left. split; reflexivity.
  - injection Heq as -> Heq. right. exists a. split; [reflexivity|exact Heq].
Qed.

Lemma uploadElement_sends_read_content (fuel : nat) :
  forall (t a b : Trace) s el c fp content,
    snd (uploadElement env fuel service searchLocation serviceName searchLocationName
           element ccv elementFilePath fingerprint t)
    = (t ++ a ++ UpdateElement s el c fp content :: b)%list ->
    exists a',
      a = (a' ++ [GetFileContent elementFilePath])%list
      /\ getFileContent env (count isGetFileContent (t ++ a')%list) = Val content.
Proof.
  induction fuel as [|fuel IH]; intros t a b s el c fp content Hsnd.
  { cbn in Hsnd. rewrite <- (app_nil_r t) in Hsnd at 1. apply app_inv_head in Hsnd.
    destruct a; discriminate. }
  assert (Hquiet : forall rest a2, count isUpdate rest = 0 ->
            (a2 ++ UpdateElement s el c fp content :: b)%list = rest -> False).
  { intros rest a2 H0 Heq.
    destruct (update_after_quiet_prefix rest a2 (UpdateElement s el c fp content) b [] eq_refl H0) as (a' & _ & H2).
    { rewrite app_nil_r. exact Heq. }
    destruct a'; discriminate. }
  assert (Hfirst : forall content0 rest,
            getFileContent env (count isGetFileContent t) = Val content0 ->
            count isUpdate rest = 0 ->
            (a ++ UpdateElement s el c fp content :: b)%list
            = (GetFileContent elementFilePath
                 :: UpdateElement service element ccv fingerprint content0 :: rest)%list ->
            exists a',
              a = (a' ++ [GetFileContent elementFilePath])%list
              /\ getFileContent env (count isGetFileContent (t ++ a')%list) = Val content).
  { intros content0 rest Hread H0 Heq.
    destruct (update_in_round t a b rest (UpdateElement s el c fp content) content0 eq_refl Hread Heq)
      as [[-> HU]|(a2 & -> & H2)].
    - injection HU as _ _ _ _ ->. exists []. rewrite app_nil_r. split; [reflexivity|exact Hread].
    - exfalso. exact (Hquiet rest a2 H0 H2). }
  cbn [uploadElement] in Hsnd. unfold readEditedElementContent, bind, call, ret in Hsnd.
  destruct (getFileContent env (count isGetFileContent t)) as [content0|readError] eqn:Eread.
  2:{ cbn [snd] in Hsnd. apply app_inv_head in Hsnd.
      destruct a as [|x [|y a]]; discriminate. }
  destruct (isSignoutError (updateElement env _)).
  - match type of Hsnd with
    | context [complexSignoutElement env ?x1 ?x2 ?x3 ?x4 ?x5 ?x6 ?t2] =>
        destruct (complexSignoutElement_round env x1 x2 x3 x4 x5 x6 t2) as [l1 [Hl1 R1]];
        destruct (complexSignoutElement env x1 x2 x3 x4 x5 x6 t2) as [sr t3]
    end.
    cbn [fst snd] in Hl1, R1. subst t3.
    assert (Hno : count isUpdate l1 = 0) by (destruct R1; assumption). clear R1.
    destruct sr as [u|e].
    + match type of Hsnd with
      | context [uploadElement env fuel _ _ _ _ _ _ _ _ ?t3] =>
          destruct (uploadElement_effects env service searchLocation serviceName
                      searchLocationName element ccv elementFilePath fingerprint fuel t3)
            as [l2 [Hl2 _]];
          specialize (IH t3)
      end.
      rewrite Hl2 in Hsnd. rewrite <- !app_assoc in Hsnd. apply app_inv_head in Hsnd.
      cbn [app] in Hsnd. symmetry in Hsnd.
      destruct (update_in_round t a b (l1 ++ l2)%list (UpdateElement s el c fp content) content0 eq_refl Eread Hsnd)
        as [[-> HU]|(a2 & -> & H2)].
      * injection HU as _ _ _ _ ->. exists []. rewrite app_nil_r.
        split; [reflexivity|exact Eread].
      * destruct (update_after_quiet_prefix l1 a2 (UpdateElement s el c fp content) b l2 eq_refl Hno H2)
          as (a3 & -> & H3).
        destruct (IH a3 b s el c fp content) as (a' & -> & Hread').
        { rewrite Hl2. f_equal. symmetry. exact H3. }
        exists (GetFileContent elementFilePath
                  :: UpdateElement service element ccv fingerprint content0 :: l1 ++ a')%list.
        split; [cbn [app]; rewrite <- !app_assoc; reflexivity|].
        rewrite <- !app_assoc in Hread'. exact Hread'.
    + cbn [snd] in Hsnd. rewrite <- !app_assoc in Hsnd. apply app_inv_head in Hsnd.
      symmetry in Hsnd. exact (Hfirst content0 l1 eq_refl Hno Hsnd).
  - unfold saveLocalElementVersion, call, ret in Hsnd.
    repeat (match type of Hsnd with
            | context [match ?x with _ => _ end] =>
                lazymatch x with
                | context [match _ with _ => _ end] => fail
                | _ => destruct x eqn:?
                end
            end; cbn [fst snd] in Hsnd);
      rewrite <- ?app_assoc in Hsnd; apply app_inv_head in Hsnd; symmetry in Hsnd;
      (eapply Hfirst; [reflexivity| |exact Hsnd]); reflexivity.
Qed.

End FreshContent.

(** X13.  Every update call sends the content that the read of the
    edited file just before it returned: the file is read again before
    each attempt, also when the update is tried again after a sign-out. *)
Theorem update_sends_the_content_just_read
    (env : Env) (fuel : nat) (elementUri : Uri) (before after : Trace)
    (s : Service) (el : Element) (c : ChangeControlValue) (fp content : string) :
  snd (uploadElementCommand env fuel elementUri [])
  = (before ++ UpdateElement s el c fp content :: after)%list ->
  exists before',
    before = (before' ++ [GetFileContent (fsPath elementUri)])%list
    /\ getFileContent env (count isGetFileContent before') = Val content.
Proof.
  intros Ht.
  destruct (uploadElementCommand_stops_or_starts env fuel elementUri)
    as [(m & d & H)|[(p & m & d & H)|[(p & c1 & c2 & m & d & H)
        |(params & target & ccv & Hparse & Hloc & Hccv)]]];
    try (rewrite H in Ht; cbn [snd] in Ht;
         destruct before as [|x1 [|x2 [|x3 [|x4 before]]]]; discriminate).
  destruct (uploadElementCommand_shape env fuel elementUri params target ccv Hparse Hloc Hccv)
    as (r & l & tail & Hrun & Hup & P & Htail).
  rewrite Hrun in Ht. cbn [snd] in Ht. symmetry in Ht.
  destruct (update_after_quiet_prefix (uploadPreamble params) before (UpdateElement s el c fp content) after (l ++ tail)%list
              eq_refl eq_refl Ht) as (a & -> & Ha).
  assert (Hq : count isUpdate tail = 0).
  { subst tail. unfold uploadEpilogue.
    destruct r as [[u|err]|]; [destruct (deleteFile env 0)| |]; reflexivity. }
  destruct (update_before_quiet_suffix l a (UpdateElement s el c fp content) after tail eq_refl Hq Ha) as (b' & -> & ->).
  destruct (uploadElement_sends_read_content env (q_service params) (q_searchLocation params)
              (q_serviceName params) (q_searchLocationName params)
              (uploadTarget params target) ccv (fsPath elementUri) (q_fingerprint params)
              fuel (uploadPreamble params) a b' s el c fp content) as (a' & -> & Hread).
  { rewrite Hup. reflexivity. }
  exists (uploadPreamble params ++ a')%list. split; [rewrite <- app_assoc; reflexivity|exact Hread].
Qed.

(** *** The attempts of an upload *)

Ltac flat := repeat first [rewrite <- app_assoc | progress cbn [app]].
Ltac flat_in H := repeat first [rewrite <- app_assoc in H | progress cbn [app] in H].

Section AttemptsOfARun.
Variable env : Env.
Variables (service : Service) (searchLocation : ElementSearchLocation)
  (serviceName : EndevorServiceName) (searchLocationName : ElementLocationName)
  (element : Element) (ccv : ChangeControlValue) (elementFilePath fingerprint : string).

Let attempts :=
  Attempts env service searchLocation serviceName searchLocationName element ccv
    elementFilePath fingerprint.

Let recover :=
  complexSignoutElement env service searchLocation serviceName searchLocationName
    element ccv.

Lemma complexSignoutElement_starts_with_prompt (t : Trace) :
  exists rest, snd (recover t) = (t ++ AskToSignOutElements [name element] :: rest)%list.
Proof.
  unfold recover, complexSignoutElement, updateTreeAfterSuccessfulSignout, dispatch, bind,
    call, ret, emit.
  repeat (break_match; cbn [fst snd]); rewrite <- ?app_assoc; eexists; reflexivity.
Qed.

Lemma uploadElement_attempts (fuel : nat) :
  forall t, exists l,
    snd (uploadElement env fuel service searchLocation serviceName searchLocationName
           element ccv elementFilePath fingerprint t) = (t ++ l)%list
    /\ attempts t
         (match fst (uploadElement env fuel service searchLocation serviceName
                       searchLocationName element ccv elementFilePath fingerprint t) with
          | Some _ => true
          | None => false
          end) l.
Proof.
  induction fuel as [|fuel IH]; intros t.
  { exists []. rewrite app_nil_r. split; [reflexivity|constructor]. }
  cbn [uploadElement]. unfold readEditedElementContent, bind, call, ret.
  destruct (getFileContent env (count isGetFileContent t)) as [content|readError] eqn:Eread.
  2:{ eexists. split; [reflexivity|]. cbn [fst]. econstructor. exact Eread. }
  assert (Hc : count isUpdate (t ++ [GetFileContent elementFilePath])%list = count isUpdate t)
    by (rewrite count_app; cbn; lia).
  rewrite Hc. rewrite <- !app_assoc. cbn [app].
  remember (t ++ [GetFileContent elementFilePath;
                  UpdateElement service element ccv fingerprint content])%list as t2 eqn:Et2.
  destruct (isSignoutError (updateElement env (count isUpdate t))) eqn:Eso.
  - destruct (complexSignoutElement_round env service searchLocation serviceName
                searchLocationName element ccv t2) as [l1 [Hl1 R1]].
    destruct (complexSignoutElement env service searchLocation serviceName
                searchLocationName element ccv t2) as [sr t3] eqn:Ecs.
    cbn [fst snd] in Hl1, R1. subst t3.
    assert (Hno : count isUpdate l1 = 0) by (destruct R1; assumption). clear R1.
    destruct sr as [[]|e].
    + destruct (IH (t2 ++ l1)%list) as [l2 [Hl2 A2]].
      rewrite Hl2.
      exists (GetFileContent elementFilePath
                :: UpdateElement service element ccv fingerprint content :: l1 ++ l2)%list.
      subst t2.
      split; [rewrite <- !app_assoc; reflexivity|].
      eapply attempts_retry; [exact Eread|exact Eso|exact Ecs|exact A2].
    + cbn [fst snd]. subst t2. rewrite <- !app_assoc. cbn [app]. eexists.
      split; [reflexivity|].
      apply attempts_last; [exact Eread|exact Hno|].
      intros _. exists e. exact Ecs.
  - unfold saveLocalElementVersion, call, ret. subst t2.
    repeat (break_match; cbn [fst snd]);
      rewrite <- ?app_assoc; cbn [app]; eexists; (split; [reflexivity|]);
      (apply attempts_last; [exact Eread|reflexivity|intros H; congruence]).
Qed.

(** The first update of a run comes right after its first read. *)
Lemma attempts_first_update (t l : Trace) (returned : bool) (a b : Trace) (U : Effect) :
  attempts t returned l ->
  l = (a ++ U :: b)%list -> isUpdate U = true -> count isUpdate a = 0 ->
  a = [GetFileContent elementFilePath].
Proof.
  unfold attempts. intros H Hl HU Hz.
  destruct H as [t|t error Hread|t content1 rest Hread Hq _
                 |t content1 recovery later returned Hread _ _ _].
  - destruct a; discriminate.
  - destruct a as [|x [|y a]]; [injection Hl as <-; discriminate|discriminate|discriminate].
  - destruct a as [|x a]; [injection Hl as <- _; discriminate|].
    injection Hl as <- Hl. destruct a as [|y a]; [reflexivity|].
    injection Hl as <- _. rewrite !count_cons in Hz. cbn in Hz. discriminate.
  - destruct a as [|x a]; [injection Hl as <- _; discriminate|].
    injection Hl as <- Hl. destruct a as [|y a]; [reflexivity|].
    injection Hl as <- _. rewrite !count_cons in Hz. cbn in Hz. discriminate.
Qed.

(** What the attempts of a run say of each update call in it. *)
Lemma attempts_of_update (t l : Trace) (returned : bool) :
  attempts t returned l ->
  forall a b content,
    l = (a ++ UpdateElement service element ccv fingerprint content :: b)%list ->
    (0 < count isUpdate a ->
     exists a1 previous recovery,
       a = (a1 ++ previous :: recovery ++ [GetFileContent elementFilePath])%list
       /\ isUpdate previous = true
       /\ isSignoutError (updateElement env (count isUpdate (t ++ a1)%list)) = true
       /\ recover ((t ++ a1) ++ [previous])%list
          = (Val tt, (((t ++ a1) ++ [previous]) ++ recovery)%list))
    /\ (isSignoutError (updateElement env (count isUpdate (t ++ a)%list)) = true ->
        exists recovery rest,
          b = (recovery ++ rest)%list
          /\ snd (recover ((t ++ a)
                             ++ [UpdateElement service element ccv fingerprint content])%list)
             = (((t ++ a) ++ [UpdateElement service element ccv fingerprint content])
                  ++ recovery)%list
          /\ (fst (recover ((t ++ a)
                              ++ [UpdateElement service element ccv fingerprint content])%list)
              = Val tt ->
              returned = true ->
              exists rest',
                rest = GetFileContent elementFilePath :: rest'
                /\ forall content',
                     getFileContent env
                       (count isGetFileContent
                          ((t ++ a)
                             ++ UpdateElement service element ccv fingerprint content
                             :: recovery)%list)
                     = Val content' ->
                     exists rest'',
                       rest' = UpdateElement service element ccv fingerprint content'
                                 :: rest'')).
Proof.
  unfold attempts, recover.
  induction 1 as [t|t error Hread|t content0 rest Hread Hquiet Hfail
                  |t content0 recovery later returned Hread Hso Hrec Hlater IH];
    intros a b content Hl.
  - destruct a; discriminate.
  - destruct a as [|x [|y a]]; discriminate.
  - destruct (update_in_round env service element ccv elementFilePath fingerprint t a b rest
                (UpdateElement service element ccv fingerprint content) content0
                eq_refl Hread (eq_sym Hl)) as [[-> HU]|(a2 & -> & H2)].
    + injection HU as ->. split; [cbn; lia|].
      intros Hso.
      assert (Hidx : count isUpdate (t ++ [GetFileContent elementFilePath])%list
                     = count isUpdate t) by (rewrite count_app; cbn; lia).
      rewrite Hidx in Hso. destruct (Hfail Hso) as (error & Hrec).
      injection Hl as <-.
      exists rest, []. rewrite app_nil_r. rewrite <- ?app_assoc. cbn [app].
      split; [reflexivity|]. rewrite Hrec. cbn [fst snd].
      split; [rewrite <- ?app_assoc; reflexivity|discriminate].
    + exfalso.
      destruct (update_after_quiet_prefix rest a2
                  (UpdateElement service element ccv fingerprint content) b []
                  eq_refl Hquiet) as (a' & _ & H3).
      { rewrite app_nil_r. exact H2. }
      destruct a'; discriminate.
  - destruct (update_in_round env service element ccv elementFilePath fingerprint t a b
                (recovery ++ later)%list
                (UpdateElement service element ccv fingerprint content) content0
                eq_refl Hread (eq_sym Hl)) as [[-> HU]|(a2 & -> & H2)].
    + injection HU as ->. split; [cbn; lia|].
      intros _. injection Hl as <-.
      exists recovery, later. rewrite <- ?app_assoc. cbn [app].
      split; [reflexivity|]. rewrite Hrec. cbn [fst snd].
      split; [rewrite <- ?app_assoc; reflexivity|].
      intros _ ->.
      inversion Hlater as [|t' error Hread'|t' content1 rest' Hread' _ _
                           |t' content1 recovery' later' returned' Hread' _ _ _]; subst.
      * eexists. split; [reflexivity|]. intros content' Hc.
        rewrite <- ?app_assoc in Hread'. cbn [app] in Hread'.
        rewrite <- ?app_assoc in Hc. cbn [app] in Hc. congruence.
      * eexists. split; [reflexivity|]. intros content' Hc.
        rewrite <- ?app_assoc in Hread'. cbn [app] in Hread'.
        rewrite <- ?app_assoc in Hc. cbn [app] in Hc.
        assert (content' = content1) by congruence. subst. eexists. reflexivity.
      * eexists. split; [reflexivity|]. intros content' Hc.
        rewrite <- ?app_assoc in Hread'. cbn [app] in Hread'.
        rewrite <- ?app_assoc in Hc. cbn [app] in Hc.
        assert (content' = content1) by congruence. subst. eexists. reflexivity.
    + assert (Hno : count isUpdate recovery = 0).
      { destruct (complexSignoutElement_round env service searchLocation serviceName
                    searchLocationName element ccv
                    (t ++ [GetFileContent elementFilePath;
                           UpdateElement service element ccv fingerprint content0])%list)
          as (l1 & Hl1 & R1).
        rewrite Hrec in Hl1, R1.
        cbn [fst snd] in Hl1, R1.
        apply app_inv_head in Hl1. subst l1. destruct R1; assumption. }
      destruct (update_after_quiet_prefix recovery a2
                  (UpdateElement service element ccv fingerprint content) b later
                  eq_refl Hno H2) as (a3 & -> & H3).
      destruct (IH a3 b content (eq_sym H3)) as [IHa IHb].
      split.
      * intros _.
        destruct (Nat.eq_dec (count isUpdate a3) 0) as [Hz|Hnz].
        -- (* the first attempt of the run started after the recovery *)
           assert (Ha3 : a3 = [GetFileContent elementFilePath])
             by (eapply (attempts_first_update _ _ _ a3 b); [exact Hlater|exact (eq_sym H3)
                                                           |reflexivity|exact Hz]).
           subst a3.
           exists [GetFileContent elementFilePath],
             (UpdateElement service element ccv fingerprint content0), recovery.
           split; [reflexivity|]. split; [reflexivity|]. split.
           ++ rewrite count_app. cbn. rewrite Nat.add_0_r. exact Hso.
           ++ rewrite <- ?app_assoc. cbn [app]. rewrite Hrec.
              rewrite <- ?app_assoc. reflexivity.
        -- destruct IHa as (a1 & previous & recovery' & -> & Hp & Hs & Hr); [lia|].
           exists (GetFileContent elementFilePath
                     :: UpdateElement service element ccv fingerprint content0
                     :: recovery ++ a1)%list, previous, recovery'.
           split; [cbn [app]; rewrite <- ?app_assoc; reflexivity|].
           split; [exact Hp|]. split.
           ++ flat_in Hs. flat. exact Hs.
           ++ flat_in Hr. flat. exact Hr.
      * intros Hso'.
        destruct IHb as (recovery' & rest & -> & Hsnd & Hnext).
        { flat_in Hso'. flat. exact Hso'. }
        exists recovery', rest. split; [reflexivity|].
        flat_in Hsnd. flat_in Hnext. flat.
        split; [exact Hsnd|exact Hnext].
Qed.

End AttemptsOfARun.

(** A sign-out recovery that returns without an error received the
    answers of a successful sign-out. *)
Lemma complexSignoutElement_succeeded
    (env : Env) (service : Service) (searchLocation : ElementSearchLocation)
    (serviceName : EndevorServiceName) (searchLocationName : ElementLocationName)
    (element : Element) (ccv : ActionChangeControlValue) (t : Trace) :
  fst (complexSignoutElement env service searchLocation serviceName searchLocationName
         element ccv t) = Val tt ->
  signOutSucceeded env t = true.
Proof.
  unfold signOutSucceeded, signOutOverridden, signOutContended, signOutAccepted.
  unfold complexSignoutElement, updateTreeAfterSuccessfulSignout, dispatch, bind, call, ret, emit.
  destruct (askToSignOutElements env (count isAskToSignOut t)) as [so au].
  cbn [signOutElements automaticSignOut].
  destruct so, au; cbn [negb andb orb fst snd].
  all: settle_counts.
  all: try (intros; try discriminate; reflexivity).
  all: destruct (signOutElement env (count isSignOut t)) as [[]|[[] m]];
    cbn [isSignoutError isError errorClass negb andb orb fst snd].
  all: settle_counts.
  all: try (intros; try discriminate; reflexivity).
  all: destruct (askToOverrideSignOutForElements env (count isAskToOverride t));
    cbn [negb andb orb fst snd].
  all: settle_counts.
  all: try (intros; try discriminate; reflexivity).
  all: destruct (overrideSignOutElement env (count isOverrideSignOut t)) as [[]|e];
    cbn [isError negb andb orb fst snd].
  all: intros; try discriminate; reflexivity.
Qed.

(** C4 (as amended).  In every run of the upload command, every update
    call after the first follows its own successful sign-out (or override
    sign-out), and the sign-out path is entered again whenever an update
    call, retried or not, is answered with a sign-out error: the
    escalation can be taken more than once.  In detail, the calls are
    counted: the update calls are at most one more than the
    ELEMENT_SIGNEDOUT events, every such event comes from a signOut call,
    every signOut call from a sign-out prompt, every prompt from an update
    call, and an override is asked for and tried at most once per signOut
    call.  And for every update call of the run: if it is not the first
    one, the calls before it end with an earlier update call that was
    answered with a sign-out error, then the sign-out recovery started
    right after that call, which returned without an error (the sign-out
    was accepted and the signOut call succeeded, or, after its sign-out
    error, the override was accepted and the override call succeeded),
    then the read of the edited file; if the update call is itself
    answered with a sign-out error, the calls right after it are those of
    the sign-out recovery, which begins with the sign-out prompt, and if
    that recovery returns without an error and the command returns, the
    edited file is read once more and, if it is read, the next update
    call follows with the content read. *)
Theorem retries_follow_successful_signouts (env : Env) (fuel : nat) (elementUri : Uri) :
  let run := uploadElementCommand env fuel elementUri [] in
  let t := snd run in
  (count isUpdate t <= S (count (isDispatchOf ELEMENT_SIGNEDOUT) t)
   /\ count (isDispatchOf ELEMENT_SIGNEDOUT) t <= count isSignOut t
   /\ count isSignOut t <= count isAskToSignOut t
   /\ count isAskToSignOut t <= count isUpdate t
   /\ count isAskToOverride t <= count isSignOut t
   /\ count isOverrideSignOut t <= count isAskToOverride t
   /\ count isUpdate t <= count isGetFileContent t)
  /\ forall (before after : Trace) (s : Service) (el : Element) (c : ChangeControlValue)
            (fp content : string),
       t = (before ++ UpdateElement s el c fp content :: after)%list ->
       exists params : EditedElementUriQuery,
         fromEditedElementUri env elementUri = Val params
         /\ let recover :=
              complexSignoutElement env s (q_searchLocation params) (q_serviceName params)
                (q_searchLocationName params) el c in
            let update := UpdateElement s el c fp content in
            (0 < count isUpdate before ->
             exists (earlier : Trace) (previous : Effect) (recovery : Trace),
               before = (earlier ++ previous :: recovery
                           ++ [GetFileContent (fsPath elementUri)])%list
               /\ isUpdate previous = true
               /\ isSignoutError (updateElement env (count isUpdate earlier)) = true
               /\ recover (earlier ++ [previous])%list
                  = (Val tt, ((earlier ++ [previous]) ++ recovery)%list)
               /\ signOutSucceeded env (earlier ++ [previous])%list = true)
            /\ (isSignoutError (updateElement env (count isUpdate before)) = true ->
                exists (recovery rest : Trace),
                  after = (recovery ++ rest)%list
                  /\ snd (recover (before ++ [update])%list)
                     = ((before ++ [update]) ++ recovery)%list
                  /\ (exists more, recovery = AskToSignOutElements [name el] :: more)
                  /\ (fst (recover (before ++ [update])%list) = Val tt ->
                      fst run = Some tt ->
                      exists rest',
                        rest = GetFileContent (fsPath elementUri) :: rest'
                        /\ forall content',
                             getFileContent env
                               (count isGetFileContent (before ++ update :: recovery)%list)
                             = Val content' ->
                             exists rest'',
                               rest' = UpdateElement s el c fp content' :: rest'')).
Proof.
  cbv zeta. split; [exact (upload_call_counts env fuel elementUri)|].
  intros before after s el c fp content Ht.
  destruct (uploadElementCommand_stops_or_starts env fuel elementUri)
    as [(m & d & H)|[(p & m & d & H)|[(p & c1 & c2 & m & d & H)
        |(params & target & ccv & Hparse & Hloc & Hccv)]]];
    try (rewrite H in Ht; cbn [snd] in Ht;
         destruct before as [|x1 [|x2 [|x3 [|x4 before]]]]; discriminate).
  destruct (uploadElementCommand_shape env fuel elementUri params target ccv Hparse Hloc Hccv)
    as (r & l & tail & Hrun & Hup & P & Htail).
  rewrite Hrun in Ht |- *. cbn [fst snd] in Ht |- *.
  destruct (update_after_quiet_prefix (uploadPreamble params) before
              (UpdateElement s el c fp content) after (l ++ tail)%list
              eq_refl eq_refl (eq_sym Ht)) as (a & -> & Ha).
  assert (Hq : count isUpdate tail = 0).
  { subst tail. unfold uploadEpilogue.
    destruct r as [[u|err]|]; [destruct (deleteFile env 0)| |]; reflexivity. }
  destruct (update_before_quiet_suffix l a (UpdateElement s el c fp content) after tail
              eq_refl Hq Ha) as (b' & -> & ->).
  apply Forall_app in P. destruct P as [_ P]. apply Forall_inv in P.
  cbn in P. destruct P as (-> & -> & -> & ->).
  exists params. split; [exact Hparse|].
  pose proof (uploadElement_attempts env (q_service params) (q_searchLocation params)
                (q_serviceName params) (q_searchLocationName params)
                (uploadTarget params target) ccv (fsPath elementUri) (q_fingerprint params)
                fuel (uploadPreamble params)) as Hatt.
  cbv zeta in Hatt. destruct Hatt as (l' & Hl' & Hatt).
  rewrite Hup in Hl', Hatt. cbn [fst snd] in Hl', Hatt. apply app_inv_head in Hl'. subst l'.
  pose proof (attempts_of_update env (q_service params) (q_searchLocation params)
                (q_serviceName params) (q_searchLocationName params)
                (uploadTarget params target) ccv (fsPath elementUri) (q_fingerprint params)
                _ _ _ Hatt a b' content eq_refl) as Hof.
  cbv zeta in Hof. destruct Hof as [HA HB].
  split.
  - intros Hlt. rewrite count_app in Hlt.
    change (count isUpdate (uploadPreamble params)) with 0 in Hlt.
    destruct (HA Hlt) as (a1 & previous & recovery & -> & Hp & Hs & Hr).
    exists (uploadPreamble params ++ a1)%list, previous, recovery.
    split; [rewrite <- app_assoc; reflexivity|].
    split; [exact Hp|]. split; [exact Hs|]. split; [exact Hr|].
    apply (complexSignoutElement_succeeded env (q_service params) (q_searchLocation params)
             (q_serviceName params) (q_searchLocationName params)
             (uploadTarget params target) ccv).
    rewrite Hr. reflexivity.
  - intros Hso. destruct (HB Hso) as (recovery & rest & -> & Hsnd & Hnext).
    exists recovery, (rest ++ tail)%list.
    split; [rewrite <- app_assoc; reflexivity|].
    split; [exact Hsnd|]. split.
    + pose proof (complexSignoutElement_starts_with_prompt env (q_service params)
                    (q_searchLocation params) (q_serviceName params)
                    (q_searchLocationName params) (uploadTarget params target) ccv
                    ((uploadPreamble params ++ a)
                       ++ [UpdateElement (q_service params) (uploadTarget params target) ccv
                             (q_fingerprint params) content])%list) as Hprompt.
      cbv zeta in Hprompt. destruct Hprompt as (more & Hmore).
      rewrite Hsnd in Hmore. apply app_inv_head in Hmore. exists more. exact Hmore.
    + intros Hok Hret.
      destruct Hnext as (rest' & -> & Hnext); [exact Hok| |].
      { destruct r; [reflexivity|discriminate]. }
      exists (rest' ++ tail)%list. split; [reflexivity|].
      intros content' Hc. destruct (Hnext content' Hc) as (rest'' & ->).
      exists (rest'' ++ tail)%list. reflexivity.
Qed.

(** *** The dialogs and the retries of the upload command *)

Lemma uploadEffect_no_dialog env service searchLocation serviceName searchLocationName
    element ccv elementFilePath fingerprint (l : Trace) :
  Forall (uploadEffect env service searchLocation serviceName searchLocationName element
            ccv elementFilePath fingerprint) l ->
  count isAskForUploadLocation l = 0 /\ count isAskForChangeControlValue l = 0.
Proof.
  unfold count. induction 1 as [|x l Hx Hl IH]; cbn; [split; reflexivity|].
  destruct x; cbn in *; try contradiction; exact IH.
Qed.

(** X14.  The two dialogs gate the upload: the upload location is asked
    for exactly if the URI of the edit session could be read, the change
    control value exactly if the location dialog was then confirmed, and
    the editor is closed exactly if both dialogs were confirmed.  A
    command that does not get that far reads no file, calls Endevor for
    nothing, and logs exactly one error. *)
Theorem dialogs_gate_the_upload (env : Env) (fuel : nat) (elementUri : Uri) :
  let t := snd (uploadElementCommand env fuel elementUri []) in
  let parsed := negb (isError (fromEditedElementUri env elementUri)) in
  let located :=
    parsed && match askForUploadLocation env with Some _ => true | None => false end in
  let started :=
    located && match askForChangeControlValue env with Some _ => true | None => false end in
  count isAskForUploadLocation t = (if parsed then 1 else 0)
  /\ count isAskForChangeControlValue t = (if located then 1 else 0)
  /\ count isCloseEditor t = (if started then 1 else 0)
  /\ (started = false ->
      count isGetFileContent t = 0 /\ count isRemoteCall t = 0
      /\ count isLoggerError t = 1
      /\ fst (uploadElementCommand env fuel elementUri []) = Some tt).
Proof.
  cbv zeta.
  destruct (fromEditedElementUri env elementUri) as [params|e] eqn:Eparse.
  2:{ unfold uploadElementCommand, bind, ret, logger_error, emit. rewrite Eparse.
      cbn. repeat split; reflexivity. }
  destruct (askForUploadLocation env) as [target|] eqn:Eloc.
  2:{ unfold uploadElementCommand, askForUploadValues, bind, call, ret, logger_error, emit.
      rewrite Eparse, Eloc. cbn. repeat split; reflexivity. }
  destruct (askForChangeControlValue env) as [ccv|] eqn:Eccv.
  2:{ unfold uploadElementCommand, askForUploadValues, bind, call, ret, logger_error, emit.
      rewrite Eparse, Eloc, Eccv. cbn. repeat split; reflexivity. }
  destruct (uploadElementCommand_shape env fuel elementUri params target ccv Eparse Eloc Eccv)
    as (r & l & tail & Hrun & _ & P & ->).
  rewrite Hrun. cbn [fst snd isError negb andb].
  destruct (uploadEffect_quiet _ _ _ _ _ _ _ _ _ _ P) as (_ & _ & Hc & _).
  destruct (uploadEffect_no_dialog _ _ _ _ _ _ _ _ _ _ P) as (Ha & Hb).
  rewrite !count_app, Ha, Hb, Hc. unfold uploadEpilogue.
  destruct r as [[u|err]|]; [destruct (deleteFile env 0)| |]; cbn;
    repeat split; try reflexivity; discriminate.
Qed.

Section Retries.
Variable env : Env.
Variables (service : Service) (searchLocation : ElementSearchLocation)
  (serviceName : EndevorServiceName) (searchLocationName : ElementLocationName)
  (element : Element) (ccv : ChangeControlValue) (elementFilePath fingerprint : string).

(** Every update call of a run but the last was answered by a sign-out
    error. *)
Lemma uploadElement_retries (fuel : nat) :
  forall t n,
    count isUpdate t <= n ->
    S n < count isUpdate
            (snd (uploadElement env fuel service searchLocation serviceName
                    searchLocationName element ccv elementFilePath fingerprint t)) ->
    isSignoutError (updateElement env n) = true.
Proof.
  induction fuel as [|fuel IH]; intros t n Hle Hlt.
  { cbn [uploadElement] in Hlt. unfold ret in Hlt. cbn [snd] in Hlt. lia. }
  cbn [uploadElement] in Hlt. unfold readEditedElementContent, bind, call, ret in Hlt.
  destruct (getFileContent env (count isGetFileContent t)) as [content|readError].
  2:{ cbn [snd] in Hlt. rewrite count_app in Hlt.
      change (count isUpdate [GetFileContent elementFilePath]) with 0 in Hlt. lia. }
  assert (Hc : count isUpdate (t ++ [GetFileContent elementFilePath])%list = count isUpdate t)
    by (rewrite count_app; cbn; lia).
  rewrite Hc in Hlt.
  destruct (isSignoutError (updateElement env (count isUpdate t))) eqn:Eso.
  - match type of Hlt with
    | context [complexSignoutElement env ?x1 ?x2 ?x3 ?x4 ?x5 ?x6 ?t2] =>
        destruct (complexSignoutElement_round env x1 x2 x3 x4 x5 x6 t2) as [l1 [Hl1 R1]];
        destruct (complexSignoutElement env x1 x2 x3 x4 x5 x6 t2) as [sr t3]
    end.
    cbn [fst snd] in Hl1, R1. subst t3.
    assert (Hno : count isUpdate l1 = 0) by (destruct R1; assumption). clear R1.
    destruct sr as [u|e].
    + destruct (Nat.eq_dec n (count isUpdate t)) as [->|Hne]; [exact Eso|].
      apply IH in Hlt; [exact Hlt|]. rewrite !count_app, Hno. cbn. lia.
    + cbn [snd] in Hlt. rewrite !count_app, Hno in Hlt. cbn in Hlt. lia.
  - unfold saveLocalElementVersion, call, ret in Hlt.
    repeat (match type of Hlt with
            | context [match ?x with _ => _ end] =>
                lazymatch x with
                | context [match _ with _ => _ end] => fail
                | _ => destruct x eqn:?
                end
            end; cbn [fst snd] in Hlt);
      rewrite !count_app in Hlt; cbn in Hlt; lia.
Qed.

End Retries.

(** X15.  The update is tried again only after a sign-out error: as
    soon as an update call is answered by anything else (success, a
    fingerprint mismatch or another error) the command returns, having
    made no further update call.  So if the update call number [j]
    (counted from 0) is not answered by a sign-out error, the command
    returns after at most [j + 1] update calls. *)
Theorem upload_ends_at_the_first_settled_update
    (env : Env) (elementUri : Uri) (j extraFuel : nat) :
  isSignoutError (updateElement env j) = false ->
  let run := uploadElementCommand env (S (j + extraFuel)) elementUri [] in
  fst run = Some tt /\ count isUpdate (snd run) <= S j.
Proof.
  intros Hj. cbv zeta.
  pose proof (uploadElementCommand_returns env elementUri (j + extraFuel) j
                (Nat.le_add_r j extraFuel) Hj) as Hret.
  split.
  { destruct (fst (uploadElementCommand env (S (j + extraFuel)) elementUri []))
      as [[]|]; [reflexivity|congruence]. }
  destruct (uploadElementCommand_stops_or_starts env (S (j + extraFuel)) elementUri)
    as [(m & d & H)|[(p & m & d & H)|[(p & c1 & c2 & m & d & H)
        |(params & target & ccv & Hparse & Hloc & Hccv)]]];
    try (rewrite H; cbn; lia).
  destruct (uploadElementCommand_shape env (S (j + extraFuel)) elementUri params target ccv
              Hparse Hloc Hccv) as (r & l & tail & Hrun & Hup & P & Htail).
  rewrite Hrun. cbn [snd].
  assert (Hq : count isUpdate tail = 0).
  { subst tail. unfold uploadEpilogue.
    destruct r as [[u|err]|]; [destruct (deleteFile env 0)| |]; reflexivity. }
  rewrite app_assoc, count_app, Hq, Nat.add_0_r.
  destruct (le_lt_dec (count isUpdate (uploadPreamble params ++ l)%list) (S j))
    as [Hle|Hlt]; [exact Hle|].
  exfalso.
  pose proof (uploadElement_retries env (q_service params) (q_searchLocation params)
                (q_serviceName params) (q_searchLocationName params)
                (uploadTarget params target) ccv (fsPath elementUri) (q_fingerprint params)
                (S (j + extraFuel)) (uploadPreamble params) j) as Hretry.
  rewrite Hup in Hretry. cbn [snd] in Hretry.
  rewrite Hretry in Hj; [discriminate|cbn; lia|exact Hlt].
Qed.

Lemma upload_ends_at_the_first_settled_update_witness :
  let run := uploadElementCommand Samples.contendedWorld 5 Samples.editedElementUri [] in
  fst run = Some tt /\ count isUpdate (snd run) <= 3.
Proof.
  exact (upload_ends_at_the_first_settled_update Samples.contendedWorld
           Samples.editedElementUri 2 2 eq_refl).
Defined.

(** **** The properties above at the fixtures of the tests *)

Lemma unreadable_file_stops_before_update_witness :
  let t := snd (uploadElementCommand Samples.unreadableWorld 1 Samples.editedElementUri []) in
  count isRemoteCall t = 0
  /\ filter isLoggerError t
     = [LoggerError "Unable to upload the element ELM to Endevor."
          (Some "Unable to read the element content because of error no such file.")]
  /\ last t CloseActiveTextEditor = ShowElementToEdit Samples.editedElementUri.
Proof.
  cbv zeta.
  rewrite (unreadable_file_stops_before_update Samples.unreadableWorld
             Samples.editedElementUri Samples.editSessionParams Samples.uploadLocation
             Samples.uploadChangeControlValue Samples.fileError 0
             eq_refl eq_refl eq_refl eq_refl).
  repeat split; reflexivity.
Defined.

Lemma generic_update_error_reopens_session_witness :
  let t := snd (uploadElementCommand Samples.brokenWorld 1 Samples.editedElementUri []) in
  count isUpdate t = 1
  /\ filter isLoggerError t
     = [LoggerError "Unable to upload the element ELM to Endevor."
          (Some "internal server error.")]
  /\ deletedFiles t = [] /\ dispatched t = []
  /\ last t CloseActiveTextEditor = ShowElementToEdit Samples.editedElementUri.
Proof.
  cbv zeta.
  rewrite (generic_update_error_reopens_session Samples.brokenWorld
             Samples.editedElementUri Samples.editSessionParams Samples.uploadLocation
             Samples.uploadChangeControlValue Samples.editedElementContent
             Samples.serverError 0
             eq_refl eq_refl eq_refl eq_refl eq_refl eq_refl).
  repeat split; reflexivity.
Defined.

Lemma declined_signout_stops_upload_witness :
  let t := snd (uploadElementCommand Samples.declinedSignoutWorld 1
                  Samples.editedElementUri []) in
  count isUpdate t = 1 /\ count isSignOut t = 0
  /\ filter isLoggerError t
     = [LoggerError "Unable to upload the element ELM to Endevor."
          (Some "Unable to upload the element ELM because it is signed out to somebody else.")].
Proof.
  cbv zeta.
  rewrite (declined_signout_stops_upload Samples.declinedSignoutWorld
             Samples.editedElementUri Samples.editSessionParams Samples.uploadLocation
             Samples.uploadChangeControlValue Samples.editedElementContent
             Samples.signoutError 0
             eq_refl eq_refl eq_refl eq_refl eq_refl eq_refl eq_refl).
  repeat split; reflexivity.
Defined.

Lemma declined_override_stops_upload_witness :
  let t := snd (uploadElementCommand Samples.declinedOverrideWorld 1
                  Samples.editedElementUri []) in
  count isUpdate t = 1 /\ count isSignOut t = 1 /\ count isOverrideSignOut t = 0
  /\ dispatched t = []
  /\ filter isLoggerError t
     = [LoggerError "Unable to upload the element ELM to Endevor."
          (Some "The element ELM is signed out to somebody else, override signout action is not selected.")].
Proof.
  cbv zeta.
  rewrite (declined_override_stops_upload Samples.declinedOverrideWorld
             Samples.editedElementUri Samples.editSessionParams Samples.uploadLocation
             Samples.uploadChangeControlValue Samples.editedElementContent
             Samples.signoutError Samples.signoutError 0
             eq_refl eq_refl eq_refl eq_refl eq_refl eq_refl eq_refl eq_refl eq_refl eq_refl).
  repeat split; reflexivity.
Defined.

Lemma override_then_clean_retry_witness :
  let t := snd (uploadElementCommand Samples.overriddenWorld 2 Samples.editedElementUri []) in
  count isUpdate t = 2 /\ count isSignOut t = 1 /\ count isOverrideSignOut t = 1
  /\ map a_type (dispatched t) = [ELEMENT_SIGNEDOUT; ELEMENT_UPDATED]
  /\ deletedFiles t = [Samples.editedElementUri].
Proof.
  cbv zeta.
  rewrite (override_then_clean_retry Samples.overriddenWorld
             Samples.editedElementUri Samples.editSessionParams Samples.uploadLocation
             Samples.uploadChangeControlValue Samples.editedElementContent
             Samples.editedElementContent Samples.signoutError Samples.signoutError 0
             eq_refl eq_refl eq_refl eq_refl eq_refl eq_refl eq_refl eq_refl eq_refl eq_refl
             eq_refl eq_refl eq_refl eq_refl).
  repeat split; reflexivity.
Defined.

Lemma failed_removal_is_logged_and_tree_updated_witness :
  let t := snd (uploadElementCommand Samples.undeletableWorld 1 Samples.editedElementUri []) in
  filter isLoggerError t
  = [LoggerError "Unable to remove the file /some/temp/element.cbl."
       (Some "Unable to remove the file /some/temp/element.cbl because of error no such file.")]
  /\ map a_type (dispatched t) = [ELEMENT_UPDATED].
Proof.
  cbv zeta.
  rewrite (failed_removal_is_logged_and_tree_updated Samples.undeletableWorld
             Samples.editedElementUri Samples.editSessionParams Samples.uploadLocation
             Samples.uploadChangeControlValue Samples.editedElementContent
             Samples.fileError 0
             eq_refl eq_refl eq_refl eq_refl eq_refl eq_refl).
  repeat split; reflexivity.
Defined.

Lemma upload_calls_carry_session_arguments_witness :
  let t := snd (uploadElementCommand Samples.signoutWorld 2 Samples.editedElementUri []) in
  nth_error t 9
  = Some (UpdateElement Samples.service
            (uploadTarget Samples.editSessionParams Samples.uploadLocation)
            Samples.uploadChangeControlValue Samples.elementFingerprint
            Samples.editedElementContent)
  /\ Samples.elementFingerprint = q_fingerprint Samples.editSessionParams.
Proof.
  cbv zeta. split; [reflexivity|].
  destruct (upload_calls_carry_session_arguments Samples.signoutWorld 2
              Samples.editedElementUri Samples.editSessionParams Samples.uploadLocation
              Samples.uploadChangeControlValue eq_refl eq_refl eq_refl
              (UpdateElement Samples.service
                 (uploadTarget Samples.editSessionParams Samples.uploadLocation)
                 Samples.uploadChangeControlValue Samples.elementFingerprint
                 Samples.editedElementContent))
    as (_ & _ & _ & H).
  - apply (nth_error_In _ 9). reflexivity.
  - exact H.
Defined.

Lemma closed_session_is_reopened_or_removed_witness :
  let t := snd (uploadElementCommand Samples.brokenWorld 1 Samples.editedElementUri []) in
  count isShow t + count isDeleteFile t = count isCloseEditor t
  /\ count isCloseEditor t <= 1.
Proof.
  exact (closed_session_is_reopened_or_removed Samples.brokenWorld 1
           Samples.editedElementUri eq_refl).
Defined.

Lemma update_sends_the_content_just_read_witness :
  exists before',
    (uploadPreamble Samples.editSessionParams
       ++ [GetFileContent Samples.editedElementFilePath])%list
    = (before' ++ [GetFileContent (fsPath Samples.editedElementUri)])%list
    /\ getFileContent Samples.inPlaceWorld (count isGetFileContent before')
       = Val Samples.editedElementContent.
Proof.
  exact (update_sends_the_content_just_read Samples.inPlaceWorld 1 Samples.editedElementUri
           (uploadPreamble Samples.editSessionParams
              ++ [GetFileContent Samples.editedElementFilePath])%list
           [DeleteFile Samples.editedElementUri;
            Dispatch (treeAction ELEMENT_UPDATED Samples.editSessionParams [Samples.element])]
           Samples.service
           (uploadTarget Samples.editSessionParams Samples.uploadLocation)
           Samples.uploadChangeControlValue Samples.elementFingerprint
           Samples.editedElementContent eq_refl).
Defined.

(** *** Further properties of the edit commands *)

(** X16.  The edit of one element stops at its first failing step: the
    element is retrieved at most once, saved only if it was retrieved and
    shown only if it was saved and has upload options; at most one error
    is logged, and nothing is done after it.  An element without upload
    options is left unopened without any message. *)
Theorem editSingleElement_stops_at_first_failure (env : EditEnv) (element : TreeNode) :
  let t := snd (editSingleElement env element []) in
  count isRetrieve t <= 1
  /\ count isSaveIntoEditFolder t
     = (if isError (retrieveElementWithFingerprint env 0) then 0 else count isRetrieve t)
  /\ count isShow t
     = (if isError (saveIntoEditFolder env 0) then 0
        else match withUploadOptions env 0 with
             | Some _ => count isSaveIntoEditFolder t
             | None => 0
             end)
  /\ count isLoggerError t <= 1
  /\ (count isLoggerError t = 1 -> exists calls m d, t = (calls ++ [LoggerError m d])%list)
  /\ (count isSaveIntoEditFolder t = 1 -> isError (saveIntoEditFolder env 0) = false ->
      withUploadOptions env 0 = None -> count isLoggerError t = 0).
Proof.
  cbv zeta. unfold editSingleElement, bind, call, ret, logger_error, emit.
  destruct (getWorkspaceUri env) as [workspaceUri|].
  2:{ cbn. repeat split; try lia; repeat break_match; try reflexivity; try discriminate.
      intros _. exists []. eexists. eexists. reflexivity. }
  destruct (fromTreeElementUri env (node_uri element)) as [q|e].
  2:{ cbn. repeat split; try lia; repeat break_match; try reflexivity; try discriminate.
      intros _. exists []. eexists. eexists. reflexivity. }
  destruct (retrieveElementWithFingerprint env 0) as [content|e].
  2:{ cbn. repeat split; try lia; repeat break_match; try reflexivity; try discriminate.
      intros _. eexists [_]. eexists. eexists. reflexivity. }
  destruct (saveIntoEditFolder env 0) as [savedFile|e].
  2:{ cbn. repeat split; try lia; try discriminate.
      intros _. eexists [_; _]. eexists. eexists. reflexivity. }
  destruct (withUploadOptions env 0) as [u|].
  2:{ cbn. repeat split; try lia; discriminate. }
  destruct (showElementToEditAt env 0) as [[]|e].
  - cbn. repeat split; try lia; discriminate.
  - cbn. repeat split; try lia; try discriminate.
    intros _. eexists [_; _; _]. eexists. eexists. reflexivity.
Qed.

(** X17.  Editing one element through the single-element command and
    through a batch of one makes the same calls in the same order: the
    same retrieval, the same save, the same reveal.  Both log an error in
    the same cases, and at most one. *)
Theorem single_edit_matches_batch_of_one (env : EditEnv) (element : TreeNode) :
  let single := snd (editSingleElement env element []) in
  let batch := snd (editMultipleElements env [element] []) in
  filter (fun e => negb (isLoggerError e)) single
  = filter (fun e => negb (isLoggerError e)) batch
  /\ count isLoggerError single = count isLoggerError batch
  /\ count isLoggerError single <= 1.
Proof.
  cbv zeta.
  unfold editSingleElement, editMultipleElements, editPhases, elementUris, reportErrors,
    overallErrors, indexed, retrieveTask, saveTask, showTask, retrieveResult,
    bind, call, ret, logger_error, emit.
  destruct (getWorkspaceUri env) as [workspaceUri|];
    [|cbn; repeat split; first [reflexivity | lia]].
  cbn -[String.append String.concat]. unfold bind, call, ret.
  destruct (fromTreeElementUri env (node_uri element)) as [q|e];
    [|cbn; repeat split; first [reflexivity | lia]].
  cbn -[String.append String.concat].
  destruct (retrieveElementWithFingerprint env 0) as [content|e];
    [|cbn; repeat split; first [reflexivity | lia]].
  cbn -[String.append String.concat].
  destruct (saveIntoEditFolder env 0) as [savedFile|e];
    [|cbn; repeat split; first [reflexivity | lia]].
  cbn -[String.append String.concat].
  destruct (withUploadOptions env 0) as [u|];
    [|cbn; repeat split; first [reflexivity | lia]].
  cbn -[String.append String.concat].
  destruct (showElementToEditAt env 0) as [[]|e]; cbn; repeat split;
    first [reflexivity | lia].
Qed.

(** The calls of one phase of a batch: one call, of the kind [p], for
    each task that reaches the phase. *)
Lemma phase_calls {A B} (p : Effect -> bool) (g : A -> B) (b : A -> bool)
    (h : B -> Trace) (l : list A) :
  (forall a, if b a then exists x, h (g a) = [x] /\ p x = true else h (g a) = []) ->
  Forall (fun e => p e = true) (flat_map h (map g l))
  /\ length (flat_map h (map g l)) = length (filter b l).
Proof.
  intros H. induction l as [|a l [IH1 IH2]]; [split; [constructor|reflexivity]|].
  cbn [map flat_map filter]. specialize (H a). destruct (b a).
  - destruct H as (x & -> & Hp). cbn. split; [constructor; assumption|congruence].
  - rewrite H. cbn. split; assumption.
Qed.

Lemma indexedFrom_In {A} (l : list A) :
  forall n i a, In (i, a) (indexedFrom n l) -> exists j, i = n + j /\ nth_error l j = Some a.
Proof.
  induction l as [|x l IH]; intros n i a H; [destruct H|].
  rewrite indexedFrom_cons in H. destruct H as [H|H].
  - injection H as <- <-. exists 0. split; [lia|reflexivity].
  - destruct (IH _ _ _ H) as (j & -> & Hj). exists (S j). split; [lia|exact Hj].
Qed.

(** The trace of a batch edit in a workspace, phase by phase. *)
Lemma editMultipleElements_phases (env : EditEnv) (workspaceUri : Uri)
    (elements : list TreeNode) :
  getWorkspaceUri env = Some workspaceUri ->
  exists report,
    snd (editMultipleElements env elements [])
    = (flat_map retrieveCalls
         (map (fun task => (fst task, parsed env (snd task))) (indexed elements))
       ++ flat_map (saveCalls workspaceUri)
            (map (fun task =>
                    (fst task,
                     retrieveResult (parsed env (snd task))
                       (retrieved env (fst task, parsed env (snd task)))))
                 (indexed elements))
       ++ flat_map showCalls
            (map (fun task => (fst task, savedOf env task)) (indexed elements))
       ++ report)%list
    /\ Forall (fun e => isLoggerError e = true) report
    /\ length report <= 1.
Proof.
  intros Hws. unfold editMultipleElements. rewrite Hws. unfold bind.
  rewrite editPhases_run. cbn [app fst snd].
  rewrite (indexed_eq (map (parsed env) elements)), indexedFrom_map, <- indexed_eq.
  unfold reportErrors.
  destruct (overallErrors _); unfold ret, logger_error, emit; cbn [snd].
  - exists []. rewrite !app_nil_r. split; [reflexivity|]. split; [constructor|cbn; lia].
  - eexists [_]. rewrite <- !app_assoc. split; [reflexivity|].
    split; [repeat constructor|cbn; lia].
Qed.

(** X18.  A batch edit runs phase after phase: every retrieval comes
    before every save, every save before every reveal, and the single
    diagnostic, if any, comes last.  An element is retrieved exactly if
    its URI could be read, saved exactly if it was also retrieved, and
    shown exactly if it was also saved and has upload options; the
    failure of one element removes no call of another. *)
Theorem batch_runs_phase_after_phase
    (env : EditEnv) (workspaceUri : Uri) (elements : list TreeNode) :
  getWorkspaceUri env = Some workspaceUri ->
  exists retrievals saves reveals report,
    snd (editMultipleElements env elements [])
    = (retrievals ++ saves ++ reveals ++ report)%list
    /\ Forall (fun e => isRetrieve e = true) retrievals
    /\ Forall (fun e => isSaveIntoEditFolder e = true) saves
    /\ Forall (fun e => isShow e = true) reveals
    /\ Forall (fun e => isLoggerError e = true) report
    /\ length report <= 1
    /\ length retrievals = length (filter (reachesRetrieve env) (indexed elements))
    /\ length saves = length (filter (reachesSave env) (indexed elements))
    /\ length reveals = length (filter (reachesShow env) (indexed elements)).
Proof.
  intros Hws.
  destruct (editMultipleElements_phases env workspaceUri elements Hws)
    as (report & Ht & Hrep & Hlen).
  destruct (phase_calls isRetrieve (fun task => (fst task, parsed env (snd task)))
              (reachesRetrieve env) retrieveCalls (indexed elements)) as [R1 R2].
  { intros [i el]. unfold reachesRetrieve, retrieveCalls, parsed. cbn [fst snd].
    destruct (fromTreeElementUri env (node_uri el)); cbn; eauto. }
  destruct (phase_calls isSaveIntoEditFolder
              (fun task => (fst task,
                            retrieveResult (parsed env (snd task))
                              (retrieved env (fst task, parsed env (snd task)))))
              (reachesSave env) (saveCalls workspaceUri) (indexed elements)) as [S1 S2].
  { intros [i el]. unfold reachesSave, reachesRetrieve, saveCalls, retrieved, parsed,
      retrieveResult. cbn [fst snd].
    destruct (fromTreeElementUri env (node_uri el)); cbn; [|reflexivity].
    destruct (retrieveElementWithFingerprint env i); cbn; eauto. }
  destruct (phase_calls isShow (fun task => (fst task, savedOf env task))
              (reachesShow env) showCalls (indexed elements)) as [W1 W2].
  { intros [i el]. unfold reachesShow, reachesSave, reachesRetrieve, showCalls, savedOf,
      saved, retrieved, parsed, retrieveResult. cbn [fst snd].
    destruct (fromTreeElementUri env (node_uri el)); cbn; [|reflexivity].
    destruct (retrieveElementWithFingerprint env i); cbn; [|reflexivity].
    destruct (saveIntoEditFolder env i); cbn; [|reflexivity].
    destruct (withUploadOptions env i); cbn; eauto. }
  do 4 eexists. split; [exact Ht|]. repeat split; assumption.
Qed.

(** X19.  A batch edit opens no element that did not get through: every
    file shown for editing is the upload-ready copy of an element of the
    batch whose URI was read and which was retrieved and saved without
    error. *)
Theorem batch_shows_only_saved_elements
    (env : EditEnv) (workspaceUri : Uri) (elements : list TreeNode) (shownFile : Uri) :
  getWorkspaceUri env = Some workspaceUri ->
  In (ShowElementToEdit shownFile) (snd (editMultipleElements env elements [])) ->
  exists i element,
    nth_error elements i = Some element
    /\ isError (fromTreeElementUri env (node_uri element)) = false
    /\ isError (retrieveElementWithFingerprint env i) = false
    /\ isError (saveIntoEditFolder env i) = false
    /\ withUploadOptions env i = Some shownFile.
Proof.
  intros Hws Hin.
  destruct (editMultipleElements_phases env workspaceUri elements Hws)
    as (report & Ht & Hrep & _).
  rewrite Ht in Hin.
  apply in_app_or in Hin. destruct Hin as [Hin|Hin].
  { apply in_flat_map in Hin. destruct Hin as ([i r] & _ & Hin).
    unfold retrieveCalls in Hin. cbn [snd] in Hin.
    destruct r; cbn in Hin; [destruct Hin as [Hin|[]]; discriminate|destruct Hin]. }
  apply in_app_or in Hin. destruct Hin as [Hin|Hin].
  { apply in_flat_map in Hin. destruct Hin as ([i r] & _ & Hin).
    unfold saveCalls in Hin. cbn [snd] in Hin.
    destruct r as [[q c]|e]; cbn in Hin; [destruct Hin as [Hin|[]]; discriminate|destruct Hin]. }
  apply in_app_or in Hin. destruct Hin as [Hin|Hin].
  2:{ rewrite Forall_forall in Hrep. specialize (Hrep _ Hin). discriminate. }
  apply in_flat_map in Hin. destruct Hin as ([i r] & Htask & Hin).
  apply in_map_iff in Htask. destruct Htask as ([i' el] & Heq & Hel).
  cbn [fst] in Heq. injection Heq as -> <-.
  rewrite indexed_eq in Hel. destruct (indexedFrom_In _ _ _ _ Hel) as (j & -> & Hj).
  exists j, el. split; [exact Hj|].
  unfold showCalls, savedOf, saved, retrieved, parsed, retrieveResult in Hin.
  cbn [fst snd plus] in Hin.
  destruct (fromTreeElementUri env (node_uri el)); cbn in Hin; [|destruct Hin].
  destruct (retrieveElementWithFingerprint env j); cbn in Hin; [|destruct Hin].
  destruct (saveIntoEditFolder env j); cbn in Hin; [|destruct Hin].
  destruct (withUploadOptions env j); cbn in Hin; [|destruct Hin].
  destruct Hin as [Hin|[]]. injection Hin as ->. repeat split; reflexivity.
Qed.

Lemma batch_runs_phase_after_phase_witness :
  let t := snd (editMultipleElements Samples.batchWorld Samples.batch []) in
  count isRetrieve t = 3 /\ count isSaveIntoEditFolder t = 2 /\ count isShow t = 2
  /\ exists retrievals saves reveals report,
       t = (retrievals ++ saves ++ reveals ++ report)%list
       /\ length retrievals = 3 /\ length saves = 2 /\ length reveals = 2.
Proof.
  cbv zeta. split; [reflexivity|]. split; [reflexivity|]. split; [reflexivity|].
  destruct (batch_runs_phase_after_phase Samples.batchWorld Samples.workspaceUri
              Samples.batch eq_refl)
    as (retrievals & saves & reveals & report & Ht & _ & _ & _ & _ & _ & H1 & H2 & H3).
  exists retrievals, saves, reveals, report.
  split; [exact Ht|]. split; [exact H1|]. split; [exact H2|exact H3].
Defined.

Lemma batch_shows_only_saved_elements_witness :
  exists i element,
    nth_error Samples.batch i = Some element
    /\ isError (retrieveElementWithFingerprint Samples.batchWorld i) = false
    /\ withUploadOptions Samples.batchWorld i = Some (Samples.savedUri 2).
Proof.
  destruct (batch_shows_only_saved_elements Samples.batchWorld Samples.workspaceUri
              Samples.batch (Samples.savedUri 2) eq_refl)
    as (i & element & H1 & _ & H3 & _ & H5).
  - vm_compute. right. right. right. right. right. right. left. reflexivity.
  - exists i, element. repeat split; assumption.
Defined.

(** *** Further properties of the compared-element locators *)

(** The conversion of a value to a string throws a TypeError exactly
    when the value is unprintable. *)
Lemma toStringJs_unprintable (v : JsValue) :
  (unprintable v = true -> toStringJs v = Throws TypeError)
  /\ (unprintable v = false -> exists text, toStringJs v = Returns text).
Proof.
  induction v as [|b|n|shown|s|l IH|l IH] using JsValue_nested_ind;
    try (split; [discriminate|intros _; eexists; reflexivity]).
  - split; [discriminate|intros _; destruct b; eexists; reflexivity].
  - cbn [unprintable toStringJs].
    match goal with
    | |- context [andThen (?f l)] => set (elements := f)
    end.
    assert (H : (existsb unprintable l = true -> elements l = Throws TypeError)
                /\ (existsb unprintable l = false -> exists texts, elements l = Returns texts)).
    { induction l as [|x l IHl]; [split; [discriminate|intros _; eexists; reflexivity]|].
      inversion IH as [|? ? Hx Hl]; subst. specialize (IHl Hl).
      destruct Hx as [Hthrows Hreturns]. destruct IHl as [IHthrows IHreturns].
      cbn [existsb]. unfold elements. fold elements.
      destruct (unprintable x) eqn:Ex; cbn [orb].
      - split; [intros _|discriminate].
        destruct x; try discriminate Ex; rewrite (Hthrows eq_refl); reflexivity.
      - destruct (Hreturns eq_refl) as (text & Htext).
        assert (Hhead : exists text',
                   match x with JNull => Returns EmptyString | _ => toStringJs x end
                   = Returns text')
          by (destruct x; eexists; try exact Htext; reflexivity).
        destruct Hhead as (text' & ->). cbn [andThen].
        split; intros Hl'.
        + rewrite (IHthrows Hl'). reflexivity.
        + destruct (IHreturns Hl') as (texts & ->). eexists. reflexivity. }
    destruct H as [Hthrows Hreturns]. split; intros Hl.
    + rewrite (Hthrows Hl). reflexivity.
    + destruct (Hreturns Hl) as (texts & ->). eexists. reflexivity.
  - cbn [unprintable toStringJs]. split; intros ->; [reflexivity|eexists; reflexivity].
Qed.

(** X20.  The validation and the decoding of a locator throw in three
    cases only, all for a locator of the scheme [file]: with a URIError,
    when the query cannot be percent-decoded (a percent sign that is not
    followed by two hexadecimal digits, or escaped octets that are no
    UTF-8 text); with a TypeError, when the query is the JSON text
    [null]; and with a TypeError, when the query is the JSON text of an
    object whose type cannot be converted to a string (an object with a
    property named [toString], or an array that holds such a value).  For
    any other scheme nothing is thrown whatever the query holds, and the
    second parse of the decoder never throws. *)
Theorem locator_decoding_throws_exactly_when
    (numberText : string -> string) (u : Uri) (e : Thrown) :
  let throws :=
    scheme u = Schemas.FILE
    /\ ((percentDecode [] (query u) = None /\ e = URIError)
        \/ (exists decoded,
              percentDecode [] (query u) = Some decoded
              /\ e = TypeError
              /\ (JSON_parse numberText decoded = Some JNull
                  \/ exists properties actualType,
                       JSON_parse numberText decoded = Some (JObject properties)
                       /\ lookupProperty "type" properties = Some actualType
                       /\ unprintable actualType = true))) in
  (isComparedElementUri numberText u = Throws e <-> throws)
  /\ (fromComparedElementUri numberText u = Throws e <-> throws).
Proof.
  cbv zeta.
  assert (Hfrom : fromComparedElementUri numberText u = Throws e
                  <-> isComparedElementUri numberText u = Throws e).
  { destruct (isComparedElementUri numberText u) as [r|thrown] eqn:Hr.
    - destruct (fromComparedElementUri_returns_when_validation_does numberText u r Hr)
        as [Hvalid Hinvalid].
      destruct (valid r).
      + destruct (Hvalid eq_refl) as (d & v & _ & _ & ->). split; discriminate.
      + destruct (Hinvalid eq_refl) as (m & _ & _ & ->). split; discriminate.
    - unfold fromComparedElementUri. rewrite Hr. cbn [andThen].
      split; intros [= <-]; reflexivity. }
  rewrite Hfrom.
  assert (H : isComparedElementUri numberText u = Throws e <->
              scheme u = Schemas.FILE
              /\ ((percentDecode [] (query u) = None /\ e = URIError)
                  \/ (exists decoded,
                        percentDecode [] (query u) = Some decoded
                        /\ e = TypeError
                        /\ (JSON_parse numberText decoded = Some JNull
                            \/ exists properties actualType,
                                 JSON_parse numberText decoded = Some (JObject properties)
                                 /\ lookupProperty "type" properties = Some actualType
                                 /\ unprintable actualType = true))));
    [|split; exact H].
  unfold isComparedElementUri, decodeURIComponent.
  destruct (String.eqb (scheme u) Schemas.FILE) eqn:Es.
  2:{ apply String.eqb_neq in Es. split; [discriminate|intros [H _]; contradiction]. }
  apply String.eqb_eq in Es.
  destruct (percentDecode [] (query u)) as [d|]; cbn [andThen].
  2:{ split.
      - intros [= <-]. split; [exact Es|left; split; reflexivity].
      - intros [_ [[_ ->]|(d & Hd & _)]]; [reflexivity|discriminate]. }
  destruct (JSON_parse numberText d) as [v|] eqn:Ep.
  2:{ split; [discriminate|].
      intros [_ [[Hd _]|(d' & Hd & _ & [Hp|(l & t & Hp & _)])]]; try discriminate;
        injection Hd as <-; rewrite Ep in Hp; discriminate. }
  destruct v as [|b|n|shown|s|l|l]; cbn [getProperty andThen].
  1:{ split.
      - intros [= <-]. split; [exact Es|]. right. exists d. auto.
      - intros [_ [[Hd _]|(d' & _ & -> & _)]]; [discriminate|reflexivity]. }
  1-5: (cbn [strictEqualsString templateValue andThen];
        split; [discriminate|];
        intros [_ [[Hd _]|(d' & Hd & _ & [Hp|(l' & t & Hp & _)])]]; try discriminate;
        injection Hd as <-; rewrite Ep in Hp; discriminate).
  destruct (lookupProperty "type" l) as [t|] eqn:Et.
  2:{ cbn [strictEqualsString templateValue andThen].
      split; [discriminate|].
      intros [_ [[Hd _]|(d' & Hd & _ & [Hp|(l' & t & Hp & Ht & _)])]]; try discriminate;
        injection Hd as <-; rewrite Ep in Hp; [discriminate|].
      injection Hp as <-. rewrite Et in Ht. discriminate. }
  destruct (toStringJs_unprintable t) as [Hthrows Hreturns].
  destruct (unprintable t) eqn:Eu.
  - assert (Hne : strictEqualsString (Some t) QueryTypes.COMPARED_ELEMENT = false)
      by (destruct t; try reflexivity; discriminate Eu).
    rewrite Hne. cbn [templateValue]. rewrite (Hthrows eq_refl). cbn [andThen].
    split.
    + intros [= <-]. split; [exact Es|]. right. exists d.
      split; [reflexivity|]. split; [reflexivity|]. right. exists l, t. auto.
    + intros [_ [[Hd _]|(d' & _ & -> & _)]]; [discriminate|reflexivity].
  - destruct (Hreturns eq_refl) as (text & Htext).
    destruct (strictEqualsString (Some t) QueryTypes.COMPARED_ELEMENT);
      cbn [templateValue]; rewrite ?Htext; cbn [andThen];
      (split; [discriminate|];
       intros [_ [[Hd _]|(d' & Hd & _ & [Hp|(l' & t' & Hp & Ht & Hu)])]]; try discriminate;
       injection Hd as <-; rewrite Ep in Hp; [discriminate|];
       injection Hp as <-; rewrite Et in Ht; injection Ht as <-; congruence).
Qed.

(** X21.  The decoder checks the type tag and nothing else.  A locator
    is valid exactly when its scheme is [file] and its query can be
    percent-decoded to the JSON text of an object whose type is the
    string [compared-element]; it then decodes to that object, whatever
    other properties the object has or lacks.  In particular, for every
    object with that type whose numbers are safe integers and whose
    strings are well-formed text, the locator of the scheme [file] whose
    query is the encoded JSON text of the object is valid and decodes to
    that very object. *)
Theorem decoder_accepts_any_tagged_object (numberText : string -> string) (u : Uri) :
  (isComparedElementUri numberText u = Returns {| valid := true; validationMessage := None |}
   <-> scheme u = Schemas.FILE
       /\ exists decoded properties,
            decodeURIComponent (query u) = Returns decoded
            /\ JSON_parse numberText decoded = Some (JObject properties)
            /\ lookupProperty "type" properties
               = Some (JString QueryTypes.COMPARED_ELEMENT))
  /\ (forall decoded properties,
        scheme u = Schemas.FILE ->
        decodeURIComponent (query u) = Returns decoded ->
        JSON_parse numberText decoded = Some (JObject properties) ->
        lookupProperty "type" properties = Some (JString QueryTypes.COMPARED_ELEMENT) ->
        fromComparedElementUri numberText u = Returns (Val (JObject properties)))
  /\ (forall properties,
        scheme u = Schemas.FILE ->
        query u = encodeURIComponent (JSON_stringify (JObject properties)) ->
        wellFormed (JObject properties) = true ->
        lookupProperty "type" properties = Some (JString QueryTypes.COMPARED_ELEMENT) ->
        isComparedElementUri numberText u
        = Returns {| valid := true; validationMessage := None |}
        /\ fromComparedElementUri numberText u = Returns (Val (JObject properties))).
Proof.
  assert (Hvalid : forall decoded properties,
             scheme u = Schemas.FILE ->
             decodeURIComponent (query u) = Returns decoded ->
             JSON_parse numberText decoded = Some (JObject properties) ->
             lookupProperty "type" properties = Some (JString QueryTypes.COMPARED_ELEMENT) ->
             isComparedElementUri numberText u
             = Returns {| valid := true; validationMessage := None |}
             /\ fromComparedElementUri numberText u = Returns (Val (JObject properties))).
  { intros decoded properties Hs Hd Hp Hty.
    assert (Hv : isComparedElementUri numberText u
                 = Returns {| valid := true; validationMessage := None |}).
    { unfold isComparedElementUri. rewrite Hs, String.eqb_refl, Hd. cbn [andThen].
      rewrite Hp. cbn [getProperty andThen]. rewrite Hty. reflexivity. }
    split; [exact Hv|].
    unfold fromComparedElementUri. rewrite Hv. cbn [andThen valid]. rewrite Hd.
    cbn [andThen]. rewrite Hp. reflexivity. }
  split; [|split].
  - split.
    + unfold isComparedElementUri.
      destruct (String.eqb (scheme u) Schemas.FILE) eqn:Es; [|discriminate].
      apply String.eqb_eq in Es.
      destruct (decodeURIComponent (query u)) as [d|]; [|discriminate]. cbn [andThen].
      destruct (JSON_parse numberText d) as [v|] eqn:Ep; [|discriminate].
      destruct v as [|b|n|shown|s|l|l]; cbn [getProperty andThen strictEqualsString];
        try discriminate;
        try (destruct (templateValue None); discriminate).
      destruct (lookupProperty "type" l) as [t|] eqn:Et.
      * destruct t as [|b|n|shown|s|l'|l']; cbn [strictEqualsString];
          try (destruct (templateValue _); discriminate).
        destruct (String.eqb_spec s QueryTypes.COMPARED_ELEMENT) as [->|Hne].
        -- intros _. split; [exact Es|]. exists d, l.
           split; [reflexivity|]. split; [exact Ep|exact Et].
        -- destruct (templateValue _); discriminate.
      * cbn [strictEqualsString]. destruct (templateValue None); discriminate.
    + intros (Hs & d & l & Hd & Hp & Hty). exact (proj1 (Hvalid d l Hs Hd Hp Hty)).
  - intros d l Hs Hd Hp Hty. exact (proj2 (Hvalid d l Hs Hd Hp Hty)).
  - intros properties Hs Hq Hwf Hty.
    apply (Hvalid (JSON_stringify (JObject properties)) properties Hs).
    + rewrite Hq. apply decodeURIComponent_encodeURIComponent.
      apply JSON_stringify_valid. exact Hwf.
    + apply JSON_parse_stringify. exact Hwf.
    + exact Hty.
Qed.

(** X22.  The encoder reads the eight properties of the query and
    nothing else: two queries that agree on them are written as the same
    locator, whatever their other properties, the order of their
    properties, or a type of their own. *)
Theorem encoder_reads_only_the_query_properties
    (elementFileSystemPath : string) (q1 q2 : JsValue) :
  q1 <> JNull -> q2 <> JNull ->
  (forall k, In k serializedKeys ->
     lookupProperty k (propertiesOf q1) = lookupProperty k (propertiesOf q2)) ->
  toComparedElementUri elementFileSystemPath q1
  = toComparedElementUri elementFileSystemPath q2.
Proof.
  intros H1 H2 Hagree.
  rewrite !toComparedElementUri_eq by assumption.
  unfold serializedValue.
  rewrite (map_ext_in _ (fun k => (k, lookupProperty k (propertiesOf q2)))); [reflexivity|].
  intros k Hk. rewrite (Hagree k Hk). reflexivity.
Qed.

Lemma decoder_accepts_any_tagged_object_witness :
  isComparedElementUri Samples.numberText Samples.reorderedLocator
  = Returns {| valid := true; validationMessage := None |}
  /\ fromComparedElementUri Samples.numberText Samples.reorderedLocator
     = Returns (Val (JObject [ ("fingerprint", JString "element_fingerprint");
                               ("type", JString "compared-element") ])).
Proof.
  exact (proj2 (proj2 (decoder_accepts_any_tagged_object Samples.numberText
                         Samples.reorderedLocator))
           [ ("fingerprint", JString "element_fingerprint");
             ("type", JString "compared-element") ]
           eq_refl eq_refl eq_refl eq_refl).
Defined.

Lemma encoder_reads_only_the_query_properties_witness :
  toComparedElementUri Samples.localElementVersionFsPath
    (JObject (("type", JString "edited-element") :: ("extra", JBool true)
                :: rev (propertiesOf Samples.comparedQuery)))
  = toComparedElementUri Samples.localElementVersionFsPath Samples.comparedQuery.
Proof.
  apply encoder_reads_only_the_query_properties; try discriminate.
  intros k Hk. cbn in Hk.
  repeat (destruct Hk as [<-|Hk]; [reflexivity|]). destruct Hk.
Defined.
